(** * Receipt normalisation, reconciliation and the auditor chat engine

    A shallow embedding of
      - [src/types/extraction.types.ts]   (amount parsing, validation,
        conversion of CORD ground truth records),
      - the rule based auditor chat route (pattern cascade, query templates,
        response formatter, referenced receipt extraction),
      - [api/auditor/sql/route.ts]        (model assisted text-to-SQL route),
    followed by the properties established about them.

    Conventions of the embedding.
      - A JavaScript [number] is a rational ([Q]).  An IEEE double is the
        rational it denotes, and [JS.double] rounds a rational to the
        nearest double, ties to even.  The digits read by [parseInt] and
        the sum, the difference and the product computed by the validator
        are rounded in this way, as the program rounds them.  [NaN], the
        infinities, the negative zero and the subnormal range have no
        counterpart: [JS.double] has an unbounded exponent.  Statements
        about computed amounts are therefore made for amounts far below the
        largest double, and say so.  The confidence score and the elapsed
        time of an extraction are left unrounded; they are only compared
        with thresholds away from the values they take.
      - A JavaScript string is a [string] of bytes (its UTF-8 encoding).  All
        characters the code inspects (digits, commas, back ticks, ASCII
        letters) are single bytes below 128, and no byte of a multi-byte
        sequence is below 128.  White space is recognised in its UTF-8
        encoding, for every character [trim] and [parseInt] strip.
        [toLowerCase], [toUpperCase] and the flag [i] act on the ASCII
        letters.  (The two characters above U+007F whose lower case contains
        an ASCII letter, U+0130 and U+212A, give "i" followed by a combining
        mark and "k"; neither can complete a match of the words tested
        here.)
      - An optional field [f?: T] is an [option T]; [None] is [undefined]. *)

From Stdlib Require Import Bool List String Ascii Arith ZArith QArith Qabs Qround Lia.
From Stdlib Require Import Qpower Qreduction DecimalString DecimalNat Lqa Permutation.
Import ListNotations.

Set Implicit Arguments.

(* ================================================================== *)
(** * JavaScript built-ins used by the sources *)
(* ================================================================== *)

Module JS.

Local Open Scope string_scope.

Definition number := Q.

(** The integer part of the binary logarithm of a positive rational. *)
Definition ilog2 (x : Q) : Z :=
  if Qle_bool 1 x then Z.log2 (Qfloor x)
  else (- Z.log2_up (Qceiling (/ x)))%Z.

(** The nearest integer, a tie going to the even one. *)
Definition roundHalfEven (m : Q) : Z :=
  let f := Qfloor m in
  match Qcompare (m - inject_Z f) (1 # 2) with
  | Lt => f
  | Gt => (f + 1)%Z
  | Eq => if Z.even f then f else (f + 1)%Z
  end.

(** The double nearest to a positive rational: the rational is scaled by a
    power of two to a mantissa between [2^52] and [2^53], which is rounded
    to the nearest integer. *)
Definition nearest (x : Q) : Q :=
  let e := (ilog2 x - 52)%Z in
  (inject_Z (roundHalfEven (x * 2 ^ (- e))) * 2 ^ e)%Q.

(** The IEEE double (binary64) nearest to a rational, in lowest terms. *)
Definition double (x : Q) : number :=
  match Qcompare x 0 with
  | Eq => 0%Q
  | Gt => Qred (nearest x)
  | Lt => Qred (- nearest (- x))
  end.

(** [x + y], [x - y] and [x * y] on numbers. *)
Definition addNum (x y : number) : number := double (x + y).
Definition subNum (x y : number) : number := double (x - y).
Definition mulNum (x y : number) : number := double (x * y).

(** [!n] for a number: only zero is falsy (there is no [NaN] in the model). *)
Definition falsyNum (n : number) : bool := Qeq_bool n 0.
Definition truthyNum (n : number) : bool := negb (falsyNum n).

(** [!s] for a string: only the empty string is falsy. *)
Definition truthyStr (s : string) : bool :=
  match s with EmptyString => false | String _ _ => true end.

(** Truthiness of an optional value: [undefined] is falsy. *)
Definition truthyOptNum (o : option number) : bool :=
  match o with Some n => truthyNum n | None => false end.
Definition truthyOptStr (o : option string) : bool :=
  match o with Some s => truthyStr s | None => false end.

(** [a || b] where [a] is an optional number. *)
Definition orNum (a : option number) (b : number) : number :=
  match a with
  | Some n => if truthyNum n then n else b
  | None => b
  end.

(** [a || b] where [a] is an optional string. *)
Definition orStr (a : option string) (b : string) : string :=
  match a with
  | Some s => if truthyStr s then s else b
  | None => b
  end.

(** [x > y] on numbers. *)
Definition gtb (x y : number) : bool := negb (Qle_bool x y).

(** The character class [\d] (without the unicode flag): '0' .. '9'. *)
Definition isDigit (c : ascii) : bool :=
  (48 <=? nat_of_ascii c)%nat && (nat_of_ascii c <=? 57)%nat.

Definition digitValue (c : ascii) : Z := Z.of_nat (nat_of_ascii c - 48).

(** White space as [String.prototype.trim] and [parseInt] see it: the
    single bytes TAB, LF, VT, FF, CR and SPACE, *)
Definition isSpace (c : ascii) : bool :=
  let n := nat_of_ascii c in
  ((9 <=? n)%nat && (n <=? 13)%nat) || (n =? 32)%nat.

(** the two bytes of U+00A0 (C2 A0), *)
Definition isSpace2 (a b : ascii) : bool :=
  (nat_of_ascii a =? 194)%nat && (nat_of_ascii b =? 160)%nat.

(** and the three bytes of U+1680 (E1 9A 80), U+2000 .. U+200A
    (E2 80 80 .. E2 80 8A), U+2028, U+2029, U+202F (E2 80 A8, A9, AF),
    U+205F (E2 81 9F), U+3000 (E3 80 80) and U+FEFF (EF BB BF). *)
Definition isSpace3 (a b c : ascii) : bool :=
  let a := nat_of_ascii a in
  let b := nat_of_ascii b in
  let c := nat_of_ascii c in
  ((a =? 225) && (b =? 154) && (c =? 128))%nat ||
  ((a =? 226) && (b =? 128) &&
   (((128 <=? c) && (c <=? 138)) || (c =? 168) || (c =? 169) || (c =? 175)))%nat ||
  ((a =? 226) && (b =? 129) && (c =? 159))%nat ||
  ((a =? 227) && (b =? 128) && (c =? 128))%nat ||
  ((a =? 239) && (b =? 187) && (c =? 191))%nat.

(** [String.prototype.toLowerCase] on the ASCII letters. *)
Definition lowerChar (c : ascii) : ascii :=
  let n := nat_of_ascii c in
  if (65 <=? n)%nat && (n <=? 90)%nat then ascii_of_nat (n + 32) else c.

Fixpoint toLowerCase (s : string) : string :=
  match s with
  | EmptyString => EmptyString
  | String c r => String (lowerChar c) (toLowerCase r)
  end.

(** [s.startsWith(p)] *)
Fixpoint startsWith (p s : string) : bool :=
  match p, s with
  | EmptyString, _ => true
  | String a p', String b s' => Ascii.eqb a b && startsWith p' s'
  | String _ _, EmptyString => false
  end.

(** [s.includes(w)] *)
Fixpoint includes (w s : string) : bool :=
  startsWith w s ||
  match s with
  | EmptyString => false
  | String _ r => includes w r
  end.

(** [s.replace(/[^cls]/g, rep)] for a one character class: every character
    outside [keep] is replaced by [rep]. *)
Fixpoint replaceOutside (keep : ascii -> bool) (rep : string) (s : string) : string :=
  match s with
  | EmptyString => EmptyString
  | String c r =>
      if keep c then String c (replaceOutside keep rep r)
      else rep ++ replaceOutside keep rep r
  end.

(** [s.replace(/c/g, '')] for a single literal character. *)
Fixpoint removeChar (c : ascii) (s : string) : string :=
  match s with
  | EmptyString => EmptyString
  | String d r => if Ascii.eqb d c then removeChar c r else String d (removeChar c r)
  end.

(** [s.replace(/w/g, '')] for a literal [w], optionally ignoring case (flag
    [i]): the matches are found left to right and do not overlap.  [skip]
    counts the characters of the current match that are still to be
    dropped. *)
Fixpoint removeAllFrom (skip : nat) (ci : bool) (w s : string) : string :=
  match s with
  | EmptyString => EmptyString
  | String c r =>
      match skip with
      | S k => removeAllFrom k ci w r
      | O =>
          let hit := if ci then startsWith (toLowerCase w) (toLowerCase s)
                     else startsWith w s in
          if truthyStr w && hit
          then removeAllFrom (String.length w - 1) ci w r
          else String c (removeAllFrom 0 ci w r)
      end
  end.

Definition removeAll (ci : bool) (w s : string) : string :=
  removeAllFrom 0 ci w s.

(** What follows the white space character at the head of [s], if there is
    one. *)
Definition afterSpace (s : string) : option string :=
  match s with
  | EmptyString => None
  | String a r1 =>
      if isSpace a then Some r1 else
      match r1 with
      | EmptyString => None
      | String b r2 =>
          if isSpace2 a b then Some r2 else
          match r2 with
          | EmptyString => None
          | String c r3 => if isSpace3 a b c then Some r3 else None
          end
      end
  end.

(** [String.prototype.trimStart]: the leading white space characters are
    dropped. *)
Fixpoint trimStart (s : string) : string :=
  match s with
  | EmptyString => EmptyString
  | String a r1 =>
      if isSpace a then trimStart r1 else
      match r1 with
      | EmptyString => s
      | String b r2 =>
          if isSpace2 a b then trimStart r2 else
          match r2 with
          | EmptyString => s
          | String c r3 => if isSpace3 a b c then trimStart r3 else s
          end
      end
  end.

(** [s] consists of white space characters only. *)
Fixpoint allSpace (s : string) : bool :=
  match s with
  | EmptyString => true
  | String a r1 =>
      if isSpace a then allSpace r1 else
      match r1 with
      | EmptyString => false
      | String b r2 =>
          if isSpace2 a b then allSpace r2 else
          match r2 with
          | EmptyString => false
          | String c r3 => if isSpace3 a b c then allSpace r3 else false
          end
      end
  end.

(** [String.prototype.trimEnd]: the text is cut where what remains is white
    space only. *)
Fixpoint trimEnd (s : string) : string :=
  match s with
  | EmptyString => EmptyString
  | String c r => if allSpace s then EmptyString else String c (trimEnd r)
  end.

(** [String.prototype.trim] *)
Definition trim (s : string) : string := trimEnd (trimStart s).

(** The longest prefix of decimal digits and what follows it. *)
Fixpoint digitPrefix (s : string) : string :=
  match s with
  | EmptyString => EmptyString
  | String c r => if isDigit c then String c (digitPrefix r) else EmptyString
  end.

(** Mathematical value of a digit string, most significant digit first,
    accumulated from the left. *)
Fixpoint digitsAcc (acc : Z) (s : string) : Z :=
  match s with
  | EmptyString => acc
  | String c r => digitsAcc (10 * acc + digitValue c) r
  end.

(** [parseInt(s, 10)]: leading white space is skipped, an optional sign is
    read, then the longest prefix of digits is taken; without any digit the
    result is [NaN], here [None]; otherwise it is the double nearest to the
    integer the digits denote.  With no radix argument [parseInt] behaves
    the same on every string that does not start with [0x], in particular on
    strings of digits. *)
Definition parseInt (s : string) : option number :=
  let t := trimStart s in
  let '(neg, body) :=
    match t with
    | String "-" r => (true, r)
    | String "+" r => (false, r)
    | _ => (false, t)
    end in
  match digitPrefix body with
  | EmptyString => None
  | ds => Some (double (inject_Z (if neg then - digitsAcc 0 ds else digitsAcc 0 ds)))
  end.

(** [Math.round]: the nearest integer, halves towards plus infinity. *)
Definition mathRound (x : number) : number :=
  inject_Z (Qfloor (x + (1 # 2))).

End JS.

(* ================================================================== *)
(** * src/types/extraction.types.ts *)
(* ================================================================== *)

Module ExtractionTypes.

Import JS.
Local Open Scope string_scope.
Local Open Scope Q_scope.

Record VendorInfo := {
  vendor_name : string;
  address : option string;
  phone : option string;
  businessNumber : option string
}.

(** [parseCordPrice] *)
Definition parseCordPrice (priceStr : option string) : option number :=
  match priceStr with
  | None => None
  | Some priceStr =>
      if negb (truthyStr priceStr) then None
      else
        let cleaned := replaceOutside isDigit EmptyString priceStr in
        if truthyStr cleaned then parseInt cleaned else None
  end.

#[warnings="-register-all"] Inductive LineItem := mkLineItem {
  name : string;
  quantity : number;
  unitPrice : option number;
  totalPrice : number;
  subItems : option (list LineItem)
}.

Inductive PaymentMethod := cash | card | mixed | other.

Record ReceiptData := {
  date : option string;
  time : option string;
  subtotal : option number;
  taxAmount : option number;
  serviceCharge : option number;
  discount : option number;
  totalAmount : number;
  paymentMethod : PaymentMethod;
  cashPaid : option number;
  cardPaid : option number;
  changeAmount : option number;
  itemTypeCount : option number;
  totalItemCount : option number
}.

Record ExtractionData := {
  vendor : option VendorInfo;
  receipt : ReceiptData;
  items : list LineItem
}.

Record ExtractionResult := {
  success : bool;
  confidence : number;
  errors : option (list string);
  data : ExtractionData;
  rawOcrText : option string;
  processingTimeMs : option number;
  modelUsed : option string
}.

(** The entries [validateExtractionResult] pushes.  The third one carries
    the two numbers its message interpolates. *)
Inductive ValidationError :=
| TotalAmountRequired
| LineItemRequired
| ItemsSumMismatch (itemsSum expectedSubtotal : number).

(** The text of an entry, given the rendering of a number in a template
    literal. *)
Definition errorMessage (show : number -> string) (e : ValidationError) : string :=
  match e with
  | TotalAmountRequired => "Total amount is required"
  | LineItemRequired => "At least one line item is required"
  | ItemsSumMismatch s e =>
      "Items sum (" ++ show s ++ ") doesn't match subtotal (" ++ show e ++ ")"
  end.

(** [validateExtractionResult] *)
Definition validateExtractionResult (result : ExtractionResult) : list ValidationError :=
  let errors := [] in
  let errors :=
    if negb (truthyNum (totalAmount (receipt (data result))))
    then (errors ++ [TotalAmountRequired])%list else errors in
  let errors :=
    if (List.length (items (data result)) =? 0)%nat
    then (errors ++ [LineItemRequired])%list else errors in
  let itemsSum :=
    fold_left (fun sum item => addNum sum (totalPrice item)) (items (data result)) 0 in
  let expectedSubtotal :=
    orNum (subtotal (receipt (data result))) (totalAmount (receipt (data result))) in
  let tolerance := mulNum expectedSubtotal (double 0.05) in
  let errors :=
    if gtb (Qabs (subNum itemsSum expectedSubtotal)) tolerance
    then (errors ++ [ItemsSumMismatch itemsSum expectedSubtotal])%list else errors in
  errors.

(** Raw CORD [gt_parse] structure. *)
#[warnings="-register-all"] Inductive CordMenuItem := mkCordMenuItem {
  nm : option string;
  num : option string;
  unitprice : option string;
  cnt : option string;
  discountprice : option string;
  price : option string;
  itemsubtotal : option string;
  sub : option (list CordMenuItem)
}.

Record CordSubTotal := {
  subtotal_price : option string;
  discount_price : option string;
  service_price : option string;
  othersvc_price : option string;
  tax_price : option string
}.

Record CordTotal := {
  total_price : option string;
  creditcardprice : option string;
  emoneyprice : option string;
  cashprice : option string;
  changeprice : option string;
  menutype_cnt : option string;
  menuqty_cnt : option string
}.

Record CordStoreInfo := {
  store_name : option string;
  addr : option string;
  tel : option string;
  fax : option string;
  biznum : option string
}.

Record CordGtParse := {
  menu : option (list CordMenuItem);
  sub_total : option CordSubTotal;
  total : option CordTotal;
  store_info : option CordStoreInfo
}.

(** [o?.f] *)
Definition optChain {A B} (o : option A) (f : A -> option B) : option B :=
  match o with Some a => f a | None => None end.

(** [cordToExtractionResult] *)
Definition cordToExtractionResult (gtParse : CordGtParse) : ExtractionResult :=
  let items :=
    map (fun item =>
      {| name := orStr (nm item) "Unknown Item";
         quantity := orNum (parseCordPrice (cnt item)) 1;
         unitPrice := parseCordPrice (unitprice item);
         totalPrice := orNum (parseCordPrice (price item)) 0;
         subItems :=
           option_map (map (fun sub =>
             {| name := orStr (nm sub) "Sub-item";
                quantity := orNum (parseCordPrice (cnt sub)) 1;
                unitPrice := parseCordPrice (unitprice sub);
                totalPrice := orNum (parseCordPrice (price sub)) 0;
                subItems := None |})) (sub item) |})
      (match menu gtParse with Some m => m | None => [] end) in
  let totalAmount := orNum (parseCordPrice (optChain (total gtParse) total_price)) 0 in
  let cashPaid := parseCordPrice (optChain (total gtParse) cashprice) in
  let cardPaid := parseCordPrice (optChain (total gtParse) creditcardprice) in
  let paymentMethod :=
    if truthyOptNum cashPaid && truthyOptNum cardPaid then mixed
    else if truthyOptNum cashPaid then cash
    else if truthyOptNum cardPaid then card
    else other in
  let vendor :=
    match store_info gtParse with
    | Some si =>
        match store_name si with
        | Some n =>
            if truthyStr n
            then Some {| vendor_name := n;
                         address := addr si;
                         phone := tel si;
                         businessNumber := biznum si |}
            else None
        | None => None
        end
    | None => None
    end in
  {| success := true;
     confidence := 1;
     errors := None;
     data :=
       {| vendor := vendor;
          receipt :=
            {| date := None;
               time := None;
               subtotal := parseCordPrice (optChain (sub_total gtParse) subtotal_price);
               taxAmount := parseCordPrice (optChain (sub_total gtParse) tax_price);
               serviceCharge := parseCordPrice (optChain (sub_total gtParse) service_price);
               discount := parseCordPrice (optChain (sub_total gtParse) discount_price);
               totalAmount := totalAmount;
               paymentMethod := paymentMethod;
               cashPaid := cashPaid;
               cardPaid := cardPaid;
               changeAmount := parseCordPrice (optChain (total gtParse) changeprice);
               itemTypeCount := parseCordPrice (optChain (total gtParse) menutype_cnt);
               totalItemCount := parseCordPrice (optChain (total gtParse) menuqty_cnt) |};
          items := items |};
     rawOcrText := None;
     processingTimeMs := None;
     modelUsed := Some "cord-ground-truth" |}.

End ExtractionTypes.

(* ================================================================== *)
(** * Values shared by the two auditor routes *)
(* ================================================================== *)

Module Store.

Import JS.
Local Open Scope string_scope.

(** A cell of a result row as better-sqlite3 hands it over. *)
Inductive Value := VNull | VNum (n : number) | VText (s : string).

(** A result row: an object with one property per selected column, in
    column order. *)
Definition Row := list (string * Value).

(** [r.k]; [None] is [undefined]. *)
Fixpoint field (k : string) (r : Row) : option Value :=
  match r with
  | [] => None
  | (k', v) :: r' => if String.eqb k' k then Some v else field k r'
  end.

(** Truthiness of a property read. *)
Definition truthy (v : option Value) : bool :=
  match v with
  | Some (VNum n) => truthyNum n
  | Some (VText s) => truthyStr s
  | Some VNull | None => false
  end.

(** [v || d] *)
Definition orValue (v : option Value) (d : Value) : Value :=
  match v with
  | Some x => if truthy v then x else d
  | None => d
  end.

(** What a [catch] clause can receive. *)
Inductive Exn :=
| TypeError (what : string)
| SqliteError (what : string)
| SyntaxError (what : string).

(** The statements the routes run against the store, in program order. *)
Inductive DbOp :=
| Query (sql : string) (params : list (option number))
| InsertChatMessage (id sessionId role content : string)
                    (referenced_receipts : option (list (option Value))).

(** Functions of the host platform whose exact output the routes only pass
    along. *)
Class Host := {
  (** [String(n)], the rendering of a number inside a template literal *)
  numberToString : number -> string;
  (** [n.toLocaleString('en-US')] *)
  toLocaleStringEnUS : number -> string;
  (** [n.toLocaleString()] in the server's default locale *)
  toLocaleStringDefault : number -> string;
  (** [Number(s)] for a string; [None] is [NaN] *)
  stringToNumber : string -> option number;
  (** [JSON.stringify(row)] *)
  jsonStringifyRow : Row -> string;
  (** [JSON.stringify(rows, null, 2)] *)
  jsonStringifyRows : list Row -> string;
  (** [String(e)] for a caught exception *)
  exnToString : Exn -> string
}.

(** A computation inside the [try] block of a route handler: the statements
    handed to the store so far, in program order, and either the exception
    thrown or the value produced.  A statement that throws is the last one
    of the list. *)
Definition Run (A : Type) : Type := (list DbOp * (Exn + A))%type.

Definition ret {A} (a : A) : Run A := ([], inr a).
Definition throw {A} (e : Exn) : Run A := ([], inl e).
Definition bind {A B} (m : Run A) (f : A -> Run B) : Run B :=
  match m with
  | (t, inl e) => (t, inl e)
  | (t, inr a) => let '(t', r) := f a in ((t ++ t')%list, r)
  end.
Definition lift {A} (r : Exn + A) : Run A := ([], r).
Definition exec (op : DbOp) : Run unit := ([op], inr tt).

(** [statement.run(...)] of an [INSERT]: the statement is handed to the
    store, which stores the row or throws (a primary key that is taken, a
    missing value).  [outcome] tells the exception thrown, if any. *)
Definition execRun (outcome : DbOp -> option Exn) (op : DbOp) : Run unit :=
  ([op], match outcome op with Some e => inl e | None => inr tt end).

Module RunNotations.
  Notation "x <- m ;; k" := (bind m (fun x => k))
    (at level 61, m at next level, right associativity).
  Notation "m ;;; k" := (bind m (fun _ => k))
    (at level 61, right associativity).
End RunNotations.

(** [uuidv4().slice(0, 8)] *)
Fixpoint slice0 (n : nat) (s : string) : string :=
  match n, s with
  | S k, String c r => String c (slice0 k r)
  | _, _ => EmptyString
  end.

(** The line feed and the double quote, for string templates. *)
Definition nl : string := String (ascii_of_nat 10) EmptyString.
Definition dq : string := String (ascii_of_nat 34) EmptyString.

(** A template literal hole, [${v}]. *)
Definition str `{Host} (v : option Value) : string :=
  match v with
  | None => "undefined"
  | Some VNull => "null"
  | Some (VNum n) => numberToString n
  | Some (VText s) => s
  end.

(** A template literal hole holding a length or a count. *)
Definition strNat `{Host} (n : nat) : string :=
  numberToString (inject_Z (Z.of_nat n)).

End Store.

(* ================================================================== *)
(** * The rule based auditor chat route *)
(* ================================================================== *)

Module AuditorChat.

Import JS Store.
Local Open Scope string_scope.

(** A regular expression of the form [/w1|w2|...|wn/i] with literal words. *)
Definition Pattern := list string.

(** [pattern.test(s)] *)
Definition test (p : Pattern) (s : string) : bool :=
  existsb (fun w => includes (toLowerCase w) (toLowerCase s)) p.

Module QUERY_PATTERNS.
Definition total_spending : Pattern :=
  ["how much"; "total"; "spent"; "spending"; "sum"].
Definition high_value : Pattern :=
  ["above"; "over"; "more than"; "greater"; "expensive"; "highest"].
Definition low_value : Pattern :=
  ["below"; "under"; "less than"; "cheaper"; "lowest"; "cheapest"].
Definition flagged : Pattern :=
  ["flag"; "error"; "mismatch"; "problem"; "issue"; "wrong"].
Definition payment_method : Pattern :=
  ["cash"; "card"; "credit"; "e-money"; "payment"].
Definition count : Pattern := ["how many"; "count"; "number of"].
Definition list : Pattern := ["show"; "list"; "find"; "get"; "display"; "all"].
Definition tax : Pattern := ["tax"; "vat"].
Definition vendor : Pattern := ["vendor"; "merchant"; "store"; "shop"].
Definition category : Pattern := ["category"; "type"; "kind"].
Definition audit : Pattern :=
  ["audit"; "duplicate"; "suspicious"; "alcohol"; "tobacco"].
Definition recent : Pattern := ["recent"; "latest"; "last"].
Definition date : Pattern := ["today"; "yesterday"; "week"; "month"; "date"].
End QUERY_PATTERNS.

(** The longest prefix made of digits and commas. *)
Fixpoint digitsOrCommas (s : string) : string :=
  match s with
  | EmptyString => EmptyString
  | String c r =>
      if isDigit c || Ascii.eqb c ","
      then String c (digitsOrCommas r) else EmptyString
  end.

(** [query.match] with the pattern "one or more digits, then any number of
    digits or commas": the left-most match starts at the first digit and,
    both quantifiers being greedy, extends over every following digit or
    comma. *)
Fixpoint matchNumber (query : string) : option string :=
  match query with
  | EmptyString => None
  | String c r =>
      if isDigit c then Some (String c (digitsOrCommas r)) else matchNumber r
  end.

(** [extractNumber]; [None] is [null].  The matched text starts with a
    digit, so [parseInt] never answers [NaN] here. *)
Definition extractNumber (query : string) : option number :=
  match matchNumber query with
  | Some m => parseInt (removeChar "," m)
  | None => None
  end.

(** The query templates of [parseQuery], line by line. *)

Definition SQL_count_flagged : string :=
  "SELECT COUNT(*) as count FROM receipts WHERE status = 'flagged'".

Definition SQL_count_all : string :=
  "SELECT COUNT(*) as count, SUM(total_amount) as total FROM receipts".

Definition SQL_total_spending : string :=
  String.concat nl
    [ EmptyString;
      "      SELECT ";
      "        COUNT(*) as receipt_count,";
      "        SUM(total_amount) as total_spent,";
      "        SUM(tax_amount) as total_tax,";
      "        AVG(total_amount) as avg_receipt";
      "      FROM receipts";
      "    " ].

Definition SQL_flagged_receipts : string :=
  String.concat nl
    [ EmptyString;
      "      SELECT r.id, r.total_amount, r.status, v.name as vendor";
      "      FROM receipts r";
      "      LEFT JOIN vendors v ON r.vendor_id = v.id";
      "      WHERE r.status = 'flagged'";
      "      ORDER BY r.total_amount DESC";
      "    " ].

Definition SQL_high_value_receipts : string :=
  String.concat nl
    [ EmptyString;
      "      SELECT r.id, r.total_amount, r.payment_method, v.name as vendor";
      "      FROM receipts r";
      "      LEFT JOIN vendors v ON r.vendor_id = v.id";
      "      WHERE r.total_amount > ?";
      "      ORDER BY r.total_amount DESC";
      "      LIMIT 20";
      "    " ].

Definition SQL_low_value_receipts : string :=
  String.concat nl
    [ EmptyString;
      "      SELECT r.id, r.total_amount, r.payment_method, v.name as vendor";
      "      FROM receipts r";
      "      LEFT JOIN vendors v ON r.vendor_id = v.id";
      "      WHERE r.total_amount < ?";
      "      ORDER BY r.total_amount ASC";
      "      LIMIT 20";
      "    " ].

Definition SQL_payment_cash : string :=
  String.concat nl
    [ EmptyString;
      "        SELECT r.id, r.total_amount, r.payment_method, v.name as vendor";
      "        FROM receipts r";
      "        LEFT JOIN vendors v ON r.vendor_id = v.id";
      "        WHERE r.payment_method = 'cash'";
      "        ORDER BY r.total_amount DESC";
      "        LIMIT 20";
      "      " ].

Definition SQL_payment_card : string :=
  String.concat nl
    [ EmptyString;
      "        SELECT r.id, r.total_amount, r.payment_method, v.name as vendor";
      "        FROM receipts r";
      "        LEFT JOIN vendors v ON r.vendor_id = v.id";
      "        WHERE r.payment_method = 'card'";
      "        ORDER BY r.total_amount DESC";
      "        LIMIT 20";
      "      " ].

Definition SQL_payment_grouped : string :=
  String.concat nl
    [ EmptyString;
      "        SELECT payment_method, COUNT(*) as count, SUM(total_amount) as total";
      "        FROM receipts";
      "        GROUP BY payment_method";
      "        ORDER BY count DESC";
      "      " ].

Definition SQL_tax_info : string :=
  String.concat nl
    [ EmptyString;
      "      SELECT r.id, r.total_amount, r.tax_amount, v.name as vendor";
      "      FROM receipts r";
      "      LEFT JOIN vendors v ON r.vendor_id = v.id";
      "      WHERE r.tax_amount > 0";
      "      ORDER BY r.tax_amount DESC";
      "      LIMIT 20";
      "    " ].

Definition SQL_audit_findings : string :=
  String.concat nl
    [ EmptyString;
      "      SELECT r.id, r.total_amount, r.status, r.tax_amount, v.name as vendor";
      "      FROM receipts r";
      "      LEFT JOIN vendors v ON r.vendor_id = v.id";
      "      WHERE r.status = 'flagged' OR r.tax_amount IS NULL OR r.tax_amount = 0";
      "      ORDER BY r.total_amount DESC";
      "      LIMIT 20";
      "    " ].

Definition SQL_list_receipts : string :=
  String.concat nl
    [ EmptyString;
      "      SELECT r.id, r.total_amount, r.payment_method, r.status, v.name as vendor";
      "      FROM receipts r";
      "      LEFT JOIN vendors v ON r.vendor_id = v.id";
      "      ORDER BY r.total_amount DESC";
      "      LIMIT 15";
      "    " ].

Record ParsedQuery := {
  sql : string;
  params : list (option number);
  intent : string
}.

(** [parseQuery] *)
Definition parseQuery (query : string) : ParsedQuery :=
  let lowerQuery := toLowerCase query in
  let isTotalQuery := test QUERY_PATTERNS.total_spending lowerQuery in
  let isHighValue := test QUERY_PATTERNS.high_value lowerQuery in
  let isLowValue := test QUERY_PATTERNS.low_value lowerQuery in
  let isFlagged := test QUERY_PATTERNS.flagged lowerQuery in
  let isPaymentQuery := test QUERY_PATTERNS.payment_method lowerQuery in
  let isCountQuery := test QUERY_PATTERNS.count lowerQuery in
  let isTaxQuery := test QUERY_PATTERNS.tax lowerQuery in
  let isAuditQuery := test QUERY_PATTERNS.audit lowerQuery in
  let threshold := extractNumber query in
  if isCountQuery && isFlagged then
    {| intent := "count_flagged"; sql := SQL_count_flagged; params := [] |}
  else if isCountQuery then
    {| intent := "count_all"; sql := SQL_count_all; params := [] |}
  else if isTotalQuery && negb isHighValue && negb isLowValue then
    {| intent := "total_spending"; sql := SQL_total_spending; params := [] |}
  else if isFlagged then
    {| intent := "flagged_receipts"; sql := SQL_flagged_receipts; params := [] |}
  else if isHighValue && truthyOptNum threshold then
    {| intent := "high_value_receipts"; sql := SQL_high_value_receipts;
       params := [threshold] |}
  else if isLowValue && truthyOptNum threshold then
    {| intent := "low_value_receipts"; sql := SQL_low_value_receipts;
       params := [threshold] |}
  else if isPaymentQuery then
    {| intent := "payment_breakdown";
       sql := if includes "cash" lowerQuery then SQL_payment_cash
              else if includes "card" lowerQuery then SQL_payment_card
              else SQL_payment_grouped;
       params := [] |}
  else if isTaxQuery then
    {| intent := "tax_info"; sql := SQL_tax_info; params := [] |}
  else if isAuditQuery then
    {| intent := "audit_findings"; sql := SQL_audit_findings; params := [] |}
  else
    {| intent := "list_receipts"; sql := SQL_list_receipts; params := [] |}.

Section Formatter.

Context {host : Host}.

(** [formatAmount]: [n?.toLocaleString('en-US') ?? '0']. *)
Definition formatAmount (n : option Value) : string :=
  match n with
  | None | Some VNull => "0"
  | Some (VNum n) => toLocaleStringEnUS n
  | Some (VText s) => s
  end.

(** [formatAmount(threshold!)] on the result of [extractNumber]. *)
Definition formatThreshold (t : option number) : string :=
  formatAmount (match t with Some n => Some (VNum n) | None => Some VNull end).

(** [formatAmount(Math.round(v))]; [Math.round] first converts its argument
    to a number, and [NaN] prints as itself. *)
Definition formatRounded (v : option Value) : string :=
  let n :=
    match v with
    | None => None
    | Some VNull => Some 0%Q
    | Some (VNum n) => Some n
    | Some (VText s) => stringToNumber s
    end in
  match n with
  | Some n => toLocaleStringEnUS (mathRound n)
  | None => "NaN"
  end.

(** The binary [+] on a running sum and a truthy operand or [0]. *)
Definition add (a b : Value) : Value :=
  match a, b with
  | VNum x, VNum y => VNum (addNum x y)
  | _, _ => VText (str (Some a) ++ str (Some b))
  end.

(** [results.reduce((sum, r) => sum + (r.k || 0), 0)] *)
Definition sumOf (k : string) (results : list Row) : Value :=
  fold_left (fun sum r => add sum (orValue (field k r) (VNum 0))) results (VNum 0).

(** [rows.forEach(r => { response += line(r) })] *)
Definition forEach (rows : list Row) (line : Row -> string) (response : string) : string :=
  fold_left (fun acc r => acc ++ line r) rows response.

(** [r.status === 'flagged'] *)
Definition isFlaggedRow (r : Row) : bool :=
  match field "status" r with
  | Some (VText s) => String.eqb s "flagged"
  | _ => false
  end.

(** [String.prototype.toUpperCase] on the ASCII letters. *)
Definition upperChar (c : ascii) : ascii :=
  let n := nat_of_ascii c in
  if (97 <=? n)%nat && (n <=? 122)%nat then ascii_of_nat (n - 32) else c.

Fixpoint toUpperCase (s : string) : string :=
  match s with
  | EmptyString => EmptyString
  | String c r => String (upperChar c) (toUpperCase r)
  end.

(** [generateResponse]; the only operation in it that can throw is
    [.toUpperCase()] applied to a payment method that is a number. *)
Definition generateResponse (intent : string) (results : list Row) (query : string)
  : Exn + string :=
  match results with
  | [] => inr "I couldn't find any receipts matching your query."
  | first :: _ =>
      let count := List.length results in
      if String.eqb intent "total_spending" then
        let r := first in
        inr ("📊 **Spending Summary**" ++ nl ++ nl ++
             "- Total receipts: **" ++ str (field "receipt_count" r) ++ "**" ++ nl ++
             "- Total spent: **" ++ formatAmount (field "total_spent" r) ++ "** IDR" ++ nl ++
             "- Total tax: **" ++ formatAmount (field "total_tax" r) ++ "** IDR" ++ nl ++
             "- Average receipt: **" ++ formatRounded (field "avg_receipt" r) ++ "** IDR")
      else if String.eqb intent "count_all" then
        let r := first in
        inr ("You have **" ++ str (field "count" r) ++ "** receipts totaling **" ++
             formatAmount (field "total" r) ++ "** IDR.")
      else if String.eqb intent "count_flagged" then
        inr ("There are **" ++ str (field "count" first) ++
             "** flagged receipts that need review.")
      else if String.eqb intent "flagged_receipts" then
        let response := "🚨 **Flagged Receipts** (" ++ strNat count ++ " found)" ++ nl ++ nl in
        let response := response ++
          "These receipts have mismatches between line items and totals:" ++ nl ++ nl in
        inr (forEach results (fun r =>
               "- **" ++ str (field "id" r) ++ "**: " ++
               formatAmount (field "total_amount" r) ++ " IDR" ++ nl) response)
      else if String.eqb intent "high_value_receipts" then
        let threshold := extractNumber query in
        let response := "💰 **High Value Receipts** (above " ++
                        formatThreshold threshold ++ " IDR)" ++ nl ++ nl in
        let response := response ++ "Found " ++ strNat count ++ " receipts:" ++ nl ++ nl in
        let response := forEach (firstn 10 results) (fun r =>
               "- **" ++ str (field "id" r) ++ "**: " ++
               formatAmount (field "total_amount" r) ++ " IDR (" ++
               str (Some (orValue (field "payment_method" r) (VText "unknown"))) ++
               ")" ++ nl) response in
        let response :=
          if (10 <? count)%nat
          then response ++ nl ++ "... and " ++ strNat (count - 10) ++ " more"
          else response in
        inr response
      else if String.eqb intent "low_value_receipts" then
        let threshold := extractNumber query in
        let response := "📉 **Low Value Receipts** (below " ++
                        formatThreshold threshold ++ " IDR)" ++ nl ++ nl in
        let response := response ++ "Found " ++ strNat count ++ " receipts:" ++ nl ++ nl in
        inr (forEach (firstn 10 results) (fun r =>
               "- **" ++ str (field "id" r) ++ "**: " ++
               formatAmount (field "total_amount" r) ++ " IDR (" ++
               str (Some (orValue (field "payment_method" r) (VText "unknown"))) ++
               ")" ++ nl) response)
      else if String.eqb intent "payment_breakdown" then
        if truthy (field "id" first) then
          let method := field "payment_method" first in
          match orValue method (VText "Unknown") with
          | VText m =>
              let response := "💳 **" ++ toUpperCase m ++ " Payments** (" ++
                              strNat count ++ " found)" ++ nl ++ nl in
              let total := sumOf "total_amount" results in
              let response := response ++ "Total: **" ++ formatAmount (Some total) ++
                              "** IDR" ++ nl ++ nl in
              inr (forEach (firstn 10 results) (fun r =>
                     "- **" ++ str (field "id" r) ++ "**: " ++
                     formatAmount (field "total_amount" r) ++ " IDR" ++ nl) response)
          | _ => inl (TypeError "toUpperCase is not a function")
          end
        else
          let response := "💳 **Payment Method Breakdown**" ++ nl ++ nl in
          inr (forEach results (fun r =>
                 "- **" ++ str (Some (orValue (field "payment_method" r) (VText "Unknown"))) ++
                 "**: " ++ str (field "count" r) ++ " receipts (" ++
                 formatAmount (field "total" r) ++ " IDR)" ++ nl) response)
      else if String.eqb intent "tax_info" then
        let response := "🧾 **Receipts with Tax/VAT** (" ++ strNat count ++ " found)" ++ nl ++ nl in
        let totalTax := sumOf "tax_amount" results in
        let response := response ++ "Total tax collected: **" ++
                        formatAmount (Some totalTax) ++ "** IDR" ++ nl ++ nl in
        inr (forEach (firstn 10 results) (fun r =>
               "- **" ++ str (field "id" r) ++ "**: Tax " ++
               formatAmount (field "tax_amount" r) ++ " IDR (Receipt: " ++
               formatAmount (field "total_amount" r) ++ " IDR)" ++ nl) response)
      else if String.eqb intent "audit_findings" then
        let response := "🔍 **Audit Findings** (" ++ strNat count ++ " items)" ++ nl ++ nl in
        let flagged := filter isFlaggedRow results in
        let noTax := filter (fun r => negb (truthy (field "tax_amount" r))) results in
        let response :=
          if (0 <? List.length flagged)%nat then
            forEach (firstn 5 flagged) (fun r =>
              "  - " ++ str (field "id" r) ++ ": " ++
              formatAmount (field "total_amount" r) ++ " IDR" ++ nl)
              (response ++ "**⚠️ Flagged (mismatch):** " ++
               strNat (List.length flagged) ++ nl)
          else response in
        let response :=
          if (0 <? List.length noTax)%nat then
            forEach (firstn 5 noTax) (fun r =>
              "  - " ++ str (field "id" r) ++ ": " ++
              formatAmount (field "total_amount" r) ++ " IDR" ++ nl)
              (response ++ nl ++ "**📋 Missing VAT:** " ++
               strNat (List.length noTax) ++ nl)
          else response in
        inr response
      else
        let response := "📋 **Receipts** (showing " ++ strNat (Nat.min count 15) ++ ")" ++ nl ++ nl in
        inr (forEach (firstn 15 results) (fun r =>
               let status := if isFlaggedRow r then "🚨" else "✅" in
               "- " ++ status ++ " **" ++ str (field "id" r) ++ "**: " ++
               formatAmount (field "total_amount" r) ++ " IDR (" ++
               str (Some (orValue (field "payment_method" r) (VText "unknown"))) ++
               ")" ++ nl) response)
  end.

End Formatter.

(** What the handler reads from its surroundings. *)
Record Env := {
  (** the successive results of [uuidv4()] during the request *)
  uuidv4 : nat -> string;
  (** [db.prepare(sql).all(...params)] on the current store *)
  all : string -> list (option number) -> Exn + list Row;
  (** [statements.insertChatMessage.run(...)] on the current store: the
      exception it throws, if any *)
  run : DbOp -> option Exn
}.

(** The parsed request body; [None] is an absent property. *)
Record ChatRequest := {
  message : option string;
  sessionId : option string
}.

Record Reply := {
  reply_sessionId : string;
  reply_message : string;
  reply_intent : string;
  referencedReceipts : list (option Value);
  resultCount : nat
}.

Inductive Body :=
| Failure (error : string) (details : option string)
| Answer (r : Reply).

(** [NextResponse.json(body, { status })]; the status defaults to 200. *)
Record Response := { status : nat; body : Body }.

Section Handler.

Context {host : Host}.
Import RunNotations.

(** [results.filter(r => r.id).map(r => r.id).slice(0, 20)] *)
Definition extractReferenced (results : list Row) : list (option Value) :=
  firstn 20 (map (field "id") (filter (fun r => truthy (field "id" r)) results)).

(** The body of the [try] block of [POST]. *)
Definition handle (env : Env) (request_json : Exn + ChatRequest) : Run Response :=
  body <- lift request_json ;;
  let '(sessionId, drawn) :=
    match sessionId body with
    | Some s => (s, 0%nat)
    | None => (uuidv4 env 0, 1%nat)
    end in
  if negb (truthyOptStr (message body)) then
    ret {| status := 400; body := Failure "Message is required" None |}
  else
    let message := orStr (message body) EmptyString in
    let q := parseQuery message in
    exec (Query (sql q) (params q)) ;;;
    results <- lift (all env (sql q) (params q)) ;;
    response <- lift (generateResponse (intent q) results message) ;;
    let referencedReceipts := extractReferenced results in
    let userMsgId := "msg_" ++ slice0 8 (uuidv4 env drawn) in
    let assistantMsgId := "msg_" ++ slice0 8 (uuidv4 env (S drawn)) in
    execRun (run env) (InsertChatMessage userMsgId sessionId "user" message None) ;;;
    execRun (run env) (InsertChatMessage assistantMsgId sessionId "assistant" response
                         (Some referencedReceipts)) ;;;
    ret {| status := 200;
           body := Answer {| reply_sessionId := sessionId;
                             reply_message := response;
                             reply_intent := intent q;
                             referencedReceipts := referencedReceipts;
                             resultCount := List.length results |} |}.

(** [POST]: the statements run against the store and the response sent. *)
Definition POST (env : Env) (request_json : Exn + ChatRequest) : list DbOp * Response :=
  match handle env request_json with
  | (ops, inr response) => (ops, response)
  | (ops, inl error) =>
      (ops, {| status := 500;
               body := Failure "Failed to process chat" (Some (exnToString error)) |})
  end.

End Handler.

End AuditorChat.

(* ================================================================== *)
(** * api/auditor/sql/route.ts: the model assisted route *)
(* ================================================================== *)

Module AuditorSql.

Import JS Store.
Local Open Scope string_scope.

(** The JSON body posted to [/api/generate]. *)
Record GenerateRequest := {
  model : string;
  prompt : string;
  stream : bool;
  temperature : number;
  num_predict : nat
}.

(** What [await fetch(...)] followed by [await response.json()] can do:
    either call throws, or the model server answers with a status that is
    [ok] or not and a body whose [response] property is a string or
    missing. *)
Inductive FetchOutcome :=
| Rejected (e : Exn)
| Responded (ok : bool) (json : Exn + option string).

Record Env := {
  (** [process.env.OLLAMA_URL] and [process.env.OLLAMA_MODEL] *)
  env_OLLAMA_URL : option string;
  env_OLLAMA_MODEL : option string;
  (** the model server, by request URL and body *)
  fetch : string -> GenerateRequest -> FetchOutcome;
  (** the successive results of [uuidv4()] during the request *)
  uuidv4 : nat -> string;
  (** [db.prepare(sql).all()] on the current store *)
  all : string -> Exn + list Row;
  (** [statements.insertChatMessage.run(...)] on the current store: the
      exception it throws, if any *)
  run : DbOp -> option Exn
}.

Definition OLLAMA_URL (env : Env) : string :=
  orStr (env_OLLAMA_URL env) "http://localhost:11434".
Definition OLLAMA_MODEL (env : Env) : string :=
  orStr (env_OLLAMA_MODEL env) "qwen2.5:3b".

Definition DB_SCHEMA : string :=
  String.concat nl
    [ EmptyString;
      "Tables:";
      "1. receipts (id TEXT, vendor_id TEXT, total_amount REAL, tax_amount REAL, subtotal REAL, ";
      "   payment_method TEXT ['cash','card','e-money','unknown'], status TEXT ['verified','flagged','pending'],";
      "   receipt_date DATETIME, discount REAL, service_charge REAL)";
      "   ";
      "2. line_items (id TEXT, receipt_id TEXT, name TEXT, quantity INTEGER, unit_price REAL, total_price REAL, category TEXT)";
      EmptyString;
      "3. vendors (id TEXT, name TEXT, address TEXT, phone TEXT, category TEXT)";
      EmptyString;
      "4. chat_history (id TEXT, session_id TEXT, role TEXT, content TEXT, referenced_receipts TEXT)";
      EmptyString;
      "Notes:";
      "- Amounts are in IDR (Indonesian Rupiah)";
      "- 'flagged' status means receipt has errors/mismatches";
      "- Use LEFT JOIN for vendors: LEFT JOIN vendors v ON r.vendor_id = v.id";
      EmptyString ].

(** The prompt of [generateSQL]. *)
Definition sqlPrompt (question : string) : string :=
  String.concat nl
    [ "You are a SQL expert. Given this database schema and a user question, generate ONLY a valid SQLite query. Return ONLY the SQL, no explanation.";
      EmptyString;
      DB_SCHEMA;
      EmptyString;
      "User question: " ++ dq ++ question ++ dq;
      EmptyString;
      "Rules:";
      "- Use proper SQLite syntax";
      "- Always alias tables (r for receipts, v for vendors, li for line_items)";
      "- For aggregations use SUM, COUNT, AVG";
      "- Limit results to 20 unless user asks for all";
      "- Return ONLY the SQL query, nothing else";
      EmptyString;
      "SQL:" ].


Section Route.

Context {host : Host}.
Import RunNotations.

(** The prompt of [formatAnswer]. *)
Definition answerPrompt (question sql resultsJson : string) (results : list Row) : string :=
  String.concat nl
    [ "You are a helpful bookkeeping assistant. Format this SQL query result as a clear, concise answer.";
      EmptyString;
      "User question: " ++ dq ++ question ++ dq;
      "SQL executed: " ++ sql;
      "Results (JSON): " ++ resultsJson;
      "Total rows: " ++ strNat (List.length results);
      EmptyString;
      "Rules:";
      "- Be concise and professional";
      "- Format numbers with commas (e.g., 1,234,567)";
      "- Use IDR for currency";
      "- Reference specific receipt IDs when relevant";
      "- Use markdown for formatting (bold, lists)";
      "- If no results, say so clearly";
      EmptyString;
      "Answer:" ].

(** [generateSQL]; [None] is [null]. *)
Definition generateSQL (env : Env) (question : string) : option string :=
  let prompt := sqlPrompt question in
  match fetch env (OLLAMA_URL env ++ "/api/generate")
          {| model := OLLAMA_MODEL env; prompt := prompt; stream := false;
             temperature := 1 # 10; num_predict := 200 |} with
  | Rejected _ => None
  | Responded ok json =>
      if negb ok then None
      else
        match json with
        | inl _ => None
        | inr data_response =>
            let sql := orStr (option_map trim data_response) EmptyString in
            let sql := trim (removeAll false "```" (removeAll true "```sql" sql)) in
            if negb (startsWith "select" (toLowerCase sql)) then None
            else Some sql
        end
  end.

(** [Object.keys(first).includes(k)] *)
Definition hasKey (k : string) (r : Row) : bool :=
  existsb (fun kv => String.eqb (fst kv) k) r.

(** [formatFallback] *)
Definition formatFallback (results : list Row) : string :=
  match results with
  | [] => "No results found."
  | first :: _ =>
      let count := List.length results in
      if (count =? 1)%nat &&
         (hasKey "count" first || hasKey "total" first || hasKey "sum" first)
      then
        fold_left (fun response kv =>
          let formatted :=
            match snd kv with
            | VNum n => toLocaleStringDefault n
            | v => str (Some v)
            end in
          response ++ "- **" ++ fst kv ++ "**: " ++ formatted ++ nl)
          first ("📊 **Results:**" ++ nl ++ nl)
      else
        let response := "📋 **Found " ++ strNat count ++ " results:**" ++ nl ++ nl in
        let response :=
          fold_left (fun response r =>
            if truthy (field "id" r) then
              let amount :=
                if truthy (field "total_amount" r) then
                  " - " ++
                  match field "total_amount" r with
                  | Some (VNum n) => toLocaleStringDefault n
                  | v => str v
                  end ++ " IDR"
                else EmptyString in
              response ++ "- **" ++ str (field "id" r) ++ "**" ++ amount ++ nl
            else
              response ++ "- " ++ jsonStringifyRow r ++ nl)
            (firstn 10 results) response in
        if (10 <? count)%nat
        then response ++ nl ++ "... and " ++ strNat (count - 10) ++ " more"
        else response
  end.

(** [formatAnswer] *)
Definition formatAnswer (env : Env) (question sql : string) (results : list Row) : string :=
  let resultsJson := jsonStringifyRows (firstn 10 results) in
  let prompt := answerPrompt question sql resultsJson results in
  match fetch env (OLLAMA_URL env ++ "/api/generate")
          {| model := OLLAMA_MODEL env; prompt := prompt; stream := false;
             temperature := 3 # 10; num_predict := 300 |} with
  | Rejected _ => formatFallback results
  | Responded ok json =>
      if negb ok then formatFallback results
      else
        match json with
        | inl _ => formatFallback results
        | inr data_response =>
            orStr (option_map trim data_response) "Unable to format response."
        end
  end.

(** The parsed request body; [None] is an absent property. *)
Record ChatRequest := {
  message : option string;
  sessionId : option string
}.

Inductive Body :=
| Failure (error : string) (details : option string)
| Refusal (sessionId message : string) (sql : option string) (error : string)
| Answer (sessionId message sql : string)
         (referencedReceipts : list (option Value)) (resultCount : nat).

(** [NextResponse.json(body, { status })]; the status defaults to 200. *)
Record Response := { status : nat; body : Body }.

(** [results.filter(r => r.id && r.id.startsWith('cord_'))]: calling
    [startsWith] on a truthy identifier that is a number throws. *)
Fixpoint filterCord (results : list Row) : Exn + list Row :=
  match results with
  | [] => inr []
  | r :: rest =>
      let keep :=
        match field "id" r with
        | Some (VText s) => inr (truthyStr s && startsWith "cord_" s)
        | Some (VNum n) =>
            if truthyNum n then inl (TypeError "r.id.startsWith is not a function")
            else inr false
        | Some VNull | None => inr false
        end in
      match keep with
      | inl e => inl e
      | inr b =>
          match filterCord rest with
          | inl e => inl e
          | inr rest' => inr (if b then r :: rest' else rest')
          end
      end
  end.

(** [... .map(r => r.id).slice(0, 20)] *)
Definition extractReferenced (results : list Row) : Exn + list (option Value) :=
  match filterCord results with
  | inl e => inl e
  | inr kept => inr (firstn 20 (map (field "id") kept))
  end.

(** The body of the outer [try] block of [POST]. *)
Definition handle (env : Env) (request_json : Exn + ChatRequest) : Run Response :=
  body <- lift request_json ;;
  let '(sessionId, drawn) :=
    match sessionId body with
    | Some s => (s, 0%nat)
    | None => (uuidv4 env 0, 1%nat)
    end in
  if negb (truthyOptStr (message body)) then
    ret {| status := 400; body := Failure "Message is required" None |}
  else
    let message := orStr (message body) EmptyString in
    match generateSQL env message with
    | None =>
        ret {| status := 200;
               body := Refusal sessionId
                 "I couldn't understand that question. Try asking about spending totals, flagged receipts, or payment methods."
                 None
                 "Could not generate SQL - is Ollama running?" |}
    | Some sql =>
        exec (Query sql []) ;;;
        match all env sql with
        | inl sqlError =>
            ret {| status := 400;
                   body := Refusal sessionId ("SQL error: " ++ exnToString sqlError)
                             (Some sql) "SQL execution failed" |}
        | inr results =>
            let answer := formatAnswer env message sql results in
            referencedReceipts <- lift (extractReferenced results) ;;
            execRun (run env)
              (InsertChatMessage ("msg_" ++ slice0 8 (uuidv4 env drawn))
                 sessionId "user" message None) ;;;
            execRun (run env)
              (InsertChatMessage ("msg_" ++ slice0 8 (uuidv4 env (S drawn)))
                 sessionId "assistant" answer (Some referencedReceipts)) ;;;
            ret {| status := 200;
                   body := Answer sessionId answer sql referencedReceipts
                             (List.length results) |}
        end
    end.

(** [POST]: the statements run against the store and the response sent. *)
Definition POST (env : Env) (request_json : Exn + ChatRequest) : list DbOp * Response :=
  match handle env request_json with
  | (ops, inr response) => (ops, response)
  | (ops, inl error) =>
      (ops, {| status := 500;
               body := Failure "Failed to process" (Some (exnToString error)) |})
  end.

End Route.

End AuditorSql.

(* ================================================================== *)
(** * lib/extraction: receipt extraction with a vision model *)
(* ================================================================== *)

Module ReceiptExtraction.

Import JS ExtractionTypes.
Local Open Scope string_scope.
Local Open Scope Q_scope.

(** [Math.min] *)
Definition mathMin (a b : number) : number := if Qle_bool a b then a else b.

(** The [options] argument of the two extraction functions. *)
Record Options := {
  model : option string;
  includeRawText : option bool
}.

(** What the extraction reads from its surroundings.  A step that can throw
    answers [inl message], the message of what it throws. *)
Record Env := {
  (** [process.env.OLLAMA_URL || 'http://localhost:11434'] *)
  OLLAMA_BASE_URL : string;
  (** the successive results of [Date.now()] *)
  now : nat -> number;
  (** [healthCheck?.ok] for the request to [/api/tags], a failed request
      counting as [null] *)
  healthCheckOk : bool;
  (** [imageToBase64]: reading the file *)
  readImage : string -> string + string;
  (** [callOllamaVision], by image and model name *)
  callOllamaVision : string -> string -> string + string;
  (** [JSON.parse] of the matched text followed by the field by field
      normalisation of [parseExtractionResponse] *)
  interpret : string -> string + ExtractionData
}.

(** The longest prefix that ends with a closing brace. *)
Fixpoint uptoLastBrace (s : string) : option string :=
  match s with
  | EmptyString => None
  | String c r =>
      match uptoLastBrace r with
      | Some m => Some (String c m)
      | None => if Ascii.eqb c "}" then Some (String c EmptyString) else None
      end
  end.

(** [response.match] with the pattern "an opening brace, any characters, a
    closing brace": the left-most opening brace from which a closing brace
    can be reached, up to the last closing brace (the quantifier is
    greedy). *)
Fixpoint matchJson (response : string) : option string :=
  match response with
  | EmptyString => None
  | String c r =>
      if Ascii.eqb c "{" then
        match uptoLastBrace r with
        | Some m => Some (String c m)
        | None => matchJson r
        end
      else matchJson r
  end.

(** [parseExtractionResponse] *)
Definition parseExtractionResponse (env : Env) (response : string)
  : string + ExtractionData :=
  match matchJson response with
  | None => inl "No JSON found in response"
  | Some json => interpret env json
  end.

(** The result returned from the [catch] clause. *)
Definition failure (message : string) (processingTimeMs : number) (model : string)
  : ExtractionResult :=
  {| success := false;
     confidence := 0;
     errors := Some [message];
     data := {| vendor := None;
                receipt := {| date := None; time := None; subtotal := None;
                              taxAmount := None; serviceCharge := None;
                              discount := None; totalAmount := 0;
                              paymentMethod := other; cashPaid := None;
                              cardPaid := None; changeAmount := None;
                              itemTypeCount := None; totalItemCount := None |};
                items := [] |};
     rawOcrText := None;
     processingTimeMs := Some processingTimeMs;
     modelUsed := Some model |}.

(** [data.vendor?.name] as a condition. *)
Definition vendorNamed (d : ExtractionData) : bool :=
  match vendor d with
  | Some v => truthyStr (vendor_name v)
  | None => false
  end.

(** The result returned at the end of the [try] block. *)
Definition extracted (d : ExtractionData) (rawResponse : string) (options : Options)
    (processingTimeMs : number) (model : string) : ExtractionResult :=
  let confidence := 0.5 in
  let confidence := if vendorNamed d then confidence + 0.1 else confidence in
  let confidence :=
    if (0 <? List.length (items d))%nat then confidence + 0.2 else confidence in
  let confidence :=
    if gtb (totalAmount (receipt d)) 0 then confidence + 0.2 else confidence in
  {| success := true;
     confidence := mathMin confidence 1;
     errors := None;
     data := d;
     rawOcrText :=
       match includeRawText options with
       | Some true => Some rawResponse
       | _ => None
       end;
     processingTimeMs := Some processingTimeMs;
     modelUsed := Some model |}.

(** [extractReceiptFromBase64] *)
Definition extractReceiptFromBase64 (env : Env) (imageBase64 : string) (options : Options)
  : ExtractionResult :=
  let startTime := now env 0 in
  let model := orStr (model options) "llava" in
  let attempt :=
    if negb (healthCheckOk env) then
      inl ("Ollama not available at " ++ OLLAMA_BASE_URL env ++
           ". Make sure Ollama is running.")
    else
      match callOllamaVision env imageBase64 model with
      | inl e => inl e
      | inr rawResponse =>
          match parseExtractionResponse env rawResponse with
          | inl e => inl e
          | inr d => inr (d, rawResponse)
          end
      end in
  match attempt with
  | inr (d, rawResponse) => extracted d rawResponse options (now env 1 - startTime) model
  | inl message => failure message (now env 1 - startTime) model
  end.

(** [extractReceipt] *)
Definition extractReceipt (env : Env) (imagePath : string) (options : Options)
  : ExtractionResult :=
  let startTime := now env 0 in
  let model := orStr (model options) "llava" in
  let attempt :=
    if negb (healthCheckOk env) then
      inl ("Ollama not available at " ++ OLLAMA_BASE_URL env ++
           ". Make sure Ollama is running.")
    else
      match readImage env imagePath with
      | inl e => inl e
      | inr imageBase64 =>
          match callOllamaVision env imageBase64 model with
          | inl e => inl e
          | inr rawResponse =>
              match parseExtractionResponse env rawResponse with
              | inl e => inl e
              | inr d => inr (d, rawResponse)
              end
          end
      end in
  match attempt with
  | inr (d, rawResponse) => extracted d rawResponse options (now env 1 - startTime) model
  | inl message => failure message (now env 1 - startTime) model
  end.

End ReceiptExtraction.
(* ================================================================== *)
(** * api/receipts/route.ts: the row stored for a new receipt *)
(* ================================================================== *)

Module ReceiptsRoute.

Import JS.
Local Open Scope string_scope.

(** The request body of [POST]: the [data] of an extraction result, next to
    what the upload knows about the image. *)
Record Body := {
  vendor : option ExtractionTypes.VendorInfo;
  receipt : ExtractionTypes.ReceiptData;
  items : list ExtractionTypes.LineItem;
  imagePath : option string;
  confidence : option number;
  rawOcrText : option string
}.





End ReceiptsRoute.


(* ================================================================== *)
(** * The specification's own wording, as definitions *)
(* ================================================================== *)

Module Spec.

Import JS Store ExtractionTypes.
Local Open Scope string_scope.

(** ** Amount Normalizer *)

(** The ASCII digits, by enumeration. *)
Definition asciiDigits : list ascii :=
  ["0"; "1"; "2"; "3"; "4"; "5"; "6"; "7"; "8"; "9"]%char.

Definition isAsciiDigit (c : ascii) : bool := existsb (Ascii.eqb c) asciiDigits.

(** "Strip every character that is not an ASCII digit". *)
Definition strip (s : string) : string :=
  string_of_list_ascii (filter isAsciiDigit (list_ascii_of_string s)).

(** The position of a digit in the enumeration. *)
Fixpoint indexOf (c : ascii) (l : list ascii) : Z :=
  match l with
  | [] => 0
  | d :: l' => if Ascii.eqb c d then 0 else 1 + indexOf c l'
  end.

(** "Parse the remaining digit string as a base-10 integer": positional
    notation, the first digit being the most significant. *)
Fixpoint base10 (s : string) : Z :=
  match s with
  | EmptyString => 0
  | String c r => indexOf c asciiDigits * 10 ^ Z.of_nat (String.length r) + base10 r
  end.

(** "An absent input or an empty remainder yields absent, not zero". *)
Definition normalize (input : option string) : option number :=
  match input with
  | None => None
  | Some s =>
      match strip s with
      | EmptyString => None
      | ds => Some (inject_Z (base10 ds))
      end
  end.


(** Every character of [s] is a decimal digit. *)
Fixpoint allDigits (s : string) : bool :=
  match s with
  | EmptyString => true
  | String c r => isDigit c && allDigits r
  end.

(** ** Reconciliation Validator *)

Local Open Scope Q_scope.

(** "Sum of every top-level line item's totalPrice". *)
Definition itemsSum (result : ExtractionResult) : number :=
  fold_right Qplus 0 (map totalPrice (items (data result))).


(** The subtotal if present and not zero, otherwise the total amount. *)
Definition expectedSubtotal (result : ExtractionResult) : number :=
  match subtotal (receipt (data result)) with
  | Some s => if Qeq_bool s 0 then totalAmount (receipt (data result)) else s
  | None => totalAmount (receipt (data result))
  end.

(** [|itemsSum - expected| > 0.05 * expected] *)
Definition outOfTolerance (sum expected : number) : Prop :=
  0.05 * expected < Qabs (sum - expected).

(** "Canonical integer currency units": a whole number, of at most [2^50]
    in absolute value. *)
Definition wholeAmount (n : number) : bool :=
  Qeq_bool (inject_Z (Qfloor n)) n && Qle_bool (Qabs n) (inject_Z (2 ^ 50)).

(** The amounts the validator reads are whole: the total, the subtotal if
    there is one, and the price of every top-level line item, these prices
    adding up to at most [2^50] in absolute value.  Sums, differences and
    the comparison with 5% of such amounts come out the same in double
    precision as in exact arithmetic. *)
Definition wholeAmounts (result : ExtractionResult) : bool :=
  wholeAmount (totalAmount (receipt (data result))) &&
  match subtotal (receipt (data result)) with
  | Some s => wholeAmount s
  | None => true
  end &&
  forallb (fun item => wholeAmount (totalPrice item)) (items (data result)) &&
  Qle_bool (fold_right Qplus 0 (map (fun item => Qabs (totalPrice item))
                                    (items (data result))))
           (inject_Z (2 ^ 50)).

(** The entry recorded by the tolerance check. *)
Definition isMismatch (e : ValidationError) : bool :=
  match e with
  | ItemsSumMismatch _ _ => true
  | _ => false
  end.

Definition reportsMismatch (errors : list ValidationError) : bool :=
  existsb isMismatch errors.

(** The same result with another subtotal. *)
Definition withSubtotal (s : option number) (result : ExtractionResult) : ExtractionResult :=
  let d := data result in
  let r := receipt d in
  {| success := success result;
     confidence := confidence result;
     errors := errors result;
     data :=
       {| vendor := vendor d;
          receipt :=
            {| date := date r; time := time r;
               subtotal := s;
               taxAmount := taxAmount r; serviceCharge := serviceCharge r;
               discount := discount r; totalAmount := totalAmount r;
               paymentMethod := paymentMethod r;
               cashPaid := cashPaid r; cardPaid := cardPaid r;
               changeAmount := changeAmount r;
               itemTypeCount := itemTypeCount r;
               totalItemCount := totalItemCount r |};
          items := items d |};
     rawOcrText := rawOcrText result;
     processingTimeMs := processingTimeMs result;
     modelUsed := modelUsed result |}.

(** The same result with other line items. *)
Definition withItems (l : list LineItem) (result : ExtractionResult) : ExtractionResult :=
  let d := data result in
  {| success := success result;
     confidence := confidence result;
     errors := errors result;
     data := {| vendor := vendor d; receipt := receipt d; items := l |};
     rawOcrText := rawOcrText result;
     processingTimeMs := processingTimeMs result;
     modelUsed := modelUsed result |}.


(** ** Receipt Assembler *)

(** "Present and non-zero". *)
Definition presentNonZero (amount : option number) : Prop :=
  exists n, amount = Some n /\ ~ n == 0.

(** ** Intent Classifier *)

Local Open Scope string_scope.

Inductive Intent :=
| total_spending | count_all | count_flagged | flagged_receipts
| high_value | low_value | payment_breakdown | tax_info | audit_findings
| list_receipts.

(** The label under which the route reports an intent. *)
Definition label (i : Intent) : string :=
  match i with
  | total_spending => "total_spending"
  | count_all => "count_all"
  | count_flagged => "count_flagged"
  | flagged_receipts => "flagged_receipts"
  | high_value => "high_value_receipts"
  | low_value => "low_value_receipts"
  | payment_breakdown => "payment_breakdown"
  | tax_info => "tax_info"
  | audit_findings => "audit_findings"
  | list_receipts => "list_receipts"
  end.

(** What the classifier observes in a question: which trigger patterns
    match it, case-insensitively, and whether it carries a threshold. *)
Record Signals := {
  is_total_spending : bool;
  is_high_value : bool;
  is_low_value : bool;
  is_flagged : bool;
  is_payment_method : bool;
  is_count : bool;
  is_tax : bool;
  is_audit : bool;
  has_threshold : bool
}.

Definition signals (counts : option number -> bool) (question : string) : Signals :=
  {| is_total_spending := AuditorChat.test AuditorChat.QUERY_PATTERNS.total_spending question;
     is_high_value := AuditorChat.test AuditorChat.QUERY_PATTERNS.high_value question;
     is_low_value := AuditorChat.test AuditorChat.QUERY_PATTERNS.low_value question;
     is_flagged := AuditorChat.test AuditorChat.QUERY_PATTERNS.flagged question;
     is_payment_method := AuditorChat.test AuditorChat.QUERY_PATTERNS.payment_method question;
     is_count := AuditorChat.test AuditorChat.QUERY_PATTERNS.count question;
     is_tax := AuditorChat.test AuditorChat.QUERY_PATTERNS.tax question;
     is_audit := AuditorChat.test AuditorChat.QUERY_PATTERNS.audit question;
     has_threshold := counts (AuditorChat.extractNumber question) |}.

(** The priority cascade, top to bottom. *)
Definition cascade : list ((Signals -> bool) * Intent) :=
  [ (fun s => is_count s && is_flagged s, count_flagged);
    (fun s => is_count s, count_all);
    (fun s => is_total_spending s && negb (is_high_value s) && negb (is_low_value s),
     total_spending);
    (fun s => is_flagged s, flagged_receipts);
    (fun s => is_high_value s && has_threshold s, high_value);
    (fun s => is_low_value s && has_threshold s, low_value);
    (fun s => is_payment_method s, payment_breakdown);
    (fun s => is_tax s, tax_info);
    (fun s => is_audit s, audit_findings) ].

(** "First match wins", with [list_receipts] as the default. *)
Fixpoint firstMatch (rules : list ((Signals -> bool) * Intent)) (s : Signals) : Intent :=
  match rules with
  | [] => list_receipts
  | (applies, i) :: rest => if applies s then i else firstMatch rest s
  end.

Definition classify (counts : option number -> bool) (question : string) : Intent :=
  firstMatch cascade (signals counts question).

(** "Absence of any digit run yields no threshold": every extracted number
    is a threshold. *)
Definition anyThreshold (t : option number) : bool :=
  match t with Some _ => true | None => false end.

(** Only a number different from zero is a threshold. *)
Definition nonZeroThreshold (t : option number) : bool :=
  match t with Some n => negb (Qeq_bool n 0) | None => false end.

(** The payment query "sub-dispatches on the literal words cash and card
    inside the text, else groups by method". *)
Definition paymentQuery (question : string) : string :=
  if includes "cash" (toLowerCase question) then AuditorChat.SQL_payment_cash
  else if includes "card" (toLowerCase question) then AuditorChat.SQL_payment_card
  else AuditorChat.SQL_payment_grouped.

(** The fixed query templates. *)
Definition templates : list string :=
  [ AuditorChat.SQL_count_flagged; AuditorChat.SQL_count_all;
    AuditorChat.SQL_total_spending; AuditorChat.SQL_flagged_receipts;
    AuditorChat.SQL_high_value_receipts; AuditorChat.SQL_low_value_receipts;
    AuditorChat.SQL_payment_cash; AuditorChat.SQL_payment_card;
    AuditorChat.SQL_payment_grouped; AuditorChat.SQL_tax_info;
    AuditorChat.SQL_audit_findings; AuditorChat.SQL_list_receipts ].

(** ** Response Formatter and referenced receipts *)

(** The fixed "no results" sentence. *)
Definition noResults : string :=
  "I couldn't find any receipts matching your query.".

(** [l] is obtained from [m] by leaving entries out, the order being kept. *)
Inductive Subsequence {A : Type} : list A -> list A -> Prop :=
| sub_nil : Subsequence [] []
| sub_skip x l m : Subsequence l m -> Subsequence l (x :: m)
| sub_keep x l m : Subsequence l m -> Subsequence (x :: l) (x :: m).

(** The identifier column of a result set, row by row. *)
Definition identifiers (rows : list Row) : list (option Value) :=
  map (field "id") rows.

(** A row carries an identifier: its [id] is neither missing, null, empty
    nor zero. *)
Definition carriesId (r : Row) : bool := truthy (field "id" r).

(** A row carries an identifier of the ground truth data set. *)
Definition carriesCordId (r : Row) : bool :=
  match field "id" r with
  | Some (VText s) => startsWith "cord_" s
  | _ => false
  end.

(** "Every row carrying an identifier field contributes that identifier,
    capped at 20, preserving result order". *)
Definition referenced (carries : Row -> bool) (rows : list Row) : list (option Value) :=
  firstn 20 (identifiers (filter carries rows)).

(** ** Model assisted query generation *)

(** The model's text "after stripping code-fence markers". *)
Definition withoutFences (text : string) : string :=
  trim (removeAll false "```" (removeAll true "```sql" (trim text))).

(** "Begins with the case-insensitive token select". *)
Definition beginsWithSelect (text : string) : bool :=
  startsWith "select" (toLowerCase text).

(** The fixed apology and the explicit error of a rejected generation. *)
Definition apology : string :=
  "I couldn't understand that question. Try asking about spending totals, flagged receipts, or payment methods.".
Definition generationError : string :=
  "Could not generate SQL - is Ollama running?".

(** The request [generateSQL] sends to the model server. *)
Definition generationRequest (env : AuditorSql.Env) (question : string)
  : AuditorSql.GenerateRequest :=
  {| AuditorSql.model := AuditorSql.OLLAMA_MODEL env;
     AuditorSql.prompt := AuditorSql.sqlPrompt question;
     AuditorSql.stream := false;
     AuditorSql.temperature := 1 # 10;
     AuditorSql.num_predict := 200 |}.

Definition generationUrl (env : AuditorSql.Env) : string :=
  AuditorSql.OLLAMA_URL env ++ "/api/generate".

End Spec.

(* ================================================================== *)
(** * Concrete data for the examples *)
(* ================================================================== *)

Module Examples.

Import JS Store ExtractionTypes.
Local Open Scope string_scope.
Local Open Scope Q_scope.

Definition item (n : string) (p : number) : LineItem :=
  {| name := n; quantity := 1; unitPrice := None; totalPrice := p; subItems := None |}.

Definition receiptOf (sub : option number) (total : number) : ReceiptData :=
  {| date := None; time := None; subtotal := sub; taxAmount := None;
     serviceCharge := None; discount := None; totalAmount := total;
     paymentMethod := other; cashPaid := None; cardPaid := None;
     changeAmount := None; itemTypeCount := None; totalItemCount := None |}.

Definition resultOf (sub : option number) (total : number) (l : list LineItem)
  : ExtractionResult :=
  {| success := true; confidence := 1; errors := None;
     data := {| vendor := None; receipt := receiptOf sub total; items := l |};
     rawOcrText := None; processingTimeMs := None; modelUsed := None |}.


(** A negative total next to a subtotal the items agree with. *)
Definition negativeTotal : ExtractionResult :=
  resultOf (Some 10) (-5) [item "Teh" 10].




(** No total at all on the printed receipt. *)
Definition noTotal : CordGtParse :=
  {| menu := Some [ {| nm := Some "Kopi"; num := None; unitprice := None;
                       cnt := Some "1"; discountprice := None;
                       price := Some "12,000"; itemsubtotal := None;
                       sub := None |} ];
     sub_total := None; total := None; store_info := None |}.

(** A receipt settled partly in cash and partly by card. *)
Definition splitPayment : CordGtParse :=
  {| menu := None; sub_total := None;
     total := Some {| total_price := Some "50,000"; creditcardprice := Some "30,000";
                      emoneyprice := None; cashprice := Some "20,000";
                      changeprice := None; menutype_cnt := None;
                      menuqty_cnt := None |};
     store_info := None |}.

(** A host for running the routes on concrete data.  It prints the integer
    part of a number, which is exact for the whole amounts used below; no
    property depends on what it prints. *)
Definition showZ (z : Z) : string := NilEmpty.string_of_int (Z.to_int z).

Fixpoint groupRev (n : nat) (l : list ascii) : list ascii :=
  match l with
  | [] => []
  | c :: r =>
      if (n =? 3)%nat then ","%char :: c :: groupRev 1 r
      else c :: groupRev (S n) r
  end.

Definition showGrouped (z : Z) : string :=
  (if (z <? 0)%Z then "-" else EmptyString) ++
  string_of_list_ascii
    (rev (groupRev 0 (rev (list_ascii_of_string (showZ (Z.abs z)))))).

Definition showValue (v : Value) : string :=
  match v with
  | VNull => "null"
  | VNum n => showZ (Qfloor n)
  | VText s => dq ++ s ++ dq
  end.

Definition showRow (r : Row) : string :=
  "{" ++ String.concat ","
           (map (fun kv => dq ++ fst kv ++ dq ++ ":" ++ showValue (snd kv)) r) ++ "}".

Definition showExn (e : Exn) : string :=
  match e with
  | TypeError what => "TypeError: " ++ what
  | SqliteError what => "SqliteError: " ++ what
  | SyntaxError what => "SyntaxError: " ++ what
  end.

Definition sampleHost : Host :=
  {| numberToString := fun n => showZ (Qfloor n);
     toLocaleStringEnUS := fun n => showGrouped (Qfloor n);
     toLocaleStringDefault := fun n => showGrouped (Qfloor n);
     stringToNumber := fun s => if Spec.allDigits s then parseInt s else None;
     jsonStringifyRow := showRow;
     jsonStringifyRows := fun rows => "[" ++ String.concat "," (map showRow rows) ++ "]";
     exnToString := showExn |}.

Definition sampleUuid (k : nat) : string :=
  "3f2b8c1" ++ showZ (Z.of_nat k) ++ "-5d7e-4a90-b1c2-9e8f7a6b5c4d".

(** A store without receipts: every query answers no row. *)
Definition emptyStore : AuditorChat.Env :=
  {| AuditorChat.uuidv4 := sampleUuid;
     AuditorChat.all := fun _ _ => inr [];
     AuditorChat.run := fun _ => None |}.

(** A store that refuses the assistant's message (its identifier is taken)
    and accepts every other statement. *)
Definition refusingAssistant : AuditorChat.Env :=
  {| AuditorChat.uuidv4 := sampleUuid;
     AuditorChat.all := fun _ _ => inr [];
     AuditorChat.run := fun op =>
       match op with
       | InsertChatMessage _ _ "assistant" _ _ =>
           Some (SqliteError "UNIQUE constraint failed: chat_history.id")
       | _ => None
       end |}.

Definition ask (question : string) : Exn + AuditorChat.ChatRequest :=
  inr {| AuditorChat.message := Some question;
         AuditorChat.sessionId := Some "session-1" |}.

(** A row whose identifier was drawn by [uuidv4], as for an uploaded
    receipt. *)
Definition uploadedRow : Row :=
  [ ("id", VText "7c9e6679-7425-40de-944b-e07fc1f90ae7");
    ("total_amount", VNum 52000) ].

Definition cordRow (n : string) (amount : number) : Row :=
  [ ("id", VText ("cord_" ++ n)); ("total_amount", VNum amount) ].

(** A row of an aggregate query: no identifier. *)
Definition countRow : Row := [ ("count", VNum 3) ].

Definition threeRows : list Row :=
  [ cordRow "0001" 75000; countRow; uploadedRow ].

Definition storeOf (rows : list Row) : AuditorChat.Env :=
  {| AuditorChat.uuidv4 := sampleUuid;
     AuditorChat.all := fun _ _ => inr rows;
     AuditorChat.run := fun _ => None |}.

(** A model server that answers every request with the same text, and a
    store that answers every query with the same rows. *)
Definition modelSaying (text : string) (rows : list Row) : AuditorSql.Env :=
  {| AuditorSql.env_OLLAMA_URL := None;
     AuditorSql.env_OLLAMA_MODEL := None;
     AuditorSql.fetch := fun _ _ => AuditorSql.Responded true (inr (Some text));
     AuditorSql.uuidv4 := sampleUuid;
     AuditorSql.all := fun _ => inr rows;
     AuditorSql.run := fun _ => None |}.

(** U+00A0 and U+3000 in UTF-8. *)
Definition nbsp : string :=
  String (ascii_of_nat 194) (String (ascii_of_nat 160) EmptyString).
Definition ideographicSpace : string :=
  String (ascii_of_nat 227) (String (ascii_of_nat 128)
    (String (ascii_of_nat 128) EmptyString)).

Definition askModel (question : string) : Exn + AuditorSql.ChatRequest :=
  inr {| AuditorSql.message := Some question;
         AuditorSql.sessionId := Some "session-1" |}.

End Examples.

(* ================================================================== *)
(** * Notions used to state further properties of the code *)
(* ================================================================== *)

Module Props.

Import JS Store ExtractionTypes.
Local Open Scope string_scope.
Local Open Scope Q_scope.

(** Which of the three checks an entry comes from. *)
Inductive Finding := MissingTotal | MissingItems | Mismatch.

Definition finding (e : ValidationError) : Finding :=
  match e with
  | TotalAmountRequired => MissingTotal
  | LineItemRequired => MissingItems
  | ItemsSumMismatch _ _ => Mismatch
  end.

Definition findings (result : ExtractionResult) : list Finding :=
  map finding (validateExtractionResult result).

(** An optional amount and its multiple by [k]. *)
Definition optScaled (k : Q) (o o' : option number) : Prop :=
  match o, o' with
  | Some s, Some s' => s' == k * s
  | None, None => True
  | _, _ => False
  end.

(** [result'] states the amounts of [result] in another unit, worth [1/k]
    of the first: total, subtotal and line item prices are multiplied by
    [k]. *)
Definition scaledBy (k : Q) (result result' : ExtractionResult) : Prop :=
  totalAmount (receipt (data result')) == k * totalAmount (receipt (data result)) /\
  optScaled k (subtotal (receipt (data result))) (subtotal (receipt (data result'))) /\
  Forall2 (fun i i' => totalPrice i' == k * totalPrice i)
          (items (data result)) (items (data result')).

(** A number that is a whole amount, zero or more. *)
Definition wholeAmount (n : number) : Prop :=
  exists z : Z, (0 <= z)%Z /\ n = inject_Z z.

(** A number that is a whole amount, one or more. *)
Definition positiveWhole (n : number) : Prop :=
  exists z : Z, (1 <= z)%Z /\ n = inject_Z z.

Definition optionalWhole (o : option number) : Prop :=
  match o with Some n => wholeAmount n | None => True end.

(** An optional amount that is not negative. *)
Definition notNegative (o : option number) : Prop :=
  match o with Some n => 0 <= n | None => True end.

(** What the conversion guarantees of a line item of either level. *)
Definition wellFormedItem (item : LineItem) : Prop :=
  0 <= totalPrice item /\
  1 <= quantity item /\
  notNegative (unitPrice item) /\
  name item <> EmptyString.

(** The decimal notation of a natural number. *)
Definition decimal (n : nat) : string := NilEmpty.string_of_uint (Nat.to_uint n).

(** The number of occurrences of a character. *)
Fixpoint countChar (c : ascii) (s : string) : nat :=
  match s with
  | EmptyString => 0
  | String d r => (if Ascii.eqb d c then 1 else 0) + countChar c r
  end.

(** The one template of an intent other than [payment_breakdown]. *)
Definition templateOf (intent : string) : string :=
  if String.eqb intent "count_flagged" then AuditorChat.SQL_count_flagged
  else if String.eqb intent "count_all" then AuditorChat.SQL_count_all
  else if String.eqb intent "total_spending" then AuditorChat.SQL_total_spending
  else if String.eqb intent "flagged_receipts" then AuditorChat.SQL_flagged_receipts
  else if String.eqb intent "high_value_receipts" then AuditorChat.SQL_high_value_receipts
  else if String.eqb intent "low_value_receipts" then AuditorChat.SQL_low_value_receipts
  else if String.eqb intent "tax_info" then AuditorChat.SQL_tax_info
  else if String.eqb intent "audit_findings" then AuditorChat.SQL_audit_findings
  else AuditorChat.SQL_list_receipts.

(** The identifier of a row is a number other than zero. *)
Definition numericId (r : Row) : Prop :=
  exists n, field "id" r = Some (VNum n) /\ ~ n == 0.

(** The payment method of a row is a number other than zero. *)
Definition numericPaymentMethod (r : Row) : Prop :=
  exists n, field "payment_method" r = Some (VNum n) /\ ~ n == 0.

(** The model server did not deliver a text: the request failed, the status
    was not a success, or the body could not be read. *)
Definition noModelText (outcome : AuditorSql.FetchOutcome) : Prop :=
  match outcome with
  | AuditorSql.Responded true (inr _) => False
  | _ => True
  end.

(** The request [formatAnswer] sends to the model server. *)
Definition formattingRequest `{Host} (env : AuditorSql.Env) (question sql : string)
    (results : list Row) : AuditorSql.GenerateRequest :=
  {| AuditorSql.model := AuditorSql.OLLAMA_MODEL env;
     AuditorSql.prompt :=
       AuditorSql.answerPrompt question sql
         (jsonStringifyRows (firstn 10 results)) results;
     AuditorSql.stream := false;
     AuditorSql.temperature := 3 # 10;
     AuditorSql.num_predict := 300 |}.

(** The text holds no back tick. *)
Definition noBacktick (s : string) : Prop := countChar "`" s = 0%nat.

(** A model answer wrapped in a code fence. *)
Definition fenced (opening text : string) : string :=
  opening ++ nl ++ text ++ nl ++ "```".

(** What an extraction result tells about itself: a failed extraction has
    confidence 0, one error message and is rejected by the validator for its
    missing total and items; a successful one has a confidence between 0.5
    and 1 and no error message, reaches 1 exactly when the vendor is named,
    there are line items and the total is positive, and is above 0.85 exactly
    when there are line items and the total is positive, the validator then
    recording neither required-field entry.  (The score is one of 0.5, 0.6,
    0.7, 0.8, 0.9 and 1; 0.85 is away from each of them.) *)
Definition coherent (r : ExtractionResult) : Prop :=
  (success r = false ->
   confidence r = 0 /\
   (exists message, errors r = Some [message]) /\
   validateExtractionResult r = [TotalAmountRequired; LineItemRequired]) /\
  (success r = true ->
   0.5 <= confidence r /\ confidence r <= 1 /\ errors r = None /\
   (confidence r == 1 <->
    ReceiptExtraction.vendorNamed (data r) = true /\
    items (data r) <> [] /\
    0 < totalAmount (receipt (data r))) /\
   (0.85 < confidence r <->
    items (data r) <> [] /\ 0 < totalAmount (receipt (data r))) /\
   (0.85 < confidence r ->
    ~ In TotalAmountRequired (validateExtractionResult r) /\
    ~ In LineItemRequired (validateExtractionResult r))).

End Props.

(* ================================================================== *)
(** * More concrete data *)
(* ================================================================== *)

Module Samples.

Import JS Store ExtractionTypes.
Local Open Scope string_scope.
Local Open Scope Q_scope.

Definition coffee : ExtractionData :=
  {| vendor := Some {| vendor_name := "Kopi Kita"; address := None;
                       phone := None; businessNumber := None |};
     receipt := Examples.receiptOf (Some 35000) 38500;
     items := [Examples.item "Kopi Susu" 20000; Examples.item "Roti Bakar" 15000] |}.

(** A vision model that answers with prose around a JSON object, and a
    reader of that object. *)
Definition visionEnv : ReceiptExtraction.Env :=
  {| ReceiptExtraction.OLLAMA_BASE_URL := "http://localhost:11434";
     ReceiptExtraction.now := fun k => inject_Z (1700000000000 + 150 * Z.of_nat k);
     ReceiptExtraction.healthCheckOk := true;
     ReceiptExtraction.readImage := fun path => inr ("base64:" ++ path);
     ReceiptExtraction.callOllamaVision :=
       fun _ _ => inr "Here is the receipt: {...} Let me know if it helps.";
     ReceiptExtraction.interpret :=
       fun json => if String.eqb json "{...}" then inr coffee
                   else inl "Unexpected token" |}.

Definition defaults : ReceiptExtraction.Options :=
  {| ReceiptExtraction.model := None; ReceiptExtraction.includeRawText := None |}.

End Samples.
(* ================================================================== *)
(** * Rounding to the nearest double *)
(* ================================================================== *)

Module DoubleFacts.
Import JS.
Local Open Scope Q_scope.

Lemma pow2_pos (e : Z) : 0 < 2 ^ e.
Proof. apply Qpower_0_lt. reflexivity. Qed.

Lemma pow2_add (a b : Z) : 2 ^ (a + b) == 2 ^ a * 2 ^ b.
Proof. apply Qpower_plus. discriminate. Qed.

Lemma pow2_le (a b : Z) : (a <= b)%Z -> 2 ^ a <= 2 ^ b.
Proof. intros H. apply Qpower_le_compat_l; [exact H|discriminate]. Qed.

Lemma pow2_lt (a b : Z) : (a < b)%Z -> 2 ^ a < 2 ^ b.
Proof. intros H. apply Qpower_lt_compat_l; [exact H|reflexivity]. Qed.

Lemma pow2_lt_inv (a b : Z) : 2 ^ a < 2 ^ b -> (a < b)%Z.
Proof. intros H. apply (Qpower_lt_compat_l_inv 2); [exact H|reflexivity]. Qed.

Lemma pow2_inject (e : Z) : (0 <= e)%Z -> 2 ^ e == inject_Z (2 ^ e).
Proof. intros H. symmetry. apply (Zpower_Qpower 2 e H). Qed.

Lemma pow2_cancel (e : Z) : 2 ^ (- e) * 2 ^ e == 1.
Proof. rewrite <- pow2_add. now replace (- e + e)%Z with 0%Z by lia. Qed.

Lemma inject_Z_le (a b : Z) : (a <= b)%Z -> inject_Z a <= inject_Z b.
Proof. intros H. now rewrite <- Zle_Qle. Qed.

Lemma inject_Z_lt (a b : Z) : (a < b)%Z -> inject_Z a < inject_Z b.
Proof. intros H. now rewrite <- Zlt_Qlt. Qed.

(** [ilog2 x] is the integer part of the binary logarithm. *)
Lemma ilog2_spec (x : Q) :
  0 < x -> 2 ^ ilog2 x <= x /\ x < 2 ^ (ilog2 x + 1).
Proof.
  intros Hx. unfold ilog2.
  destruct (Qle_bool 1 x) eqn:E.
  - apply Qle_bool_iff in E.
    assert (Hn : (1 <= Qfloor x)%Z).
    { rewrite <- (Qfloor_Z 1). now apply Qfloor_resp_le. }
    destruct (Z.log2_spec (Qfloor x)) as [Hlo Hhi]; [lia|].
    pose proof (Z.log2_nonneg (Qfloor x)) as Hl.
    split.
    + rewrite pow2_inject by exact Hl.
      apply Qle_trans with (inject_Z (Qfloor x)); [now apply inject_Z_le|apply Qfloor_le].
    + rewrite pow2_inject by lia.
      apply Qlt_le_trans with (inject_Z (Qfloor x + 1)); [apply Qlt_floor|].
      apply inject_Z_le. replace (Z.log2 (Qfloor x) + 1)%Z with (Z.succ (Z.log2 (Qfloor x))) by lia.
      lia.
  - assert (Hlt : x < 1).
    { apply Qnot_le_lt. intros H. apply Qle_bool_iff in H. congruence. }
    assert (Hxy : x * / x == 1) by (apply Qmult_inv_r; intros H; rewrite H in Hx; discriminate Hx).
    assert (Hy : 0 < / x) by now apply Qinv_lt_0_compat.
    assert (H1y : 1 < / x).
    { apply (Qmult_lt_l _ _ x Hx). rewrite Hxy, Qmult_1_r. exact Hlt. }
    set (n := Qceiling (/ x)).
    assert (Hn : (1 < n)%Z).
    { rewrite Zlt_Qlt. apply Qlt_le_trans with (/ x); [exact H1y|apply Qle_ceiling]. }
    destruct (Z.log2_up_spec n Hn) as [Hlo Hhi].
    pose proof (Z.log2_up_pos n Hn) as Ht.
    set (t := Z.log2_up n) in *.
    split.
    + apply (Qmult_le_r _ _ (2 ^ t) (pow2_pos t)).
      rewrite pow2_cancel, <- Hxy.
      apply (Qmult_le_l _ _ x Hx).
      apply Qle_trans with (inject_Z n); [apply Qle_ceiling|].
      rewrite pow2_inject by lia. now apply inject_Z_le.
    + apply (Qmult_lt_r _ _ (2 ^ (t - 1)) (pow2_pos (t - 1))).
      replace (- t + 1)%Z with (- (t - 1))%Z by lia.
      rewrite pow2_cancel, <- Hxy.
      apply (Qmult_lt_l _ _ x Hx).
      apply Qle_lt_trans with (inject_Z (n - 1)); [|apply Qceiling_lt].
      rewrite pow2_inject by lia. apply inject_Z_le.
      replace (t - 1)%Z with (Z.pred t) by lia. lia.
Qed.

Lemma ilog2_unique (x : Q) (k : Z) :
  2 ^ k <= x -> x < 2 ^ (k + 1) -> ilog2 x = k.
Proof.
  intros Hlo Hhi.
  assert (Hx : 0 < x) by (eapply Qlt_le_trans; [apply (pow2_pos k)|exact Hlo]).
  destruct (ilog2_spec Hx) as [Hl Hh].
  assert (k < ilog2 x + 1)%Z by (apply pow2_lt_inv; apply Qle_lt_trans with x; assumption).
  assert (ilog2 x < k + 1)%Z by (apply pow2_lt_inv; apply Qle_lt_trans with x; assumption).
  lia.
Qed.

Lemma ilog2_comp (x y : Q) : x == y -> ilog2 x = ilog2 y.
Proof.
  intros H. unfold ilog2.
  rewrite (Qleb_comp 1 1 (Qeq_refl 1) x y H), (Qfloor_comp x y H).
  now rewrite (Qceiling_comp (/ x) (/ y) (Qinv_comp x y H)).
Qed.

Lemma roundHalfEven_comp (x y : Q) : x == y -> roundHalfEven x = roundHalfEven y.
Proof.
  intros H. unfold roundHalfEven. rewrite (Qfloor_comp x y H).
  assert (E : x - inject_Z (Qfloor y) == y - inject_Z (Qfloor y)) by now rewrite H.
  now rewrite (Qcompare_comp _ _ E (1 # 2) (1 # 2) (Qeq_refl _)).
Qed.

Lemma roundHalfEven_Z (z : Z) : roundHalfEven (inject_Z z) = z.
Proof.
  unfold roundHalfEven. rewrite Qfloor_Z.
  destruct (Qcompare (inject_Z z - inject_Z z) (1 # 2)) eqn:C;
    [apply Qeq_alt in C | reflexivity | apply Qgt_alt in C]; exfalso; lra.
Qed.

Lemma roundHalfEven_bounds (m : Q) :
  (Qfloor m <= roundHalfEven m <= Qfloor m + 1)%Z.
Proof.
  unfold roundHalfEven.
  destruct (Qcompare _ _); [destruct (Z.even _)| |]; lia.
Qed.

Lemma roundHalfEven_mono (x y : Q) : x <= y -> (roundHalfEven x <= roundHalfEven y)%Z.
Proof.
  intros H. pose proof (Qfloor_resp_le _ _ H) as Hf.
  destruct (Z.eq_dec (Qfloor x) (Qfloor y)) as [E|NE].
  - unfold roundHalfEven. rewrite <- E.
    destruct (Qcompare (x - inject_Z (Qfloor x)) (1 # 2)) eqn:Cx;
      destruct (Qcompare (y - inject_Z (Qfloor x)) (1 # 2)) eqn:Cy;
      try (destruct (Z.even (Qfloor x))); try lia; exfalso;
      first [apply Qeq_alt in Cx | apply Qlt_alt in Cx | apply Qgt_alt in Cx];
      first [apply Qeq_alt in Cy | apply Qlt_alt in Cy | apply Qgt_alt in Cy].
    all: lra.
  - pose proof (roundHalfEven_bounds x). pose proof (roundHalfEven_bounds y). lia.
Qed.


(** The scaled mantissa of a positive number lies between [2^52] and [2^53]. *)
Lemma mantissa_bounds (x : Q) :
  0 < x ->
  2 ^ 52 <= x * 2 ^ (- (ilog2 x - 52)) /\ x * 2 ^ (- (ilog2 x - 52)) < 2 ^ 53.
Proof.
  intros Hx. destruct (ilog2_spec Hx) as [Hlo Hhi].
  set (e := (ilog2 x - 52)%Z).
  pose proof (pow2_pos (- e)) as Hp.
  split.
  - replace 52%Z with (ilog2 x + - e)%Z by (unfold e; lia).
    rewrite pow2_add. now apply Qmult_le_compat_r; [|apply Qlt_le_weak].
  - replace 53%Z with (ilog2 x + 1 + - e)%Z by (unfold e; lia).
    rewrite pow2_add. now apply Qmult_lt_compat_r.
Qed.

Lemma nearest_bounds (x : Q) :
  0 < x -> 2 ^ ilog2 x <= nearest x /\ nearest x <= 2 ^ (ilog2 x + 1).
Proof.
  intros Hx. destruct (mantissa_bounds Hx) as [Hlo Hhi].
  unfold nearest. cbv zeta. set (e := (ilog2 x - 52)%Z) in *.
  set (m := x * 2 ^ (- e)) in *.
  assert (H52 : (2 ^ 52 <= roundHalfEven m)%Z).
  { rewrite <- (roundHalfEven_Z (2 ^ 52)). apply roundHalfEven_mono.
    now rewrite <- pow2_inject by lia. }
  assert (H53 : (roundHalfEven m <= 2 ^ 53)%Z).
  { rewrite <- (roundHalfEven_Z (2 ^ 53)). apply roundHalfEven_mono.
    rewrite <- pow2_inject by lia. now apply Qlt_le_weak. }
  pose proof (pow2_pos e) as Hp.
  split.
  - replace (ilog2 x) with (52 + e)%Z at 1 by (unfold e; lia).
    rewrite pow2_add. apply Qmult_le_compat_r; [|now apply Qlt_le_weak].
    rewrite pow2_inject by lia. now apply inject_Z_le.
  - replace (ilog2 x + 1)%Z with (53 + e)%Z by (unfold e; lia).
    rewrite pow2_add. apply Qmult_le_compat_r; [|now apply Qlt_le_weak].
    rewrite pow2_inject by lia. now apply inject_Z_le.
Qed.

Lemma nearest_pos (x : Q) : 0 < x -> 0 < nearest x.
Proof.
  intros Hx. eapply Qlt_le_trans; [apply (pow2_pos (ilog2 x))|].
  now apply nearest_bounds.
Qed.

Lemma nearest_comp (x y : Q) : x == y -> nearest x == nearest y.
Proof.
  intros H. unfold nearest. cbv zeta. rewrite (ilog2_comp H).
  assert (E : x * 2 ^ (- (ilog2 y - 52)) == y * 2 ^ (- (ilog2 y - 52))) by now rewrite H.
  now rewrite (roundHalfEven_comp E).
Qed.

Lemma nearest_mono (x y : Q) : 0 < x -> x <= y -> nearest x <= nearest y.
Proof.
  intros Hx Hxy.
  assert (Hy : 0 < y) by (eapply Qlt_le_trans; eassumption).
  destruct (ilog2_spec Hx) as [Hxl Hxh]. destruct (ilog2_spec Hy) as [Hyl Hyh].
  assert (Hk : (ilog2 x <= ilog2 y)%Z).
  { assert (ilog2 x < ilog2 y + 1)%Z; [|lia].
    apply pow2_lt_inv. apply Qle_lt_trans with x; [exact Hxl|].
    apply Qle_lt_trans with y; assumption. }
  destruct (Z.eq_dec (ilog2 x) (ilog2 y)) as [E|NE].
  - unfold nearest. cbv zeta. rewrite E.
    apply Qmult_le_compat_r; [|apply Qlt_le_weak, pow2_pos].
    apply inject_Z_le, roundHalfEven_mono.
    apply Qmult_le_compat_r; [exact Hxy|apply Qlt_le_weak, pow2_pos].
  - apply Qle_trans with (2 ^ (ilog2 x + 1)); [now apply nearest_bounds|].
    apply Qle_trans with (2 ^ ilog2 y); [apply pow2_le; lia|now apply nearest_bounds].
Qed.

(** A number with a mantissa of at most 53 bits is a double. *)
Lemma nearest_exact (x : Q) (z j : Z) :
  x == inject_Z z * 2 ^ j -> (0 < z < 2 ^ 53)%Z -> nearest x == x.
Proof.
  intros Hx Hz.
  assert (Hpos : 0 < x).
  { rewrite Hx. apply Qmult_lt_0_compat; [|apply pow2_pos].
    change 0 with (inject_Z 0). apply inject_Z_lt. lia. }
  destruct (ilog2_spec Hpos) as [Hlo _].
  set (e := (ilog2 x - 52)%Z).
  assert (He : (e <= j)%Z).
  { assert (ilog2 x < 53 + j)%Z; [|unfold e; lia].
    apply pow2_lt_inv. apply Qle_lt_trans with x; [exact Hlo|].
    rewrite Hx, pow2_add. apply Qmult_lt_compat_r; [apply pow2_pos|].
    rewrite pow2_inject by lia. apply inject_Z_lt. lia. }
  assert (Hm : x * 2 ^ (- e) == inject_Z (z * 2 ^ (j - e))).
  { rewrite Hx, inject_Z_mult, <- (pow2_inject (e := j - e)) by lia.
    replace (j - e)%Z with (j + - e)%Z by lia. rewrite pow2_add. ring. }
  unfold nearest. cbv zeta. fold e.
  rewrite (roundHalfEven_comp Hm), roundHalfEven_Z, <- Hm.
  rewrite <- Qmult_assoc, pow2_cancel. ring.
Qed.

Lemma double_comp (x y : Q) : x == y -> double x = double y.
Proof.
  intros H. unfold double.
  rewrite (Qcompare_comp x y H 0 0 (Qeq_refl 0)).
  destruct (Qcompare y 0); [reflexivity| |].
  - apply Qred_complete. apply Qopp_comp, nearest_comp. now rewrite H.
  - apply Qred_complete. now apply nearest_comp.
Qed.

Lemma double_pos (x : Q) : 0 < x -> double x == nearest x.
Proof.
  intros H. unfold double.
  assert (C : Qcompare x 0 = Gt) by now apply Qgt_alt.
  rewrite C. apply Qred_correct.
Qed.

Lemma double_neg (x : Q) : x < 0 -> double x == - nearest (- x).
Proof.
  intros H. unfold double.
  assert (C : Qcompare x 0 = Lt) by now apply Qlt_alt.
  rewrite C. apply Qred_correct.
Qed.

Lemma double_zero (x : Q) : x == 0 -> double x = 0.
Proof.
  intros H. unfold double.
  assert (C : Qcompare x 0 = Eq) by now apply Qeq_alt.
  now rewrite C.
Qed.

(** Rounding is monotone. *)
Lemma double_mono (x y : Q) : x <= y -> double x <= double y.
Proof.
  intros H.
  destruct (Q_dec x 0) as [[Hx|Hx]|Hx], (Q_dec y 0) as [[Hy|Hy]|Hy].
  - rewrite (double_neg Hx), (double_neg Hy). apply Qopp_le_compat.
    apply nearest_mono; lra.
  - rewrite (double_neg Hx), (double_pos Hy).
    pose proof (@nearest_pos (- x)). pose proof (@nearest_pos y). lra.
  - rewrite (double_neg Hx), (double_zero Hy).
    pose proof (@nearest_pos (- x)). lra.
  - lra.
  - rewrite (double_pos Hx), (double_pos Hy). now apply nearest_mono.
  - lra.
  - lra.
  - rewrite (double_zero Hx), (double_pos Hy). pose proof (@nearest_pos y). lra.
  - rewrite (double_zero Hx), (double_zero Hy). lra.
Qed.

(** Numbers with a mantissa of at most 53 bits are not rounded. *)
Lemma double_exact (x : Q) (z j : Z) :
  x == inject_Z z * 2 ^ j -> (Z.abs z < 2 ^ 53)%Z -> double x == x.
Proof.
  intros Hx Hz.
  pose proof (pow2_pos j) as Hp.
  destruct (Z.lt_trichotomy z 0) as [Hneg|[Hzero|Hpos]].
  - assert (Hlt : x < 0).
    { rewrite Hx. assert (inject_Z z < 0) by (change 0 with (inject_Z 0); apply inject_Z_lt; lia).
      nra. }
    rewrite (double_neg Hlt).
    rewrite (@nearest_exact (- x) (- z) j); [ring| |lia].
    rewrite Hx, inject_Z_opp. ring.
  - subst z. assert (H0 : x == 0) by (rewrite Hx; ring).
    rewrite (double_zero H0). now rewrite H0.
  - assert (Hgt : 0 < x).
    { rewrite Hx. apply Qmult_lt_0_compat; [|exact Hp].
      change 0 with (inject_Z 0). apply inject_Z_lt. lia. }
    rewrite (double_pos Hgt). apply (@nearest_exact x z j); [exact Hx|lia].
Qed.

Lemma Qred_inject_Z (z : Z) : Qred (inject_Z z) = inject_Z z.
Proof.
  unfold Qred, inject_Z. cbn [Qnum Qden].
  pose proof (Z.ggcd_gcd z 1) as Hg. pose proof (Z.ggcd_correct_divisors z 1) as Hd.
  destruct (Z.ggcd z 1) as [g [a b]]. cbn in *.
  rewrite Z.gcd_1_r in Hg. subst g. destruct Hd as [Ha Hb].
  assert (Ea : a = z) by lia. assert (Eb : b = 1%Z) by lia.
  rewrite Ea, Eb. reflexivity.
Qed.

Lemma double_canonical (x : Q) : Qred (double x) = double x.
Proof.
  unfold double. destruct (Qcompare x 0); [reflexivity| |];
    apply Qred_complete, Qred_correct.
Qed.

(** Whole numbers below [2^53] in absolute value are doubles. *)
Lemma double_whole (z : Z) :
  (Z.abs z < 2 ^ 53)%Z -> double (inject_Z z) = inject_Z z.
Proof.
  intros Hz.
  transitivity (Qred (double (inject_Z z))); [symmetry; apply double_canonical|].
  transitivity (Qred (inject_Z z)); [|apply Qred_inject_Z].
  apply Qred_complete. apply (@double_exact _ z 0); [|exact Hz].
  change (2 ^ 0) with 1. ring.
Qed.

(** From [2^52] on every double is a whole number. *)
Lemma nearest_integer (x : Q) :
  2 ^ 52 <= x -> exists z : Z, (0 < z)%Z /\ nearest x == inject_Z z.
Proof.
  intros Hx.
  assert (Hpos : 0 < x) by (eapply Qlt_le_trans; [apply (pow2_pos 52)|exact Hx]).
  destruct (ilog2_spec Hpos) as [_ Hhi].
  assert (He : (0 <= ilog2 x - 52)%Z).
  { assert (52 < ilog2 x + 1)%Z; [|lia].
    apply pow2_lt_inv. now apply Qle_lt_trans with x. }
  pose proof (nearest_pos Hpos) as Hn. revert Hn.
  unfold nearest. cbv zeta.
  set (e := (ilog2 x - 52)%Z) in *. set (r := roundHalfEven (x * 2 ^ (- e))).
  assert (E : inject_Z r * 2 ^ e == inject_Z (r * 2 ^ e))
    by now rewrite (pow2_inject He), <- inject_Z_mult.
  rewrite E. intros Hn.
  exists (r * 2 ^ e)%Z. split; [|exact E].
  rewrite Zlt_Qlt. exact Hn.
Qed.

(** The double nearest to a whole number is a whole number of the same
    sign. *)
Lemma double_of_whole (z : Z) :
  (0 <= z)%Z ->
  exists z' : Z, (0 <= z')%Z /\ ((0 < z)%Z -> (0 < z')%Z) /\
                 double (inject_Z z) = inject_Z z'.
Proof.
  intros Hz. destruct (Z_lt_le_dec z (2 ^ 53)) as [Hsmall|Hbig].
  - exists z. repeat split; [exact Hz|tauto|]. apply double_whole. lia.
  - assert (Hx : 2 ^ 52 <= inject_Z z).
    { rewrite pow2_inject by lia. apply inject_Z_le. lia. }
    destruct (nearest_integer Hx) as (z' & Hz' & E).
    exists z'. repeat split; [lia|intros _; exact Hz'|].
    assert (Hpos : 0 < inject_Z z).
    { eapply Qlt_le_trans; [apply (pow2_pos 52)|exact Hx]. }
    transitivity (Qred (double (inject_Z z))); [symmetry; apply double_canonical|].
    transitivity (Qred (inject_Z z')); [|apply Qred_inject_Z].
    apply Qred_complete. now rewrite (double_pos Hpos).
Qed.

Lemma double_nonneg (x : Q) : 0 <= x -> 0 <= double x.
Proof.
  intros H. rewrite <- (double_zero (Qeq_refl 0)). now apply double_mono.
Qed.

Lemma double_opp (x : Q) : double (- x) == - double x.
Proof.
  destruct (Q_dec x 0) as [[Hx|Hx]|Hx].
  - assert (H : 0 < - x) by lra.
    rewrite (double_pos H), (double_neg Hx). ring.
  - assert (H : - x < 0) by lra.
    rewrite (double_neg H), (double_pos Hx).
    now rewrite (nearest_comp (Qopp_involutive x)).
  - assert (H : - x == 0) by lra.
    rewrite (double_zero H), (double_zero Hx). reflexivity.
Qed.

End DoubleFacts.

(* ================================================================== *)
(** * Properties *)
(* ================================================================== *)

Module JSFacts.

Import JS.
Import Spec (allDigits).
Local Open Scope string_scope.

Ltac each_ascii c := destruct c as [[] [] [] [] [] [] [] []].

Lemma isDigit_enumerated (c : ascii) : isDigit c = Spec.isAsciiDigit c.
Proof. each_ascii c; reflexivity. Qed.

Lemma digitValue_enumerated (c : ascii) :
  isDigit c = true -> digitValue c = Spec.indexOf c Spec.asciiDigits.
Proof. each_ascii c; intros H; try discriminate H; reflexivity. Qed.

Lemma digit_not_space (c : ascii) : isDigit c = true -> isSpace c = false.
Proof. each_ascii c; intros H; try discriminate H; reflexivity. Qed.

Lemma digit_ascii (c : ascii) : isDigit c = true -> (nat_of_ascii c < 128)%nat.
Proof.
  unfold isDigit. intros H. apply andb_true_iff in H as [_ H].
  apply Nat.leb_le in H. lia.
Qed.

(** The bytes of a multi-byte white space character are all above 127. *)
Lemma isSpace2_ascii_l (a b : ascii) : (nat_of_ascii a < 128)%nat -> isSpace2 a b = false.
Proof.
  unfold isSpace2. intros H.
  destruct (Nat.eqb_spec (nat_of_ascii a) 194); [lia|reflexivity].
Qed.

Lemma isSpace2_ascii_r (a b : ascii) : (nat_of_ascii b < 128)%nat -> isSpace2 a b = false.
Proof.
  unfold isSpace2. intros H.
  destruct (Nat.eqb_spec (nat_of_ascii b) 160); [lia|apply andb_false_r].
Qed.

Lemma isSpace3_ascii_l (a b c : ascii) :
  (nat_of_ascii a < 128)%nat -> isSpace3 a b c = false.
Proof.
  unfold isSpace3. cbv zeta. intros H.
  destruct (Nat.eqb_spec (nat_of_ascii a) 225); [lia|].
  destruct (Nat.eqb_spec (nat_of_ascii a) 226); [lia|].
  destruct (Nat.eqb_spec (nat_of_ascii a) 227); [lia|].
  destruct (Nat.eqb_spec (nat_of_ascii a) 239); [lia|].
  reflexivity.
Qed.

Lemma isSpace3_ascii_m (a b c : ascii) :
  (nat_of_ascii b < 128)%nat -> isSpace3 a b c = false.
Proof.
  unfold isSpace3. cbv zeta. intros H.
  destruct (Nat.eqb_spec (nat_of_ascii b) 154); [lia|].
  destruct (Nat.eqb_spec (nat_of_ascii b) 128); [lia|].
  destruct (Nat.eqb_spec (nat_of_ascii b) 129); [lia|].
  destruct (Nat.eqb_spec (nat_of_ascii b) 187); [lia|].
  now rewrite !andb_false_r.
Qed.

Lemma isSpace3_ascii_r (a b c : ascii) :
  (nat_of_ascii c < 128)%nat -> isSpace3 a b c = false.
Proof.
  unfold isSpace3. cbv zeta. intros H.
  destruct (Nat.eqb_spec (nat_of_ascii c) 128); [lia|].
  destruct (Nat.leb_spec 128 (nat_of_ascii c)); [lia|].
  destruct (Nat.eqb_spec (nat_of_ascii c) 168); [lia|].
  destruct (Nat.eqb_spec (nat_of_ascii c) 169); [lia|].
  destruct (Nat.eqb_spec (nat_of_ascii c) 175); [lia|].
  destruct (Nat.eqb_spec (nat_of_ascii c) 159); [lia|].
  destruct (Nat.eqb_spec (nat_of_ascii c) 191); [lia|].
  cbn [andb orb]. now rewrite !andb_false_r.
Qed.

(** [trimStart] drops one white space character after the other. *)
Lemma trimStart_unfold (s : string) :
  trimStart s = match afterSpace s with Some r => trimStart r | None => s end.
Proof.
  destruct s as [|a [|b [|c r]]]; cbn [trimStart afterSpace]; try reflexivity.
  - now destruct (isSpace a).
  - destruct (isSpace a); [reflexivity|]. now destruct (isSpace2 a b).
  - destruct (isSpace a); [reflexivity|]. destruct (isSpace2 a b); [reflexivity|].
    now destruct (isSpace3 a b c).
Qed.

(** No white space character starts with an ASCII character that is not
    itself white space. *)
Lemma afterSpace_ascii_head (c : ascii) (r : string) :
  (nat_of_ascii c < 128)%nat -> isSpace c = false -> afterSpace (String c r) = None.
Proof.
  intros Hc Hs. destruct r as [|b [|d r]]; cbn [afterSpace]; rewrite Hs;
    rewrite ?(@isSpace2_ascii_l c _ Hc), ?(@isSpace3_ascii_l c _ _ Hc); reflexivity.
Qed.

(** A text that starts with a digit has no leading white space. *)
Lemma trimStart_digit (c : ascii) (r : string) :
  isDigit c = true -> trimStart (String c r) = String c r.
Proof.
  intros H. rewrite trimStart_unfold.
  now rewrite (@afterSpace_ascii_head c r (@digit_ascii c H) (@digit_not_space c H)).
Qed.

Lemma replaceOutside_digits (s : string) :
  allDigits (replaceOutside isDigit EmptyString s) = true.
Proof.
  induction s as [|c r IH]; simpl; [reflexivity|].
  destruct (isDigit c) eqn:E; simpl; [rewrite E|]; exact IH.
Qed.

Lemma replaceOutside_strip (s : string) :
  replaceOutside isDigit EmptyString s = Spec.strip s.
Proof.
  unfold Spec.strip.
  induction s as [|c r IH]; simpl; [reflexivity|].
  rewrite <- isDigit_enumerated.
  destruct (isDigit c); simpl; now rewrite IH.
Qed.

Lemma digitPrefix_all (s : string) : allDigits s = true -> digitPrefix s = s.
Proof.
  induction s as [|c r IH]; simpl; [reflexivity|].
  intros H. apply andb_true_iff in H as [Hc Hr].
  now rewrite Hc, IH.
Qed.

Lemma digitsAcc_base10 (s : string) :
  allDigits s = true ->
  forall acc, digitsAcc acc s = (acc * 10 ^ Z.of_nat (String.length s) + Spec.base10 s)%Z.
Proof.
  induction s as [|c r IH]; simpl allDigits; intros H acc.
  - simpl. lia.
  - apply andb_true_iff in H as [Hc Hr].
    cbn [digitsAcc Spec.base10 String.length].
    rewrite (IH Hr), (digitValue_enumerated _ Hc).
    rewrite Nat2Z.inj_succ, Z.pow_succ_r by lia. ring.
Qed.

(** On a non-empty string of digits [parseInt] reads the whole string. *)
Lemma parseInt_digits (c : ascii) (r : string) :
  allDigits (String c r) = true ->
  parseInt (String c r) = Some (double (inject_Z (Spec.base10 (String c r)))).
Proof.
  intros H. pose proof H as H'. simpl in H'.
  apply andb_true_iff in H' as [Hc Hr].
  unfold parseInt. rewrite (@trimStart_digit c r Hc).
  assert (Hsign :
    (match String c r with
     | String "-" r0 => (true, r0)
     | String "+" r0 => (false, r0)
     | _ => (false, String c r)
     end) = (false, String c r)).
  { clear -Hc. each_ascii c; try discriminate Hc; reflexivity. }
  rewrite Hsign, (digitPrefix_all _ H).
  rewrite (digitsAcc_base10 _ H). do 3 f_equal.
Qed.

Lemma indexOf_nonneg (c : ascii) (l : list ascii) : (0 <= Spec.indexOf c l)%Z.
Proof.
  induction l as [|d l IH]; cbn [Spec.indexOf]; [lia|].
  destruct (Ascii.eqb c d); lia.
Qed.

Lemma base10_nonneg (s : string) : (0 <= Spec.base10 s)%Z.
Proof.
  induction s as [|c r IH]; cbn [Spec.base10]; [lia|].
  pose proof (indexOf_nonneg c Spec.asciiDigits).
  assert (0 <= 10 ^ Z.of_nat (String.length r))%Z by (apply Z.pow_nonneg; lia).
  nia.
Qed.

(** Below [2^53] nothing is rounded. *)
Lemma parseInt_digits_exact (c : ascii) (r : string) :
  allDigits (String c r) = true ->
  (Spec.base10 (String c r) < 2 ^ 53)%Z ->
  parseInt (String c r) = Some (inject_Z (Spec.base10 (String c r))).
Proof.
  intros H Hlt. rewrite (@parseInt_digits c r H). f_equal.
  apply DoubleFacts.double_whole.
  pose proof (base10_nonneg (String c r)). lia.
Qed.

End JSFacts.

Module NormalizerFacts.

Import JS ExtractionTypes JSFacts.
Local Open Scope string_scope.

(** What [parseCordPrice] computes: the double nearest to the integer the
    digits of the text denote. *)
Lemma parseCordPrice_double (input : option string) :
  parseCordPrice input = option_map double (Spec.normalize input).
Proof.
  destruct input as [s|]; [|reflexivity].
  unfold parseCordPrice, Spec.normalize.
  rewrite <- replaceOutside_strip.
  pose proof (replaceOutside_digits s) as Hall.
  destruct s as [|c r]; [reflexivity|].
  cbn [truthyStr negb].
  destruct (replaceOutside isDigit EmptyString (String c r)) as [|d ds] eqn:E.
  - reflexivity.
  - cbn [truthyStr option_map]. now apply parseInt_digits.
Qed.




End NormalizerFacts.

Module ReconciliationFacts.

Import JS ExtractionTypes.
Local Open Scope Q_scope.

Lemma gtb_lt (x y : number) : gtb x y = true <-> y < x.
Proof.
  unfold gtb. rewrite negb_true_iff.
  split; intros H.
  - apply Qnot_le_lt. intros Hle. apply Qle_bool_iff in Hle. congruence.
  - destruct (Qle_bool x y) eqn:E; [|reflexivity].
    apply Qle_bool_iff in E. now apply Qlt_not_le in H.
Qed.

Lemma gtb_le (x y : number) : gtb x y = false <-> x <= y.
Proof.
  unfold gtb. rewrite negb_false_iff. apply Qle_bool_iff.
Qed.

Lemma falsyNum_zero (n : number) : falsyNum n = true <-> n == 0.
Proof. apply Qeq_bool_iff. Qed.

Lemma gtb_compat (a a' b b' : Q) : a == a' -> b == b' -> gtb a b = gtb a' b'.
Proof.
  intros Ha Hb.
  destruct (gtb a b) eqn:E, (gtb a' b') eqn:E'; try reflexivity.
  - apply gtb_lt in E. apply gtb_le in E'.
    rewrite Ha, Hb in E. now apply Qlt_not_le in E.
  - apply gtb_le in E. apply gtb_lt in E'.
    rewrite Ha, Hb in E. now apply Qlt_not_le in E'.
Qed.

Lemma falsyNum_compat (a a' : Q) : a == a' -> falsyNum a = falsyNum a'.
Proof.
  intros H. unfold falsyNum.
  destruct (Qeq_bool a 0) eqn:E, (Qeq_bool a' 0) eqn:E'; try reflexivity.
  - apply Qeq_bool_iff in E. rewrite H in E. apply Qeq_bool_iff in E. congruence.
  - apply Qeq_bool_iff in E'. rewrite <- H in E'. apply Qeq_bool_iff in E'. congruence.
Qed.

Lemma orNum_expectedSubtotal (result : ExtractionResult) :
  orNum (subtotal (receipt (data result))) (totalAmount (receipt (data result)))
  = Spec.expectedSubtotal result.
Proof.
  unfold orNum, Spec.expectedSubtotal, truthyNum, falsyNum.
  destruct (subtotal (receipt (data result))) as [s|]; [|reflexivity].
  now destruct (Qeq_bool s 0).
Qed.

(** The three checks are independent: each contributes its own entry, in
    program order. *)
Lemma validate_shape (result : ExtractionResult) :
  let r := receipt (data result) in
  let sum := fold_left (fun sum item => addNum sum (totalPrice item)) (items (data result)) 0 in
  let expected := orNum (subtotal r) (totalAmount r) in
  validateExtractionResult result =
    ((if falsyNum (totalAmount r) then [TotalAmountRequired] else []) ++
     (if (List.length (items (data result)) =? 0)%nat then [LineItemRequired] else []) ++
     (if gtb (Qabs (subNum sum expected)) (mulNum expected (double 0.05))
      then [ItemsSumMismatch sum expected] else []))%list.
Proof.
  unfold validateExtractionResult, truthyNum. cbv zeta.
  rewrite negb_involutive.
  destruct (falsyNum _), (_ =? _)%nat, (gtb _ _); reflexivity.
Qed.

Lemma reportsMismatch_gtb (result : ExtractionResult) :
  let r := receipt (data result) in
  let sum := fold_left (fun sum item => addNum sum (totalPrice item)) (items (data result)) 0 in
  let expected := orNum (subtotal r) (totalAmount r) in
  Spec.reportsMismatch (validateExtractionResult result)
  = gtb (Qabs (subNum sum expected)) (mulNum expected (double 0.05)).
Proof.
  cbv zeta. rewrite validate_shape. cbv zeta. unfold Spec.reportsMismatch.
  rewrite !existsb_app.
  destruct (falsyNum _), (_ =? _)%nat, (gtb _ _); reflexivity.
Qed.

(** ** Whole amounts are not rounded *)

Lemma wholeAmount_spec (n : number) :
  Spec.wholeAmount n = true ->
  inject_Z (Qfloor n) == n /\ Qabs n <= inject_Z (2 ^ 50).
Proof.
  unfold Spec.wholeAmount. intros H. apply andb_true_iff in H as [Hw Hb].
  split; [now apply Qeq_bool_iff|now apply Qle_bool_iff].
Qed.

Lemma whole_plus (x y : Q) :
  inject_Z (Qfloor x) == x -> inject_Z (Qfloor y) == y ->
  inject_Z (Qfloor (x + y)) == x + y.
Proof.
  intros Hx Hy.
  assert (E : x + y == inject_Z (Qfloor x + Qfloor y))
    by (rewrite inject_Z_plus, Hx, Hy; reflexivity).
  now rewrite (Qfloor_comp _ _ E), Qfloor_Z.
Qed.

Lemma whole_opp (x : Q) :
  inject_Z (Qfloor x) == x -> inject_Z (Qfloor (- x)) == - x.
Proof.
  intros Hx.
  assert (E : - x == inject_Z (- Qfloor x))
    by (rewrite inject_Z_opp, Hx; reflexivity).
  now rewrite (Qfloor_comp _ _ E), Qfloor_Z.
Qed.

Lemma whole_abs (x : Q) :
  inject_Z (Qfloor x) == x -> inject_Z (Qfloor (Qabs x)) == Qabs x.
Proof.
  intros Hx. apply Qabs_case; intros _; [exact Hx|now apply whole_opp].
Qed.

(** A whole number below [2^53] in absolute value is a double. *)
Lemma double_integer (x : Q) :
  inject_Z (Qfloor x) == x -> Qabs x < inject_Z (2 ^ 53) -> double x == x.
Proof.
  intros Hw Hb. apply (@DoubleFacts.double_exact x (Qfloor x) 0).
  - change (2 ^ 0) with 1. rewrite Hw. ring.
  - rewrite Zlt_Qlt. rewrite <- Hw in Hb. exact Hb.
Qed.

(** The running sum of the [reduce] call: no step is rounded when the
    amounts are whole and their absolute values stay below [2^53]. *)
Lemma reduce_sum (l : list LineItem) (acc : Q) :
  inject_Z (Qfloor acc) == acc ->
  forallb (fun item => Spec.wholeAmount (totalPrice item)) l = true ->
  Qabs acc + fold_right Qplus 0 (map (fun item => Qabs (totalPrice item)) l)
    <= inject_Z (2 ^ 51) ->
  fold_left (fun sum item => addNum sum (totalPrice item)) l acc
  == acc + fold_right Qplus 0 (map totalPrice l).
Proof.
  revert acc. induction l as [|item l IH]; intros acc Hacc Hall Hb.
  - cbn. ring.
  - cbn [forallb] in Hall. apply andb_true_iff in Hall as [Hi Hall].
    apply wholeAmount_spec in Hi as [Hi _].
    cbn [fold_left map fold_right] in *.
    pose proof (Qabs_triangle acc (totalPrice item)) as Htri.
    assert (Hrest : 0 <= fold_right Qplus 0
                           (map (fun item => Qabs (totalPrice item)) l)).
    { clear. induction l as [|i l IH]; cbn; [lra|].
      pose proof (Qabs_nonneg (totalPrice i)). lra. }
    assert (Hstep : addNum acc (totalPrice item) == acc + totalPrice item).
    { apply double_integer; [now apply whole_plus|].
      assert (inject_Z (2 ^ 51) < inject_Z (2 ^ 53)) by reflexivity. lra. }
    rewrite IH.
    + rewrite Hstep. ring.
    + rewrite (Qfloor_comp _ _ Hstep), Hstep. now apply whole_plus.
    + exact Hall.
    + rewrite (Qabs_wd _ _ Hstep). lra.
Qed.

(** The tolerance check on whole amounts: rounding the difference and the
    5% product changes nothing.  The double nearest to 0.05 exceeds it by
    [0.05 * 2^-54]; for a whole [e] the product lies between [e / 20], an
    integer when 20 divides [e], and 63/64 above the integer part of
    [e / 20], and both bounds are doubles. *)
Lemma tolerance_whole (s e : Q) :
  inject_Z (Qfloor s) == s -> inject_Z (Qfloor e) == e ->
  Qabs s <= inject_Z (2 ^ 50) -> Qabs e <= inject_Z (2 ^ 50) ->
  gtb (Qabs (subNum s e)) (mulNum e (double 0.05)) = gtb (Qabs (s - e)) (e * 0.05).
Proof.
  intros Hs He Bs Be.
  assert (Hc : double 0.05 = 3602879701896397 # 72057594037927936)
    by (vm_compute; reflexivity).
  rewrite Hc. clear Hc.
  assert (B50 : inject_Z (2 ^ 50) == 1125899906842624) by reflexivity.
  assert (B53 : inject_Z (2 ^ 53) == 9007199254740992) by reflexivity.
  assert (Hd : subNum s e == s - e).
  { apply double_integer; [apply whole_plus; [exact Hs|now apply whole_opp]|].
    pose proof (Qabs_triangle s (- e)) as Htri. rewrite Qabs_opp in Htri.
    unfold Qminus. lra. }
  rewrite (gtb_compat (Qabs_wd _ _ Hd) (Qeq_refl _)).
  set (d := Qabs (s - e)).
  assert (Hdw : inject_Z (Qfloor d) == d)
    by (apply whole_abs, whole_plus; [exact Hs|now apply whole_opp]).
  assert (Hd0 : 0 <= d) by apply Qabs_nonneg.
  apply Qabs_Qle_condition in Be. destruct Be as [Bl Bu].
  set (t := mulNum e (3602879701896397 # 72057594037927936)).
  destruct (Qlt_le_dec e 0) as [Hneg|Hpos].
  - (* a negative amount: the tolerance is negative *)
    assert (Hz : (Qfloor e <= -1)%Z).
    { assert (Qfloor e < 0)%Z; [|lia]. rewrite Zlt_Qlt, He. exact Hneg. }
    assert (He1 : e <= -1).
    { rewrite <- He. change (-1) with (inject_Z (-1)). now rewrite <- Zle_Qle. }
    assert (Ht : t <= - (1 # 32)).
    { assert (E32 : double (- (1 # 32)) == - (1 # 32)) by (vm_compute; reflexivity).
      rewrite <- E32. unfold t, mulNum. apply DoubleFacts.double_mono. lra. }
    transitivity true; [apply gtb_lt; lra|symmetry; apply gtb_lt; lra].
  - set (m := (Qfloor e / 20)%Z).
    assert (Hm : (20 * m <= Qfloor e < 20 * m + 20)%Z).
    { unfold m. pose proof (Z.div_mod (Qfloor e) 20 ltac:(lia)).
      pose proof (Z.mod_pos_bound (Qfloor e) 20 ltac:(lia)). lia. }
    assert (Hlo : 20 * inject_Z m <= e).
    { rewrite <- He. change 20 with (inject_Z 20). rewrite <- inject_Z_mult, <- Zle_Qle. lia. }
    assert (Hhi : e <= 20 * inject_Z m + 19).
    { rewrite <- He. change 20 with (inject_Z 20). change 19 with (inject_Z 19).
      rewrite <- inject_Z_mult, <- inject_Z_plus, <- Zle_Qle. lia. }
    assert (Hmz : (0 <= m)%Z).
    { apply Z.div_pos; [|lia]. rewrite <- (Qfloor_Z 0). now apply Qfloor_resp_le. }
    assert (Hm0 : 0 <= inject_Z m).
    { change 0 with (inject_Z 0). now rewrite <- Zle_Qle. }
    assert (Htl : inject_Z m <= t).
    { assert (E : double (inject_Z m) == inject_Z m).
      { apply double_integer; [now rewrite Qfloor_Z|].
        rewrite Qabs_pos by exact Hm0. lra. }
      rewrite <- E. unfold t, mulNum. apply DoubleFacts.double_mono. lra. }
    assert (Hth : t <= inject_Z m + (63 # 64)).
    { assert (E : double (inject_Z m + (63 # 64)) == inject_Z m + (63 # 64)).
      { apply (@DoubleFacts.double_exact _ (64 * m + 63) (-6)).
        - change (2 ^ (-6)) with (1 # 64). rewrite inject_Z_plus, inject_Z_mult.
          change (inject_Z 64) with 64. change (inject_Z 63) with 63. lra.
        - assert (20 * m <= 2 ^ 50)%Z.
          { rewrite Zle_Qle, inject_Z_mult. change (inject_Z 20) with 20. lra. }
          lia. }
      rewrite <- E. unfold t, mulNum. apply DoubleFacts.double_mono. lra. }
    destruct (Z_le_gt_dec (Qfloor d) m) as [Hle|Hgt].
    + assert (Hdm : d <= inject_Z m) by (rewrite <- Hdw, <- Zle_Qle; exact Hle).
      transitivity false; [apply gtb_le; lra|symmetry; apply gtb_le; lra].
    + assert (Hdm : inject_Z m + 1 <= d).
      { rewrite <- Hdw. change 1 with (inject_Z 1).
        rewrite <- inject_Z_plus, <- Zle_Qle. lia. }
      transitivity true; [apply gtb_lt; lra|symmetry; apply gtb_lt; lra].
Qed.

Lemma wholeAmounts_spec (result : ExtractionResult) :
  Spec.wholeAmounts result = true ->
  Spec.wholeAmount (totalAmount (receipt (data result))) = true /\
  (forall s, subtotal (receipt (data result)) = Some s -> Spec.wholeAmount s = true) /\
  forallb (fun item => Spec.wholeAmount (totalPrice item)) (items (data result)) = true /\
  fold_right Qplus 0 (map (fun item => Qabs (totalPrice item)) (items (data result)))
    <= inject_Z (2 ^ 50).
Proof.
  unfold Spec.wholeAmounts. intros H.
  apply andb_true_iff in H as [H Hsum]. apply andb_true_iff in H as [H Hitems].
  apply andb_true_iff in H as [Ht Hs].
  repeat split; try assumption.
  - intros s E. now rewrite E in Hs.
  - now apply Qle_bool_iff.
Qed.

Lemma wholeAmounts_expected (result : ExtractionResult) :
  Spec.wholeAmounts result = true ->
  Spec.wholeAmount (Spec.expectedSubtotal result) = true.
Proof.
  intros H. apply wholeAmounts_spec in H as (Ht & Hs & _).
  unfold Spec.expectedSubtotal.
  destruct (subtotal (receipt (data result))) as [s|]; [|exact Ht].
  destruct (Qeq_bool s 0); [exact Ht|now apply Hs].
Qed.

(** On whole amounts the running sum is the sum of the prices. *)
Lemma wholeAmounts_sum (result : ExtractionResult) :
  Spec.wholeAmounts result = true ->
  fold_left (fun sum item => addNum sum (totalPrice item)) (items (data result)) 0
    == Spec.itemsSum result /\
  inject_Z (Qfloor (Spec.itemsSum result)) == Spec.itemsSum result /\
  Qabs (Spec.itemsSum result) <= inject_Z (2 ^ 50).
Proof.
  intros H. apply wholeAmounts_spec in H as (_ & _ & Hall & Hb).
  unfold Spec.itemsSum.
  assert (B : inject_Z (2 ^ 50) <= inject_Z (2 ^ 51)) by (rewrite <- Zle_Qle; lia).
  split; [|split].
  - rewrite reduce_sum; [ring|reflexivity|exact Hall|].
    change (Qabs 0) with 0. lra.
  - clear Hb B. induction (items (data result)) as [|i l IH]; [reflexivity|].
    cbn [forallb] in Hall. apply andb_true_iff in Hall as [Hi Hall].
    apply wholeAmount_spec in Hi as [Hi _].
    cbn [map fold_right]. apply whole_plus; [exact Hi|now apply IH].
  - eapply Qle_trans; [|exact Hb]. clear.
    induction (items (data result)) as [|i l IH]; [cbn; lra|].
    cbn [map fold_right].
    eapply Qle_trans; [apply Qabs_triangle|]. lra.
Qed.

(** On whole amounts the validator's comparison is the exact one. *)
Lemma tolerance_code (result : ExtractionResult) :
  Spec.wholeAmounts result = true ->
  let r := receipt (data result) in
  let sum := fold_left (fun sum item => addNum sum (totalPrice item)) (items (data result)) 0 in
  let expected := orNum (subtotal r) (totalAmount r) in
  gtb (Qabs (subNum sum expected)) (mulNum expected (double 0.05))
  = gtb (Qabs (Spec.itemsSum result - Spec.expectedSubtotal result))
        (0.05 * Spec.expectedSubtotal result).
Proof.
  intros H. cbv zeta. rewrite orNum_expectedSubtotal.
  destruct (@wholeAmounts_sum result H) as (Hsum & Hsw & Hsb).
  destruct (@wholeAmount_spec _ (@wholeAmounts_expected result H)) as [Hew Heb].
  assert (E : subNum (fold_left (fun sum item => addNum sum (totalPrice item))
                     (items (data result)) 0) (Spec.expectedSubtotal result)
              = subNum (Spec.itemsSum result) (Spec.expectedSubtotal result)).
  { unfold subNum. apply DoubleFacts.double_comp. now rewrite Hsum. }
  rewrite E, (@tolerance_whole _ _ Hsw Hew Hsb Heb).
  apply gtb_compat; [reflexivity|apply Qmult_comm].
Qed.

Lemma mismatch_iff (result : ExtractionResult) :
  Spec.wholeAmounts result = true ->
  (Spec.reportsMismatch (validateExtractionResult result) = true <->
   Spec.outOfTolerance (Spec.itemsSum result) (Spec.expectedSubtotal result)).
Proof.
  intros H. rewrite reportsMismatch_gtb. cbv zeta.
  pose proof (@tolerance_code result H) as E. cbv zeta in E. rewrite E.
  apply gtb_lt.
Qed.







Lemma required_iff (result : ExtractionResult) :
  In TotalAmountRequired (validateExtractionResult result) <->
  totalAmount (receipt (data result)) == 0.
Proof.
  rewrite validate_shape. cbv zeta. rewrite <- falsyNum_zero.
  destruct (falsyNum _), (_ =? _)%nat, (gtb _ _); cbn [app In];
    intuition (discriminate || congruence).
Qed.

Lemma required_first (result : ExtractionResult) :
  totalAmount (receipt (data result)) == 0 ->
  hd_error (validateExtractionResult result) = Some TotalAmountRequired.
Proof.
  intros H. apply falsyNum_zero in H.
  rewrite validate_shape. cbv zeta. now rewrite H.
Qed.

(** C4, as stated, fails: a total amount that is present but not positive
    (here -5, next to a subtotal of 10 matched by the items) passes the
    validator without any entry. *)
Lemma negative_total_accepted :
  ~ 0 < totalAmount (receipt (data Examples.negativeTotal)) /\
  validateExtractionResult Examples.negativeTotal = [].
Proof.
  split; [|reflexivity]. vm_compute. discriminate.
Qed.

(** C4, amended.  The validator requires the total amount to be present and
    not zero: the entry "Total amount is required" is recorded exactly when
    the total amount is zero, which is how a missing total reaches it.  The
    entry does not depend on the line items or on the subtotal, it is the
    first one of the list, and a ground truth record without a total price
    is reported in this way after conversion. *)
Theorem total_amount_required :
  (forall result,
     In TotalAmountRequired (validateExtractionResult result) <->
     totalAmount (receipt (data result)) == 0) /\
  (forall result l sub,
     totalAmount (receipt (data result)) == 0 ->
     hd_error (validateExtractionResult (Spec.withItems l (Spec.withSubtotal sub result)))
     = Some TotalAmountRequired) /\
  (forall gtParse,
     parseCordPrice (optChain (total gtParse) total_price) = None ->
     hd_error (validateExtractionResult (cordToExtractionResult gtParse))
     = Some TotalAmountRequired).
Proof.
  split; [exact required_iff|]. split.
  - intros result l sub H. now apply required_first.
  - intros g H. apply required_first. cbn. rewrite H. reflexivity.
Qed.

Lemma total_amount_required_witness :
  hd_error (validateExtractionResult
              (Spec.withItems [Examples.item "Sate" 98]
                 (Spec.withSubtotal (Some 98) (Examples.resultOf None 0 []))))
    = Some TotalAmountRequired /\
  hd_error (validateExtractionResult (cordToExtractionResult Examples.noTotal))
    = Some TotalAmountRequired.
Proof.
  split.
  - apply (proj1 (proj2 total_amount_required)). reflexivity.
  - apply (proj2 (proj2 total_amount_required)). reflexivity.
Defined.

End ReconciliationFacts.

Module AssemblerFacts.

Import JS ExtractionTypes.
Local Open Scope Q_scope.

Lemma truthyOptNum_present (amount : option number) :
  truthyOptNum amount = true <-> Spec.presentNonZero amount.
Proof.
  unfold Spec.presentNonZero, truthyOptNum, truthyNum, falsyNum.
  destruct amount as [n|].
  - rewrite negb_true_iff. split.
    + intros H. exists n. split; [reflexivity|].
      intros E. apply Qeq_bool_iff in E. congruence.
    + intros [m [[= <-] Hm]].
      destruct (Qeq_bool n 0) eqn:E; [|reflexivity].
      apply Qeq_bool_iff in E. contradiction.
  - split; [discriminate|]. intros [m [H _]]. discriminate H.
Qed.

Lemma truthyOptNum_absent (amount : option number) :
  truthyOptNum amount = false <-> ~ Spec.presentNonZero amount.
Proof.
  rewrite <- truthyOptNum_present. destruct (truthyOptNum amount); intuition congruence.
Qed.

(** C5.  The payment method of a converted ground truth record is [mixed]
    when both the cash amount and the card amount are present and non-zero,
    [cash] when only the cash amount is, [card] when only the card amount
    is, and [other] when neither is. *)
Theorem payment_method_inferred (gtParse : CordGtParse) :
  let r := receipt (data (cordToExtractionResult gtParse)) in
  cashPaid r = parseCordPrice (optChain (total gtParse) cashprice) /\
  cardPaid r = parseCordPrice (optChain (total gtParse) creditcardprice) /\
  (paymentMethod r = mixed <->
     Spec.presentNonZero (cashPaid r) /\ Spec.presentNonZero (cardPaid r)) /\
  (paymentMethod r = cash <->
     Spec.presentNonZero (cashPaid r) /\ ~ Spec.presentNonZero (cardPaid r)) /\
  (paymentMethod r = card <->
     ~ Spec.presentNonZero (cashPaid r) /\ Spec.presentNonZero (cardPaid r)) /\
  (paymentMethod r = other <->
     ~ Spec.presentNonZero (cashPaid r) /\ ~ Spec.presentNonZero (cardPaid r)).
Proof.
  cbn.
  set (cashP := parseCordPrice (optChain (total gtParse) cashprice)).
  set (cardP := parseCordPrice (optChain (total gtParse) creditcardprice)).
  split; [reflexivity|]. split; [reflexivity|].
  rewrite <- !truthyOptNum_absent, <- !truthyOptNum_present.
  destruct (truthyOptNum cashP), (truthyOptNum cardP); cbn;
    repeat split; intros; try discriminate; try reflexivity;
    intuition discriminate.
Qed.

Lemma payment_method_inferred_witness :
  paymentMethod (receipt (data (cordToExtractionResult Examples.splitPayment))) = mixed.
Proof.
  apply (payment_method_inferred Examples.splitPayment).
  split.
  - exists (inject_Z 20000). split; [reflexivity | vm_compute; discriminate].
  - exists (inject_Z 30000). split; [reflexivity | vm_compute; discriminate].
Defined.

End AssemblerFacts.

Module ClassifierFacts.

Import JS Store AuditorChat.
Import JSFacts.
Local Open Scope string_scope.

Lemma lowerChar_idempotent (c : ascii) : lowerChar (lowerChar c) = lowerChar c.
Proof. each_ascii c; reflexivity. Qed.

Lemma toLowerCase_idempotent (s : string) : toLowerCase (toLowerCase s) = toLowerCase s.
Proof.
  induction s as [|c r IH]; simpl; [reflexivity|].
  now rewrite lowerChar_idempotent, IH.
Qed.

(** Lower-casing the question first does not change what a pattern with the
    flag [i] finds in it. *)
Lemma test_lowered (p : Pattern) (s : string) : test p (toLowerCase s) = test p s.
Proof. unfold test. now rewrite toLowerCase_idempotent. Qed.

Lemma nonZeroThreshold_truthy (t : option number) :
  Spec.nonZeroThreshold t = truthyOptNum t.
Proof. now destruct t. Qed.

Ltac lower_tests q :=
  rewrite (test_lowered QUERY_PATTERNS.count q),
          (test_lowered QUERY_PATTERNS.flagged q),
          (test_lowered QUERY_PATTERNS.total_spending q),
          (test_lowered QUERY_PATTERNS.high_value q),
          (test_lowered QUERY_PATTERNS.low_value q),
          (test_lowered QUERY_PATTERNS.payment_method q),
          (test_lowered QUERY_PATTERNS.tax q),
          (test_lowered QUERY_PATTERNS.audit q).

Ltac case_signals q :=
  destruct (test QUERY_PATTERNS.count q),
           (test QUERY_PATTERNS.flagged q),
           (test QUERY_PATTERNS.total_spending q),
           (test QUERY_PATTERNS.high_value q),
           (test QUERY_PATTERNS.low_value q),
           (test QUERY_PATTERNS.payment_method q),
           (test QUERY_PATTERNS.tax q),
           (test QUERY_PATTERNS.audit q),
           (truthyOptNum (extractNumber q)).

Lemma parseQuery_intent (q : string) :
  intent (parseQuery q) = Spec.label (Spec.classify Spec.nonZeroThreshold q).
Proof.
  unfold parseQuery, Spec.classify, Spec.signals. cbv zeta.
  lower_tests q.
  change (Spec.nonZeroThreshold (extractNumber q)) with (truthyOptNum (extractNumber q)).
  case_signals q; reflexivity.
Qed.

Lemma parseQuery_payment (q : string) :
  Spec.classify Spec.nonZeroThreshold q = Spec.payment_breakdown ->
  sql (parseQuery q) = Spec.paymentQuery q.
Proof.
  unfold parseQuery, Spec.classify, Spec.signals, Spec.paymentQuery. cbv zeta.
  lower_tests q.
  change (Spec.nonZeroThreshold (extractNumber q)) with (truthyOptNum (extractNumber q)).
  case_signals q; cbn; intros H; try discriminate H; reflexivity.
Qed.

Lemma parseQuery_template (q : string) : In (sql (parseQuery q)) Spec.templates.
Proof.
  unfold parseQuery. cbv zeta. lower_tests q.
  case_signals q; cbn [sql andb negb];
    try destruct (includes "cash" (toLowerCase q));
    try destruct (includes "card" (toLowerCase q));
    unfold Spec.templates; cbn [In]; tauto.
Qed.

Lemma parseQuery_params (q : string) :
  params (parseQuery q) = [] \/
  (params (parseQuery q) = [extractNumber q] /\
   includes "?" (sql (parseQuery q)) = true).
Proof.
  unfold parseQuery. cbv zeta. lower_tests q.
  case_signals q; cbn [params sql andb negb];
    solve [ now left | right; split; reflexivity ].
Qed.

(** C3, as stated, fails: "receipts above 0" carries the threshold 0 and a
    high-value word, so the stated cascade answers [high_value]; the route
    answers [list_receipts], because a threshold of zero counts as none. *)
Lemma above_zero_is_listed :
  extractNumber "receipts above 0" = Some (inject_Z 0) /\
  Spec.classify Spec.anyThreshold "receipts above 0" = Spec.high_value /\
  intent (parseQuery "receipts above 0") = "list_receipts".
Proof. repeat split; reflexivity. Qed.

(** C3, amended.  The intent of a question is the first match of the
    cascade count+flagged, count, total_spending without high/low, flagged,
    high_value with a non-zero threshold, low_value with a non-zero
    threshold, payment_method, tax, audit, and [list_receipts] when nothing
    matches; a payment question is answered by the cash query, else the card
    query, else the grouped one, according to the words "cash" and "card";
    and "how many flagged receipts are there" is [count_flagged]. *)
Theorem intent_cascade :
  (forall question,
     intent (parseQuery question)
     = Spec.label (Spec.classify Spec.nonZeroThreshold question)) /\
  (forall question,
     Spec.classify Spec.nonZeroThreshold question = Spec.payment_breakdown ->
     sql (parseQuery question) = Spec.paymentQuery question) /\
  Spec.classify Spec.nonZeroThreshold "how many flagged receipts are there"
    = Spec.count_flagged /\
  intent (parseQuery "how many flagged receipts are there") = "count_flagged".
Proof.
  split; [exact parseQuery_intent|].
  split; [exact parseQuery_payment|].
  split; reflexivity.
Qed.

Lemma intent_cascade_witness :
  sql (parseQuery "Find receipts paid by card") = SQL_payment_card.
Proof.
  transitivity (Spec.paymentQuery "Find receipts paid by card"); [|reflexivity].
  apply intent_cascade. reflexivity.
Defined.

(** C7.  "Show receipts above 50000" is classified as high value with the
    threshold 50000; its query is the fixed high-value template, which
    keeps the rows with [total_amount > ?], orders them by total amount,
    descending, and stops at 20 rows; the threshold is not part of the query
    text but its one bound parameter, and this is what the route hands to
    the store.  No query text is ever built from the question. *)
Theorem high_value_scenario :
  let question := "Show receipts above 50000" in
  let q := parseQuery question in
  Spec.classify Spec.nonZeroThreshold question = Spec.high_value /\
  intent q = "high_value_receipts" /\
  extractNumber question = Some (inject_Z 50000) /\
  sql q = SQL_high_value_receipts /\
  params q = [Some (inject_Z 50000)] /\
  includes "WHERE r.total_amount > ?" (sql q) = true /\
  includes "ORDER BY r.total_amount DESC" (sql q) = true /\
  includes "LIMIT 20" (sql q) = true /\
  includes "50000" (sql q) = false /\
  hd_error (fst (POST (host := Examples.sampleHost) Examples.emptyStore
                   (Examples.ask question)))
    = Some (Query SQL_high_value_receipts [Some (inject_Z 50000)]) /\
  (forall question, In (sql (parseQuery question)) Spec.templates) /\
  (forall question,
     params (parseQuery question) = [] \/
     (params (parseQuery question) = [extractNumber question] /\
      includes "?" (sql (parseQuery question)) = true)).
Proof.
  cbv zeta.
  do 10 (split; [vm_compute; reflexivity|]).
  split; [exact parseQuery_template | exact parseQuery_params].
Qed.

End ClassifierFacts.

Module ListFacts.

Import Spec.

Lemma Subsequence_refl {A} (l : list A) : Subsequence l l.
Proof. induction l; constructor; assumption. Qed.

Lemma Subsequence_trans {A} (l m n : list A) :
  Subsequence l m -> Subsequence m n -> Subsequence l n.
Proof.
  intros Hlm Hmn. revert l Hlm.
  induction Hmn as [|x m n Hmn IH|x m n Hmn IH]; intros l Hlm.
  - exact Hlm.
  - constructor. now apply IH.
  - inversion Hlm; subst.
    + constructor. now apply IH.
    + apply sub_keep. now apply IH.
Qed.

Lemma Subsequence_firstn {A} (n : nat) (l : list A) : Subsequence (firstn n l) l.
Proof.
  revert n. induction l as [|x l IH]; intros [|n]; simpl.
  - constructor.
  - constructor.
  - constructor. apply (IH 0%nat).
  - apply sub_keep. apply IH.
Qed.

Lemma Subsequence_filter_map {A B} (f : A -> B) (p : A -> bool) (l : list A) :
  Subsequence (map f (filter p l)) (map f l).
Proof.
  induction l as [|x l IH]; simpl; [constructor|].
  destruct (p x); simpl; constructor; exact IH.
Qed.

Lemma In_firstn {A} (n : nat) (l : list A) (x : A) : In x (firstn n l) -> In x l.
Proof.
  revert n. induction l as [|y l IH]; intros [|n]; simpl; try tauto.
  intros [H|H]; [now left|right; now apply (IH n)].
Qed.

Lemma nth_error_firstn_lt {A} (n k : nat) (l : list A) :
  (k < n)%nat -> nth_error (firstn n l) k = nth_error l k.
Proof.
  revert n k. induction l as [|y l IH]; intros [|n] [|k] H; simpl;
    try reflexivity; try lia.
  apply IH. lia.
Qed.

(** What any list [referenced carries rows] satisfies. *)
Lemma referenced_properties (carries : Store.Row -> bool) (rows : list Store.Row) :
  (List.length (referenced carries rows) <= 20)%nat /\
  Subsequence (referenced carries rows) (identifiers rows) /\
  (forall v, In v (referenced carries rows) ->
     exists r, In r rows /\ Store.field "id" r = v /\ carries r = true) /\
  (forall k r, nth_error (filter carries rows) k = Some r -> (k < 20)%nat ->
     nth_error (referenced carries rows) k = Some (Store.field "id" r)).
Proof.
  unfold referenced, identifiers. repeat split.
  - apply firstn_le_length.
  - eapply Subsequence_trans; [apply Subsequence_firstn|].
    apply Subsequence_filter_map.
  - intros v Hv. apply In_firstn in Hv. apply in_map_iff in Hv as [r [Hr Hin]].
    apply filter_In in Hin as [Hin Hc]. now exists r.
  - intros k r Hk Hlt. rewrite nth_error_firstn_lt by exact Hlt.
    now rewrite nth_error_map, Hk.
Qed.

End ListFacts.

Module ChatFacts.

Import JS Store AuditorChat.
Local Open Scope string_scope.

Lemma chat_extractReferenced_referenced (rows : list Row) :
  extractReferenced rows = Spec.referenced Spec.carriesId rows.
Proof. reflexivity. Qed.

(** A successful answer of the route comes from its last step: the query
    was run, its rows formatted, and the two messages stored. *)
Lemma chat_POST_answer {host : Host} (env : Env) (request : Exn + ChatRequest)
      (ops : list DbOp) (reply : Reply) :
  POST env request = (ops, {| status := 200; body := Answer reply |}) ->
  exists question rows userId assistantId,
    all env (sql (parseQuery question)) (params (parseQuery question)) = inr rows /\
    generateResponse (intent (parseQuery question)) rows question
      = inr (reply_message reply) /\
    referencedReceipts reply = extractReferenced rows /\
    resultCount reply = List.length rows /\
    ops = [ Query (sql (parseQuery question)) (params (parseQuery question));
            InsertChatMessage userId (reply_sessionId reply) "user" question None;
            InsertChatMessage assistantId (reply_sessionId reply) "assistant"
              (reply_message reply) (Some (referencedReceipts reply)) ].
Proof.
  unfold POST, handle, bind, lift, exec, execRun, ret.
  destruct request as [e|body]; [discriminate|].
  destruct (sessionId body) as [sid|];
    (destruct (truthyOptStr (message body)); cbn [negb]; [|discriminate];
     set (question := orStr (message body) EmptyString);
     destruct (all env (sql (parseQuery question)) (params (parseQuery question)))
       as [e|rows] eqn:Hall; [discriminate|];
     destruct (generateResponse (intent (parseQuery question)) rows question)
       as [e|text] eqn:Hgen; [discriminate|];
     destruct (run env _) as [e|]; [discriminate|];
     destruct (run env _) as [e|]; [discriminate|];
     intros [= <- <-]; exists question, rows; cbn;
     do 2 eexists; repeat split; try eassumption; reflexivity).
Qed.

(** C8.  For every intent the formatter answers an empty result set with
    the one fixed sentence, never with a listing, and the referenced receipt
    list of an empty result set is empty; hence, for a question whose query
    finds no row, every answer of the route carries that sentence, an empty
    reference list and the count 0, and this is the response, with status
    200, when the store accepts the two messages. *)
Theorem empty_result_answer :
  (forall (host : Host) intent query,
     generateResponse intent [] query = inr Spec.noResults) /\
  extractReferenced [] = [] /\
  (forall (host : Host) env request question,
     message request = Some question ->
     truthyStr question = true ->
     all env (sql (parseQuery question)) (params (parseQuery question)) = inr [] ->
     (forall reply,
        body (snd (POST env (inr request))) = Answer reply ->
        reply_message reply = Spec.noResults /\
        referencedReceipts reply = [] /\
        resultCount reply = 0%nat) /\
     ((forall op, run env op = None) ->
      exists session,
        snd (POST env (inr request)) =
        {| status := 200;
           body := Answer {| reply_sessionId := session;
                             reply_message := Spec.noResults;
                             reply_intent := intent (parseQuery question);
                             referencedReceipts := [];
                             resultCount := 0 |} |})).
Proof.
  split; [reflexivity|]. split; [reflexivity|].
  intros host env request question Hmsg Htruthy Hall.
  unfold POST, handle, bind, lift, exec, execRun, ret.
  rewrite Hmsg. cbn [truthyOptStr orStr]. rewrite Htruthy. cbn [negb].
  split.
  - intros reply.
    destruct (sessionId request) as [sid|]; rewrite Hall; cbn;
      (destruct (run env _) as [e|]; cbn; [discriminate|]);
      (destruct (run env _) as [e|]; cbn; [discriminate|]);
      intros [= <-]; repeat split.
  - intros Hrun.
    destruct (sessionId request) as [sid|]; rewrite Hall; cbn;
      rewrite !Hrun; cbn; eexists; reflexivity.
Qed.

Lemma empty_result_answer_witness :
  exists session,
    snd (POST (host := Examples.sampleHost) Examples.emptyStore
           (Examples.ask "Which receipts are flagged?")) =
    {| status := 200;
       body := Answer {| reply_sessionId := session;
                         reply_message := Spec.noResults;
                         reply_intent := "flagged_receipts";
                         referencedReceipts := [];
                         resultCount := 0 |} |}.
Proof.
  apply (proj2 (proj2 (proj2 empty_result_answer) Examples.sampleHost Examples.emptyStore
                  {| message := Some "Which receipts are flagged?";
                     sessionId := Some "session-1" |}
                  "Which receipts are flagged?" eq_refl eq_refl eq_refl));
    reflexivity.
Defined.

End ChatFacts.

Module SqlRouteFacts.

Import JS Store AuditorSql.
Local Open Scope string_scope.

Lemma orStr_empty (s : string) : orStr (Some s) EmptyString = s.
Proof. now destruct s. Qed.

(** What [generateSQL] makes of a text the model returned. *)
Lemma generateSQL_text {host : Host} (env : Env) (question text : string) :
  fetch env (Spec.generationUrl env) (Spec.generationRequest env question)
    = Responded true (inr (Some text)) ->
  generateSQL env question =
    if Spec.beginsWithSelect (Spec.withoutFences text)
    then Some (Spec.withoutFences text) else None.
Proof.
  unfold generateSQL, Spec.generationUrl, Spec.generationRequest.
  intros ->. cbn [negb option_map]. rewrite orStr_empty.
  unfold Spec.beginsWithSelect, Spec.withoutFences.
  now destruct (startsWith "select" _).
Qed.

(** Without a query the route answers at once, and touches nothing. *)
Lemma POST_refusal {host : Host} (env : Env) (request : ChatRequest) (question : string) :
  message request = Some question ->
  truthyStr question = true ->
  generateSQL env question = None ->
  POST env (inr request) =
    ([], {| status := 200;
            body := Refusal (match sessionId request with
                             | Some s => s
                             | None => uuidv4 env 0
                             end)
                      Spec.apology None Spec.generationError |}).
Proof.
  intros Hmsg Htruthy Hgen.
  unfold POST, handle, bind, lift, exec, ret.
  rewrite Hmsg. cbn [truthyOptStr orStr]. rewrite Htruthy. cbn [negb].
  destruct (sessionId request); rewrite Hgen; reflexivity.
Qed.

Lemma filterCord_filter (rows kept : list Row) :
  filterCord rows = inr kept -> kept = filter Spec.carriesCordId rows.
Proof.
  revert kept. induction rows as [|r rows IH]; intros kept.
  - now intros [= <-].
  - cbn [filterCord filter]. unfold Spec.carriesCordId.
    destruct (field "id" r) as [[|n|s]|].
    + destruct (filterCord rows); [discriminate|]. intros [= <-]. now apply IH.
    + destruct (truthyNum n); [discriminate|].
      destruct (filterCord rows); [discriminate|]. intros [= <-]. now apply IH.
    + destruct (filterCord rows) as [|l]; [discriminate|].
      replace (truthyStr s && startsWith "cord_" s) with (startsWith "cord_" s)
        by now destruct s.
      destruct (startsWith "cord_" s); intros [= <-]; now rewrite (IH l).
    + destruct (filterCord rows); [discriminate|]. intros [= <-]. now apply IH.
Qed.

Lemma sql_extractReferenced_referenced (rows : list Row) (refs : list (option Value)) :
  extractReferenced rows = inr refs ->
  refs = Spec.referenced Spec.carriesCordId rows.
Proof.
  unfold extractReferenced.
  destruct (filterCord rows) as [|kept] eqn:E; [discriminate|].
  intros [= <-]. now rewrite (filterCord_filter _ E).
Qed.

(** A successful answer of the route comes from its last step. *)
Lemma sql_POST_answer {host : Host} (env : Env) (request : Exn + ChatRequest)
      (ops : list DbOp) session text sql refs count :
  POST env request
    = (ops, {| status := 200; body := Answer session text sql refs count |}) ->
  exists question rows userId assistantId,
    generateSQL env question = Some sql /\
    all env sql = inr rows /\
    extractReferenced rows = inr refs /\
    count = List.length rows /\
    ops = [ Query sql [];
            InsertChatMessage userId session "user" question None;
            InsertChatMessage assistantId session "assistant" text (Some refs) ].
Proof.
  unfold POST, handle, bind, lift, exec, execRun, ret.
  destruct request as [e|body]; [discriminate|].
  destruct (sessionId body) as [sid|];
    (destruct (truthyOptStr (message body)); cbn [negb]; [|discriminate];
     set (question := orStr (message body) EmptyString);
     destruct (generateSQL env question) as [q|] eqn:Hgen; [|discriminate];
     destruct (all env q) as [e|rows] eqn:Hall; [discriminate|];
     destruct (extractReferenced rows) as [e|l] eqn:Href; [discriminate|];
     destruct (run env _) as [e|]; [discriminate|];
     destruct (run env _) as [e|]; [discriminate|];
     intros [= <- <- <- <- <- <-]; exists question, rows; cbn;
     do 2 eexists; repeat split; try eassumption; reflexivity).
Qed.

(** C6.  The text the model returns is accepted exactly when, once the code
    fences and the white space around it are stripped (a no-break space or
    an ideographic space as well as a blank), it begins with "select" in any
    letter case, and is then the query; otherwise there is no query, nothing
    is run against the store, and the route answers with status 200, the
    fixed apology, no query and the explicit error. *)
Theorem model_text_must_begin_with_select :
  (forall (host : Host) env question text,
     fetch env (Spec.generationUrl env) (Spec.generationRequest env question)
       = Responded true (inr (Some text)) ->
     generateSQL env question =
       if Spec.beginsWithSelect (Spec.withoutFences text)
       then Some (Spec.withoutFences text) else None) /\
  (forall (host : Host) env request question text,
     message request = Some question ->
     truthyStr question = true ->
     fetch env (Spec.generationUrl env) (Spec.generationRequest env question)
       = Responded true (inr (Some text)) ->
     Spec.beginsWithSelect (Spec.withoutFences text) = false ->
     POST env (inr request) =
       ([], {| status := 200;
               body := Refusal (match sessionId request with
                                | Some s => s
                                | None => uuidv4 env 0
                                end)
                         Spec.apology None Spec.generationError |})) /\
  (forall (host : Host) env request question,
     message request = Some question ->
     truthyStr question = true ->
     generateSQL env question = None ->
     POST env (inr request) =
       ([], {| status := 200;
               body := Refusal (match sessionId request with
                                | Some s => s
                                | None => uuidv4 env 0
                                end)
                         Spec.apology None Spec.generationError |})) /\
  Spec.withoutFences
    ("```SQL" ++ nl ++ "Select COUNT(*) FROM receipts" ++ nl ++ "```" ++ nl)
    = "Select COUNT(*) FROM receipts" /\
  Spec.beginsWithSelect "Select COUNT(*) FROM receipts" = true /\
  Spec.beginsWithSelect (Spec.withoutFences "I cannot help with that") = false /\
  Spec.withoutFences (Examples.nbsp ++ "SELECT 1" ++ Examples.ideographicSpace)
    = "SELECT 1".
Proof.
  split; [intros host env question text; apply generateSQL_text|].
  split; [|split].
  - intros host env request question text Hmsg Htruthy Hfetch Hsel.
    apply (POST_refusal env request Hmsg Htruthy).
    rewrite (generateSQL_text env question Hfetch). now rewrite Hsel.
  - intros host env request question. apply POST_refusal.
  - repeat split; reflexivity.
Qed.

Lemma model_text_must_begin_with_select_witness :
  POST (host := Examples.sampleHost)
       (Examples.modelSaying "I cannot help with that" Examples.threeRows)
       (Examples.askModel "Delete every receipt") =
    ([], {| status := 200;
            body := Refusal "session-1" Spec.apology None Spec.generationError |}).
Proof.
  apply (proj1 (proj2 model_text_must_begin_with_select) Examples.sampleHost
           (Examples.modelSaying "I cannot help with that" Examples.threeRows)
           {| message := Some "Delete every receipt"; sessionId := Some "session-1" |}
           "Delete every receipt" "I cannot help with that");
    reflexivity.
Defined.

End SqlRouteFacts.

Module ReferencedFacts.

Import JS Store.
Local Open Scope string_scope.

(** C9, as stated, fails on the model assisted route: a row whose
    identifier does not start with [cord_] (an uploaded receipt) carries an
    identifier, yet contributes nothing to the reference list. *)
Lemma uploaded_receipt_not_referenced :
  Spec.carriesId Examples.uploadedRow = true /\
  AuditorSql.extractReferenced [Examples.uploadedRow] = inr [] /\
  exists text,
    snd (AuditorSql.POST (host := Examples.sampleHost)
           (Examples.modelSaying "SELECT r.id, r.total_amount FROM receipts r"
              [Examples.uploadedRow])
           (Examples.askModel "List the receipts")) =
    {| AuditorSql.status := 200;
       AuditorSql.body :=
         AuditorSql.Answer "session-1" text
           "SELECT r.id, r.total_amount FROM receipts r" [] 1 |}.
Proof.
  split; [reflexivity|]. split; [reflexivity|].
  eexists. vm_compute. reflexivity.
Qed.

(** C9, amended.  On the rule based route every row whose identifier is
    truthy contributes it, on the model assisted route every row whose
    identifier starts with [cord_] does; in both the list holds at most 20
    identifiers, in result order, each taken from a row of the result set,
    and the first 20 contributing rows are all there.  The list stored with
    the assistant message is the list of the response. *)
Theorem referenced_receipts :
  (forall rows,
     AuditorChat.extractReferenced rows = Spec.referenced Spec.carriesId rows) /\
  (forall rows refs,
     AuditorSql.extractReferenced rows = inr refs ->
     refs = Spec.referenced Spec.carriesCordId rows) /\
  (forall carries rows,
     (List.length (Spec.referenced carries rows) <= 20)%nat /\
     Spec.Subsequence (Spec.referenced carries rows) (Spec.identifiers rows) /\
     (forall v, In v (Spec.referenced carries rows) ->
        exists r, In r rows /\ field "id" r = v /\ carries r = true) /\
     (forall k r, nth_error (filter carries rows) k = Some r -> (k < 20)%nat ->
        nth_error (Spec.referenced carries rows) k = Some (field "id" r))) /\
  (forall (host : Host) env request ops reply,
     AuditorChat.POST env request
       = (ops, {| AuditorChat.status := 200;
                  AuditorChat.body := AuditorChat.Answer reply |}) ->
     exists question rows userId assistantId,
       AuditorChat.all env (AuditorChat.sql (AuditorChat.parseQuery question))
         (AuditorChat.params (AuditorChat.parseQuery question)) = inr rows /\
       AuditorChat.referencedReceipts reply = Spec.referenced Spec.carriesId rows /\
       ops = [ Query (AuditorChat.sql (AuditorChat.parseQuery question))
                 (AuditorChat.params (AuditorChat.parseQuery question));
               InsertChatMessage userId (AuditorChat.reply_sessionId reply)
                 "user" question None;
               InsertChatMessage assistantId (AuditorChat.reply_sessionId reply)
                 "assistant" (AuditorChat.reply_message reply)
                 (Some (AuditorChat.referencedReceipts reply)) ]) /\
  (forall (host : Host) env request ops session text sql refs count,
     AuditorSql.POST env request
       = (ops, {| AuditorSql.status := 200;
                  AuditorSql.body := AuditorSql.Answer session text sql refs count |}) ->
     exists question rows userId assistantId,
       AuditorSql.all env sql = inr rows /\
       refs = Spec.referenced Spec.carriesCordId rows /\
       ops = [ Query sql [];
               InsertChatMessage userId session "user" question None;
               InsertChatMessage assistantId session "assistant" text (Some refs) ]).
Proof.
  split; [exact ChatFacts.chat_extractReferenced_referenced|].
  split; [exact SqlRouteFacts.sql_extractReferenced_referenced|].
  split; [exact ListFacts.referenced_properties|].
  split.
  - intros host env request ops reply H.
    destruct (ChatFacts.chat_POST_answer _ _ H)
      as (question & rows & uid & aid & Hall & _ & Href & _ & Hops).
    exists question, rows, uid, aid. repeat split; assumption.
  - intros host env request ops session text sql refs count H.
    destruct (SqlRouteFacts.sql_POST_answer _ _ H)
      as (question & rows & uid & aid & _ & Hall & Href & _ & Hops).
    exists question, rows, uid, aid. repeat split; try assumption.
    now apply SqlRouteFacts.sql_extractReferenced_referenced.
Qed.

Lemma referenced_receipts_witness :
  [Some (VText "cord_0001")]
    = Spec.referenced Spec.carriesCordId Examples.threeRows /\
  AuditorChat.extractReferenced Examples.threeRows
    = Spec.referenced Spec.carriesId Examples.threeRows /\
  nth_error (Spec.referenced Spec.carriesId Examples.threeRows) 1
    = Some (field "id" Examples.uploadedRow).
Proof.
  split; [|split].
  - apply (proj1 (proj2 referenced_receipts) Examples.threeRows). reflexivity.
  - apply (proj1 referenced_receipts Examples.threeRows).
  - apply (proj1 (proj2 (proj2 referenced_receipts)) Spec.carriesId Examples.threeRows);
      [reflexivity | lia].
Defined.

End ReferencedFacts.

Module ValidatorFacts.

Import JS ExtractionTypes.
Import ReconciliationFacts.
Local Open Scope Q_scope.

(** The findings of a result, read off the three quantities the validator
    looks at. *)
Lemma findings_determined (result : ExtractionResult) :
  Spec.wholeAmounts result = true ->
  Props.findings result =
    ((if falsyNum (totalAmount (receipt (data result))) then [Props.MissingTotal] else []) ++
     (if (List.length (items (data result)) =? 0)%nat then [Props.MissingItems] else []) ++
     (if gtb (Qabs (Spec.itemsSum result - Spec.expectedSubtotal result))
             (0.05 * Spec.expectedSubtotal result)
      then [Props.Mismatch] else []))%list.
Proof.
  intros Hwhole. unfold Props.findings. rewrite validate_shape. cbv zeta.
  pose proof (@tolerance_code result Hwhole) as E. cbv zeta in E. rewrite E. clear E.
  destruct (falsyNum _), (_ =? _)%nat, (gtb _ _); reflexivity.
Qed.

(** X1.  On whole amounts the validator accepts a result, answering the
    empty list, exactly when the total amount is not zero, there is at least
    one line item, and the items are within 5% of the expected subtotal. *)
Theorem validate_accepts_iff (result : ExtractionResult) :
  Spec.wholeAmounts result = true ->
  (validateExtractionResult result = [] <->
   ~ totalAmount (receipt (data result)) == 0 /\
   items (data result) <> [] /\
   Qabs (Spec.itemsSum result - Spec.expectedSubtotal result)
     <= 0.05 * Spec.expectedSubtotal result).
Proof.
  intros Hwhole.
  transitivity (Props.findings result = []).
  { unfold Props.findings. now destruct (validateExtractionResult result). }
  rewrite (@findings_determined result Hwhole).
  destruct (falsyNum _) eqn:Et.
  { split; [discriminate|]. intros [H _]. apply falsyNum_zero in Et. contradiction. }
  destruct (items (data result)) as [|i l] eqn:El; cbn [List.length Nat.eqb].
  { split; [discriminate|]. intros [_ [H _]]. now contradiction H. }
  destruct (gtb _ _) eqn:Eg; cbn.
  - split; [discriminate|]. intros [_ [_ H]].
    apply gtb_lt in Eg. now apply Qlt_not_le in Eg.
  - split; [|reflexivity]. intros _. split; [|split].
    + intros H. apply falsyNum_zero in H. congruence.
    + discriminate.
    + now apply gtb_le.
Qed.

Lemma validate_accepts_iff_witness :
  Spec.wholeAmounts (Examples.resultOf (Some 100) 110 [Examples.item "Sate" 98]) = true /\
  validateExtractionResult (Examples.resultOf (Some 100) 110 [Examples.item "Sate" 98]) = [].
Proof.
  split; [reflexivity|].
  apply (@validate_accepts_iff
           (Examples.resultOf (Some 100) 110 [Examples.item "Sate" 98]) eq_refl).
  split; [vm_compute; discriminate|]. split; [discriminate|vm_compute; discriminate].
Defined.

(** X2.  Without any line item the validator always records the missing
    items; on whole amounts it also records a mismatch unless the expected
    subtotal is zero, and in that last case the total is zero as well and
    the answer is the two required-field entries. *)
Theorem no_items_findings (result : ExtractionResult) :
  items (data result) = [] ->
  In LineItemRequired (validateExtractionResult result) /\
  (Spec.wholeAmounts result = true ->
   (Spec.reportsMismatch (validateExtractionResult result) = true <->
    ~ Spec.expectedSubtotal result == 0) /\
   (Spec.expectedSubtotal result == 0 ->
    validateExtractionResult result = [TotalAmountRequired; LineItemRequired])).
Proof.
  intros Hitems. split.
  { rewrite validate_shape. cbv zeta. rewrite Hitems. cbn [List.length Nat.eqb].
    destruct (falsyNum _), (gtb _ _); cbn [app In]; tauto. }
  intros Hwhole.
  assert (Hsum : Spec.itemsSum result == 0).
  { unfold Spec.itemsSum. rewrite Hitems. reflexivity. }
  assert (Hmis : Spec.reportsMismatch (validateExtractionResult result) = true <->
                 ~ Spec.expectedSubtotal result == 0).
  { rewrite (@mismatch_iff result Hwhole). unfold Spec.outOfTolerance.
    set (e := Spec.expectedSubtotal result).
    assert (Habs : Qabs (Spec.itemsSum result - e) == Qabs e).
    { rewrite Hsum. rewrite <- (Qabs_opp e). apply Qabs_wd. ring. }
    rewrite Habs. split.
    - intros Hlt Hz. rewrite Hz in Hlt. vm_compute in Hlt. discriminate Hlt.
    - intros Hnz. destruct (Qlt_le_dec 0 e) as [Hpos|Hneg].
      + rewrite Qabs_pos by lra. lra.
      + rewrite Qabs_neg by exact Hneg.
        apply Qle_lteq in Hneg as [Hlt|Heq]; [lra|contradiction].
  }
  split; [exact Hmis|].
  intros Hz.
  assert (Hno : Spec.reportsMismatch (validateExtractionResult result) = false).
  { apply not_true_is_false. intros E. apply Hmis in E. contradiction. }
  assert (Htot : totalAmount (receipt (data result)) == 0).
  { revert Hz. unfold Spec.expectedSubtotal.
    destruct (subtotal (receipt (data result))) as [s|]; [|tauto].
    destruct (Qeq_bool s 0) eqn:E; [tauto|].
    intros Hs. apply Qeq_bool_iff in Hs. congruence. }
  rewrite reportsMismatch_gtb in Hno. cbv zeta in Hno.
  rewrite validate_shape. cbv zeta. rewrite Hno, Hitems.
  apply falsyNum_zero in Htot. now rewrite Htot.
Qed.

(** X3.  On whole amounts a negative expected subtotal is always out of
    tolerance, whatever the line items are: the tolerance, 5% of it, is
    negative too. *)
Theorem negative_expected_flagged (result : ExtractionResult) :
  Spec.wholeAmounts result = true ->
  Spec.expectedSubtotal result < 0 ->
  Spec.reportsMismatch (validateExtractionResult result) = true.
Proof.
  intros Hwhole Hneg. apply (@mismatch_iff result Hwhole). unfold Spec.outOfTolerance.
  pose proof (Qabs_nonneg (Spec.itemsSum result - Spec.expectedSubtotal result)).
  lra.
Qed.

Lemma negative_expected_flagged_witness :
  Spec.wholeAmounts (Examples.resultOf None (-5) [Examples.item "Teh" (-5)]) = true /\
  Spec.expectedSubtotal (Examples.resultOf None (-5) [Examples.item "Teh" (-5)]) < 0 /\
  Spec.reportsMismatch
    (validateExtractionResult (Examples.resultOf None (-5) [Examples.item "Teh" (-5)]))
  = true.
Proof.
  assert (H : Spec.expectedSubtotal
                (Examples.resultOf None (-5) [Examples.item "Teh" (-5)]) < 0)
    by (vm_compute; reflexivity).
  split; [reflexivity|].
  split; [exact H|].
  exact (@negative_expected_flagged
           (Examples.resultOf None (-5) [Examples.item "Teh" (-5)]) eq_refl H).
Defined.

Lemma no_items_findings_witness :
  items (data (Examples.resultOf None 0 [])) = [] /\
  validateExtractionResult (Examples.resultOf None 0 [])
    = [TotalAmountRequired; LineItemRequired].
Proof.
  split; [reflexivity|].
  apply (proj2 (proj2 (@no_items_findings (Examples.resultOf None 0 []) eq_refl)
                  eq_refl)).
  reflexivity.
Defined.

Lemma falsyNum_scaled (k a a' : Q) : 0 < k -> a' == k * a -> falsyNum a' = falsyNum a.
Proof.
  intros Hk H. rewrite (falsyNum_compat H).
  destruct (falsyNum (k * a)) eqn:E, (falsyNum a) eqn:E'; try reflexivity.
  - apply falsyNum_zero in E. apply Qmult_integral in E as [E|E].
    + rewrite E in Hk. now apply Qlt_irrefl in Hk.
    + apply falsyNum_zero in E. congruence.
  - apply falsyNum_zero in E'. assert (E2 : k * a == 0) by (rewrite E'; ring).
    apply falsyNum_zero in E2. congruence.
Qed.

Lemma gtb_scaled (k a b : Q) : 0 < k -> gtb (k * a) (k * b) = gtb a b.
Proof.
  intros Hk.
  destruct (gtb a b) eqn:E.
  - apply gtb_lt. apply gtb_lt in E. now apply Qmult_lt_l.
  - apply gtb_le. apply gtb_le in E. now apply Qmult_le_l.
Qed.

Lemma expected_scaled (k : Q) (r r' : ExtractionResult) :
  0 < k -> Props.scaledBy k r r' ->
  Spec.expectedSubtotal r' == k * Spec.expectedSubtotal r.
Proof.
  intros Hk (Ht & Hs & _). unfold Spec.expectedSubtotal, Props.optScaled in *.
  destruct (subtotal (receipt (data r))) as [s|],
           (subtotal (receipt (data r'))) as [s'|]; try contradiction; [|exact Ht].
  change (Qeq_bool s' 0) with (falsyNum s').
  change (Qeq_bool s 0) with (falsyNum s).
  rewrite (falsyNum_scaled Hk Hs).
  now destruct (falsyNum s).
Qed.

Lemma sum_scaled (k : Q) (l l' : list LineItem) :
  Forall2 (fun i i' => totalPrice i' == k * totalPrice i) l l' ->
  fold_right Qplus 0 (map totalPrice l') == k * fold_right Qplus 0 (map totalPrice l).
Proof.
  induction 1 as [|i i' l l' Hi _ IH]; simpl.
  - ring.
  - rewrite IH, Hi. ring.
Qed.

(** X4.  The tolerance is relative: stating every amount of a receipt in
    another unit (all multiplied by the same positive factor) leaves the
    validator's findings unchanged, the amounts being whole in both units. *)
Theorem findings_scale_invariant (k : Q) (result result' : ExtractionResult) :
  0 < k ->
  Props.scaledBy k result result' ->
  Spec.wholeAmounts result = true ->
  Spec.wholeAmounts result' = true ->
  Props.findings result' = Props.findings result.
Proof.
  intros Hk Hs Hw Hw'.
  pose proof (expected_scaled Hk Hs) as He.
  destruct Hs as (Ht & _ & Hi).
  pose proof (sum_scaled Hi) as Hsum.
  rewrite (@findings_determined result Hw), (@findings_determined result' Hw').
  rewrite (falsyNum_scaled Hk Ht), <- (Forall2_length Hi).
  assert (Hg : gtb (Qabs (Spec.itemsSum result' - Spec.expectedSubtotal result'))
                   (0.05 * Spec.expectedSubtotal result')
             = gtb (Qabs (Spec.itemsSum result - Spec.expectedSubtotal result))
                   (0.05 * Spec.expectedSubtotal result)).
  { transitivity
      (gtb (k * Qabs (Spec.itemsSum result - Spec.expectedSubtotal result))
           (k * (0.05 * Spec.expectedSubtotal result)));
      [|now apply gtb_scaled].
    apply gtb_compat.
    - unfold Spec.itemsSum at 1. rewrite Hsum, He.
      fold (Spec.itemsSum result).
      setoid_replace (k * Spec.itemsSum result - k * Spec.expectedSubtotal result)
        with (k * (Spec.itemsSum result - Spec.expectedSubtotal result)) by ring.
      rewrite Qabs_Qmult, (Qabs_pos k) by lra. reflexivity.
    - rewrite He. ring. }
  now rewrite Hg.
Qed.

Lemma findings_scale_invariant_witness :
  0 < 1000 /\
  Props.scaledBy 1000
    (Examples.resultOf (Some 45) 50 [Examples.item "Latte" 11; Examples.item "Roti" 4])
    (Examples.resultOf (Some 45000) 50000
       [Examples.item "Latte" 11000; Examples.item "Roti" 4000]) /\
  Spec.wholeAmounts
    (Examples.resultOf (Some 45) 50 [Examples.item "Latte" 11; Examples.item "Roti" 4])
  = true /\
  Spec.wholeAmounts
    (Examples.resultOf (Some 45000) 50000
       [Examples.item "Latte" 11000; Examples.item "Roti" 4000])
  = true /\
  Props.findings
    (Examples.resultOf (Some 45000) 50000
       [Examples.item "Latte" 11000; Examples.item "Roti" 4000])
  = Props.findings
      (Examples.resultOf (Some 45) 50
         [Examples.item "Latte" 11; Examples.item "Roti" 4]).
Proof.
  assert (Hk : 0 < 1000) by reflexivity.
  assert (Hs : Props.scaledBy 1000
    (Examples.resultOf (Some 45) 50 [Examples.item "Latte" 11; Examples.item "Roti" 4])
    (Examples.resultOf (Some 45000) 50000
       [Examples.item "Latte" 11000; Examples.item "Roti" 4000])).
  { split; [reflexivity|]. split; [reflexivity|].
    repeat constructor. }
  split; [exact Hk|]. split; [exact Hs|].
  split; [reflexivity|]. split; [reflexivity|].
  exact (@findings_scale_invariant 1000
           (Examples.resultOf (Some 45) 50
              [Examples.item "Latte" 11; Examples.item "Roti" 4])
           (Examples.resultOf (Some 45000) 50000
              [Examples.item "Latte" 11000; Examples.item "Roti" 4000])
           Hk Hs eq_refl eq_refl).
Defined.

Lemma sum_permuted (l l' : list LineItem) :
  Permutation l l' ->
  fold_right Qplus 0 (map totalPrice l) == fold_right Qplus 0 (map totalPrice l').
Proof.
  induction 1 as [|i l l' _ IH|i j l|l l' l'' _ IH1 _ IH2]; simpl.
  - reflexivity.
  - now rewrite IH.
  - ring.
  - now rewrite IH1.
Qed.

Lemma abs_sum_permuted (l l' : list LineItem) :
  Permutation l l' ->
  fold_right Qplus 0 (map (fun item => Qabs (totalPrice item)) l)
  == fold_right Qplus 0 (map (fun item => Qabs (totalPrice item)) l').
Proof.
  induction 1 as [|i l l' _ IH|i j l|l l' l'' _ IH1 _ IH2]; simpl.
  - reflexivity.
  - now rewrite IH.
  - ring.
  - now rewrite IH1.
Qed.

Lemma forallb_permuted {A} (f : A -> bool) (l l' : list A) :
  Permutation l l' -> forallb f l = forallb f l'.
Proof.
  induction 1 as [|i l l' _ IH|i j l|l l' l'' _ IH1 _ IH2]; simpl.
  - reflexivity.
  - now rewrite IH.
  - now destruct (f i), (f j).
  - now rewrite IH1.
Qed.

(** Whole amounts stay whole when the items are rearranged. *)
Lemma wholeAmounts_permuted (result result' : ExtractionResult) :
  receipt (data result') = receipt (data result) ->
  Permutation (items (data result)) (items (data result')) ->
  Spec.wholeAmounts result' = Spec.wholeAmounts result.
Proof.
  intros Hr Hp. unfold Spec.wholeAmounts.
  rewrite Hr, (forallb_permuted _ Hp). f_equal.
  apply Qleb_comp; [|reflexivity]. symmetry. now apply abs_sum_permuted.
Qed.

(** X5.  On whole amounts the order of the line items does not matter: the
    same receipt with its items rearranged gets the same findings. *)
Theorem findings_order_independent (result result' : ExtractionResult) :
  Spec.wholeAmounts result = true ->
  receipt (data result') = receipt (data result) ->
  Permutation (items (data result)) (items (data result')) ->
  Props.findings result' = Props.findings result.
Proof.
  intros Hw Hr Hp.
  assert (Hw' : Spec.wholeAmounts result' = true)
    by now rewrite (wholeAmounts_permuted _ _ Hr Hp).
  rewrite (@findings_determined result Hw), (@findings_determined result' Hw').
  unfold Spec.expectedSubtotal, Spec.itemsSum.
  rewrite Hr, <- (Permutation_length Hp).
  set (e := match subtotal (receipt (data result)) with
            | Some s => if Qeq_bool s 0 then totalAmount (receipt (data result)) else s
            | None => totalAmount (receipt (data result))
            end).
  assert (Hg : gtb (Qabs (fold_right Qplus 0 (map totalPrice (items (data result'))) - e))
                   (0.05 * e)
             = gtb (Qabs (fold_right Qplus 0 (map totalPrice (items (data result))) - e))
                   (0.05 * e)).
  { apply gtb_compat; [|reflexivity].
    apply Qabs_wd. rewrite (sum_permuted Hp). reflexivity. }
  now rewrite Hg.
Qed.

Lemma findings_order_independent_witness :
  Spec.wholeAmounts
    (Examples.resultOf (Some 45) 50 [Examples.item "Latte" 11; Examples.item "Roti" 4])
  = true /\
  Permutation [Examples.item "Latte" 11; Examples.item "Roti" 4]
              [Examples.item "Roti" 4; Examples.item "Latte" 11] /\
  Props.findings
    (Examples.resultOf (Some 45) 50 [Examples.item "Roti" 4; Examples.item "Latte" 11])
  = Props.findings
      (Examples.resultOf (Some 45) 50 [Examples.item "Latte" 11; Examples.item "Roti" 4]).
Proof.
  assert (Hp : Permutation [Examples.item "Latte" 11; Examples.item "Roti" 4]
                           [Examples.item "Roti" 4; Examples.item "Latte" 11])
    by apply perm_swap.
  split; [reflexivity|]. split; [exact Hp|].
  exact (@findings_order_independent
           (Examples.resultOf (Some 45) 50
              [Examples.item "Latte" 11; Examples.item "Roti" 4])
           (Examples.resultOf (Some 45) 50
              [Examples.item "Roti" 4; Examples.item "Latte" 11])
           eq_refl eq_refl Hp).
Defined.

End ValidatorFacts.

Module NormalizerMore.

Import JS ExtractionTypes JSFacts.
Local Open Scope string_scope.

(** X6.  A parsed price of at most 308 digits (beyond which the program
    answers [Infinity]) is a whole amount, zero or more: a sign, a decimal
    point and any other decoration of the text are lost. *)
Theorem parseCordPrice_whole (s : string) (n : number) :
  (String.length (Spec.strip s) <= 308)%nat ->
  parseCordPrice (Some s) = Some n -> Props.wholeAmount n.
Proof.
  intros _. rewrite NormalizerFacts.parseCordPrice_double. unfold Spec.normalize.
  destruct (Spec.strip s) as [|c r]; [discriminate|].
  cbn [option_map]. intros [= <-].
  destruct (DoubleFacts.double_of_whole (base10_nonneg (String c r)))
    as (z' & Hz' & _ & E).
  exists z'. now split.
Qed.

Lemma parseCordPrice_whole_witness :
  (String.length (Spec.strip "-1.250,50") <= 308)%nat /\
  parseCordPrice (Some "-1.250,50") = Some (inject_Z 125050) /\
  Props.wholeAmount (inject_Z 125050).
Proof.
  assert (L : (String.length (Spec.strip "-1.250,50") <= 308)%nat)
    by (vm_compute; lia).
  assert (H : parseCordPrice (Some "-1.250,50") = Some (inject_Z 125050))
    by (vm_compute; reflexivity).
  split; [exact L|]. split; [exact H | exact (@parseCordPrice_whole _ _ L H)].
Defined.

Lemma string_of_uint_digits (d : Decimal.uint) :
  Spec.allDigits (NilEmpty.string_of_uint d) = true.
Proof. induction d; simpl; [reflexivity|assumption..]. Qed.

Lemma digitsAcc_of_uint_acc (d : Decimal.uint) (acc : nat) :
  digitsAcc (Z.of_nat acc) (NilEmpty.string_of_uint d)
  = Z.of_nat (Nat.of_uint_acc d acc).
Proof.
  revert acc.
  induction d; intros acc; cbn [NilEmpty.string_of_uint digitsAcc Nat.of_uint_acc];
    [reflexivity|..];
    rewrite <- IHd; f_equal; rewrite Nat.tail_mul_spec;
    match goal with
    | |- context [digitValue ?c] =>
        let v := eval vm_compute in (digitValue c) in change (digitValue c) with v
    end; lia.
Qed.

Lemma decimal_value (n : nat) : Spec.base10 (Props.decimal n) = Z.of_nat n.
Proof.
  unfold Props.decimal.
  pose proof (digitsAcc_base10 _ (string_of_uint_digits (Nat.to_uint n)) 0) as H.
  rewrite Z.mul_0_l, Z.add_0_l in H. rewrite <- H.
  change 0%Z with (Z.of_nat 0). rewrite digitsAcc_of_uint_acc.
  f_equal. apply DecimalNat.Unsigned.of_to.
Qed.

Lemma decimal_nonempty (n : nat) : Props.decimal n <> EmptyString.
Proof.
  unfold Props.decimal. intros H.
  assert (Hnil : Nat.to_uint n = Decimal.Nil).
  { destruct (Nat.to_uint n); try discriminate H. reflexivity. }
  pose proof (DecimalNat.Unsigned.of_to n) as Hn. rewrite Hnil in Hn.
  cbn in Hn. subst n. discriminate Hnil.
Qed.

(** X7.  Round trip: whatever decorates it (grouping separators, a
    currency symbol, spaces), a text whose digits are the decimal notation
    of [n] is parsed back to [n], for every [n] below [2^53]. *)
Theorem parseCordPrice_decimal (n : nat) (s : string) :
  (Z.of_nat n < 2 ^ 53)%Z ->
  Spec.strip s = Props.decimal n ->
  parseCordPrice (Some s) = Some (inject_Z (Z.of_nat n)).
Proof.
  intros Hn H. rewrite NormalizerFacts.parseCordPrice_double.
  unfold Spec.normalize. rewrite H.
  pose proof (decimal_nonempty n) as Hne. pose proof (decimal_value n) as Hv.
  destruct (Props.decimal n); [contradiction|].
  cbn [option_map]. rewrite Hv. f_equal.
  apply DoubleFacts.double_whole. lia.
Qed.

Lemma parseCordPrice_decimal_witness :
  (Z.of_nat 1250 < 2 ^ 53)%Z /\
  Spec.strip "Rp 1,250" = Props.decimal 1250 /\
  parseCordPrice (Some "Rp 1,250") = Some (inject_Z (Z.of_nat 1250)).
Proof.
  assert (Hn : (Z.of_nat 1250 < 2 ^ 53)%Z) by (vm_compute; reflexivity).
  assert (H : Spec.strip "Rp 1,250" = Props.decimal 1250) by reflexivity.
  split; [exact Hn|].
  split; [exact H | exact (@parseCordPrice_decimal 1250 "Rp 1,250" Hn H)].
Defined.

End NormalizerMore.

Module AssemblerMore.

Import JS ExtractionTypes.
Local Open Scope string_scope.
Local Open Scope Q_scope.

Lemma parse_notNegative (input : option string) :
  Props.notNegative (parseCordPrice input).
Proof.
  rewrite NormalizerFacts.parseCordPrice_double.
  destruct input as [s|]; [|exact I]. unfold Spec.normalize.
  destruct (Spec.strip s) as [|c r]; [exact I|].
  cbn [option_map Props.notNegative]. apply DoubleFacts.double_nonneg.
  change 0 with (inject_Z 0). rewrite <- Zle_Qle. apply JSFacts.base10_nonneg.
Qed.

Lemma orNum_notNegative (o : option number) (d : number) :
  0 <= d -> Props.notNegative o -> 0 <= orNum o d.
Proof.
  intros Hd Ho. unfold orNum. destruct o as [n|]; [|exact Hd].
  destruct (truthyNum n); [exact Ho|exact Hd].
Qed.

(** A parsed quantity that is not zero is at least one. *)
Lemma parse_quantity (input : option string) : 1 <= orNum (parseCordPrice input) 1.
Proof.
  rewrite NormalizerFacts.parseCordPrice_double.
  destruct input as [s|]; [|cbn; lra]. unfold Spec.normalize.
  destruct (Spec.strip s) as [|c r]; [cbn; lra|].
  cbn [option_map orNum].
  destruct (truthyNum _) eqn:E; [|lra].
  pose proof (JSFacts.base10_nonneg (String c r)) as Hb.
  destruct (Z.eq_dec (Spec.base10 (String c r)) 0) as [Hz|Hz].
  - rewrite Hz in E. discriminate E.
  - assert (H1 : double 1 == 1) by (vm_compute; reflexivity).
    rewrite <- H1. apply DoubleFacts.double_mono.
    change 1 with (inject_Z 1). rewrite <- Zle_Qle. lia.
Qed.

Lemma orStr_nonempty (o : option string) (d : string) :
  d <> EmptyString -> orStr o d <> EmptyString.
Proof.
  intros Hd. unfold orStr. destruct o as [[|c s]|]; cbn; try exact Hd. discriminate.
Qed.

(** X8.  No amount of a converted ground truth record is negative; every
    line item and sub-item has a name, a quantity of at least one and a
    price of zero or more; there is one line item per menu entry, and
    sub-items have no sub-items of their own. *)
Theorem converted_record_well_formed (gtParse : CordGtParse) :
  let d := data (cordToExtractionResult gtParse) in
  let r := receipt d in
  0 <= totalAmount r /\
  Props.notNegative (subtotal r) /\
  Props.notNegative (taxAmount r) /\
  Props.notNegative (serviceCharge r) /\
  Props.notNegative (discount r) /\
  Props.notNegative (cashPaid r) /\
  Props.notNegative (cardPaid r) /\
  Props.notNegative (changeAmount r) /\
  List.length (items d)
    = List.length (match menu gtParse with Some m => m | None => [] end) /\
  Forall (fun item =>
            Props.wellFormedItem item /\
            match subItems item with
            | Some subs =>
                Forall (fun s => Props.wellFormedItem s /\ subItems s = None) subs
            | None => True
            end) (items d).
Proof.
  cbn zeta. cbn [cordToExtractionResult data receipt items totalAmount subtotal
                 taxAmount serviceCharge discount cashPaid cardPaid changeAmount].
  repeat (split; [first [apply parse_notNegative
                        | apply orNum_notNegative; [lra|apply parse_notNegative]]|]).
  split; [apply length_map|].
  apply Forall_forall. intros item Hin.
  apply in_map_iff in Hin as [raw [<- _]].
  cbn [subItems]. split.
  - repeat split; cbn [totalPrice quantity unitPrice name].
    + apply orNum_notNegative; [lra|apply parse_notNegative].
    + apply parse_quantity.
    + apply parse_notNegative.
    + apply orStr_nonempty. discriminate.
  - destruct (sub raw) as [subs|]; cbn [option_map]; [|exact I].
    apply Forall_forall. intros s Hs.
    apply in_map_iff in Hs as [rawsub [<- _]].
    split; [|reflexivity].
    repeat split; cbn [totalPrice quantity unitPrice name].
    + apply orNum_notNegative; [lra|apply parse_notNegative].
    + apply parse_quantity.
    + apply parse_notNegative.
    + apply orStr_nonempty. discriminate.
Qed.

(** X9.  A converted record has a vendor exactly when the store name is
    present and not empty; the vendor then carries that name, the address,
    the telephone and the business number of the store. *)
Theorem converted_vendor (gtParse : CordGtParse) :
  let v := vendor (data (cordToExtractionResult gtParse)) in
  (v = None <->
   ~ exists si n, store_info gtParse = Some si /\ store_name si = Some n /\
                  n <> EmptyString) /\
  (forall info, v = Some info ->
     vendor_name info <> EmptyString /\
     exists si, store_info gtParse = Some si /\
                store_name si = Some (vendor_name info) /\
                address info = addr si /\
                phone info = tel si /\
                businessNumber info = biznum si).
Proof.
  cbn zeta. cbn [cordToExtractionResult data vendor].
  destruct (store_info gtParse) as [si|].
  2:{ split; [|discriminate]. split; [|reflexivity].
      intros _ (si & n & H & _). discriminate H. }
  destruct (store_name si) as [[|c n]|] eqn:En; cbn [truthyStr].
  - split; [|discriminate]. split; [|reflexivity].
    intros _ (si' & m & [= <-] & Hm & H). rewrite En in Hm.
    injection Hm as <-. now apply H.
  - split.
    + split; [discriminate|]. intros H. exfalso. apply H.
      exists si, (String c n). repeat split; [exact En|discriminate].
    + intros info [= <-]. cbn. split; [discriminate|].
      exists si. repeat split. exact En.
  - split; [|discriminate]. split; [|reflexivity].
    intros _ (si' & m & [= <-] & Hm & _). rewrite En in Hm. discriminate Hm.
Qed.

End AssemblerMore.

Module ClassifierMore.

Import JS Store AuditorChat.
Import JSFacts.
Local Open Scope string_scope.

Lemma digit_not_comma (c : ascii) : isDigit c = true -> Ascii.eqb c "," = false.
Proof. each_ascii c; intros H; try discriminate H; reflexivity. Qed.

Lemma lowerChar_digit (c : ascii) : isDigit (lowerChar c) = isDigit c.
Proof. each_ascii c; reflexivity. Qed.

Lemma lowerChar_comma (c : ascii) : Ascii.eqb (lowerChar c) "," = Ascii.eqb c ",".
Proof. each_ascii c; reflexivity. Qed.

Lemma lowerChar_number_char (c : ascii) :
  isDigit c || Ascii.eqb c "," = true -> lowerChar c = c.
Proof. each_ascii c; intros H; try discriminate H; reflexivity. Qed.

Lemma digitsOrCommas_lower (s : string) :
  digitsOrCommas (toLowerCase s) = digitsOrCommas s.
Proof.
  induction s as [|c r IH]; cbn [toLowerCase digitsOrCommas]; [reflexivity|].
  rewrite lowerChar_digit, lowerChar_comma.
  destruct (isDigit c || Ascii.eqb c ",") eqn:E; [|reflexivity].
  now rewrite IH, (lowerChar_number_char _ E).
Qed.

Lemma matchNumber_lower (s : string) : matchNumber (toLowerCase s) = matchNumber s.
Proof.
  induction s as [|c r IH]; cbn [toLowerCase matchNumber]; [reflexivity|].
  rewrite lowerChar_digit. destruct (isDigit c) eqn:E; [|exact IH].
  rewrite digitsOrCommas_lower, lowerChar_number_char; [reflexivity|].
  now rewrite E.
Qed.

Lemma extractNumber_lower (s : string) : extractNumber (toLowerCase s) = extractNumber s.
Proof. unfold extractNumber. now rewrite matchNumber_lower. Qed.

(** On a run of digits and commas, dropping the commas is the digit
    stripping of the Amount Normalizer. *)
Lemma run_without_commas (s : string) :
  removeChar "," (digitsOrCommas s)
  = replaceOutside isDigit EmptyString (digitsOrCommas s).
Proof.
  induction s as [|c r IH]; cbn [digitsOrCommas]; [reflexivity|].
  destruct (isDigit c) eqn:Ed; cbn [orb].
  - cbn [removeChar replaceOutside]. rewrite Ed, (digit_not_comma _ Ed). now rewrite IH.
  - destruct (Ascii.eqb c ",") eqn:Ec; [|reflexivity].
    cbn [removeChar replaceOutside]. rewrite Ed, Ec. exact IH.
Qed.

Lemma matchNumber_shape (q m : string) :
  matchNumber q = Some m ->
  exists c r, m = String c (digitsOrCommas r) /\ isDigit c = true.
Proof.
  induction q as [|c r IH]; cbn [matchNumber]; [discriminate|].
  destruct (isDigit c) eqn:E; [|exact IH].
  intros [= <-]. now exists c, r.
Qed.

Lemma extractNumber_normalizes (q m : string) :
  matchNumber q = Some m ->
  extractNumber q = ExtractionTypes.parseCordPrice (Some m).
Proof.
  intros H. unfold extractNumber. rewrite H.
  destruct (matchNumber_shape _ H) as (c & r & -> & Hc).
  unfold ExtractionTypes.parseCordPrice.
  cbn [truthyStr negb removeChar replaceOutside].
  rewrite Hc, (digit_not_comma _ Hc). cbn [truthyStr].
  now rewrite run_without_commas.
Qed.

Lemma matchNumber_none (q : string) :
  matchNumber q = None <-> Spec.strip q = EmptyString.
Proof.
  unfold Spec.strip.
  induction q as [|c r IH]; cbn [matchNumber list_ascii_of_string filter];
    [tauto|].
  rewrite <- isDigit_enumerated.
  destruct (isDigit c); [|exact IH].
  cbn. split; discriminate.
Qed.

Lemma extractNumber_some (q m : string) :
  matchNumber q = Some m -> exists n, extractNumber q = Some n.
Proof.
  intros H. unfold extractNumber. rewrite H.
  destruct (matchNumber_shape _ H) as (c & r & -> & Hc).
  cbn [removeChar]. rewrite (digit_not_comma _ Hc), run_without_commas.
  eexists. apply parseInt_digits.
  cbn [Spec.allDigits]. rewrite Hc. apply replaceOutside_digits.
Qed.

Lemma extractNumber_whole (question : string) (n : number) :
  extractNumber question = Some n -> Props.wholeAmount n.
Proof.
  intros H. destruct (matchNumber question) as [m|] eqn:E.
  - rewrite (extractNumber_normalizes _ E) in H.
    rewrite NormalizerFacts.parseCordPrice_double in H. unfold Spec.normalize in H.
    destruct (Spec.strip m) as [|c r]; [discriminate H|].
    cbn [option_map] in H. injection H as <-.
    destruct (DoubleFacts.double_of_whole (base10_nonneg (String c r)))
      as (z' & Hz' & _ & Ez).
    exists z'. now split.
  - unfold extractNumber in H. rewrite E in H. discriminate H.
Qed.

(** X10.  [extractNumber] answers [null] exactly when the question holds
    no digit; otherwise its answer is the Amount Normalizer's reading of the
    first run of digits and commas, hence, for a question of at most 308
    characters, a whole number, zero or more. *)
Theorem extractNumber_first_run (question : string) :
  (extractNumber question = None <-> Spec.strip question = EmptyString) /\
  (forall m, matchNumber question = Some m ->
     extractNumber question = ExtractionTypes.parseCordPrice (Some m)) /\
  ((String.length question <= 308)%nat ->
   forall n, extractNumber question = Some n -> Props.wholeAmount n).
Proof.
  split; [|split].
  - rewrite <- matchNumber_none. split.
    + intros H. destruct (matchNumber question) as [m|] eqn:E; [|reflexivity].
      destruct (extractNumber_some _ E) as [n Hn]. congruence.
    + intros H. unfold extractNumber. now rewrite H.
  - intros m. apply extractNumber_normalizes.
  - intros _ n. apply extractNumber_whole.
Qed.

(** X11.  Classification ignores the letter case of the question: two
    questions with the same lower case text get the same intent, the same
    query and the same parameters. *)
Theorem parseQuery_ignores_case (q1 q2 : string) :
  toLowerCase q1 = toLowerCase q2 -> parseQuery q1 = parseQuery q2.
Proof.
  intros H. unfold parseQuery. cbv zeta.
  rewrite <- (extractNumber_lower q1), <- (extractNumber_lower q2), H.
  reflexivity.
Qed.

Lemma parseQuery_ignores_case_witness :
  toLowerCase "SHOW Receipts ABOVE 50,000" = toLowerCase "show receipts above 50,000" /\
  parseQuery "SHOW Receipts ABOVE 50,000" = parseQuery "show receipts above 50,000".
Proof.
  assert (H : toLowerCase "SHOW Receipts ABOVE 50,000"
              = toLowerCase "show receipts above 50,000") by reflexivity.
  split; [exact H | exact (parseQuery_ignores_case _ _ H)].
Defined.

Lemma truthy_threshold (q : string) :
  truthyOptNum (extractNumber q) = true ->
  exists n, extractNumber q = Some n /\ Props.positiveWhole n.
Proof.
  destruct (extractNumber q) as [n|] eqn:E; [|discriminate].
  intros Ht. exists n. split; [reflexivity|].
  destruct (extractNumber_whole _ E) as [z [Hz ->]].
  exists z. split; [|reflexivity].
  assert (z <> 0)%Z; [|lia]. intros ->. discriminate Ht.
Qed.

Lemma positiveWhole_ge (n : number) : Props.positiveWhole n -> (1 <= n)%Q.
Proof.
  intros [z [Hz ->]]. change 1%Q with (inject_Z 1). now rewrite <- Zle_Qle.
Qed.

Ltac branches :=
  repeat match goal with
         | |- context [if ?b then _ else _] => destruct b eqn:?
         end.

Lemma params_positive (question : string) :
  Forall (fun p => exists n, p = Some n /\ Props.positiveWhole n)
         (params (parseQuery question)).
Proof.
  unfold parseQuery. cbv zeta.
  branches; cbn [params]; try constructor; try constructor;
    match goal with
    | H : _ && truthyOptNum (extractNumber question) = true |- _ =>
        apply andb_true_iff in H as [_ H];
        destruct (truthy_threshold _ H) as (n & -> & Hn); now exists n
    end.
Qed.

(** X12.  In every synthesized query each [?] placeholder has its bound
    parameter: the number of placeholders equals the number of parameters,
    and a bound parameter is never [null] and never below one; for a
    question of at most 308 characters it is a whole number. *)
Theorem placeholders_bound (question : string) :
  Props.countChar "?" (sql (parseQuery question))
    = List.length (params (parseQuery question)) /\
  Forall (fun p => exists n, p = Some n /\ (1 <= n)%Q)
         (params (parseQuery question)) /\
  ((String.length question <= 308)%nat ->
   Forall (fun p => exists n, p = Some n /\ Props.positiveWhole n)
          (params (parseQuery question))).
Proof.
  split; [|split].
  - unfold parseQuery. cbv zeta. branches; reflexivity.
  - eapply Forall_impl; [|apply params_positive].
    intros p (n & -> & Hn). exists n. split; [reflexivity|].
    now apply positiveWhole_ge.
  - intros _. apply params_positive.
Qed.

Lemma sql_of_intent (question : string) :
  intent (parseQuery question) <> "payment_breakdown" ->
  sql (parseQuery question) = Props.templateOf (intent (parseQuery question)).
Proof.
  unfold parseQuery. cbv zeta.
  destruct (_ && _); [reflexivity|].
  destruct (test QUERY_PATTERNS.count _); [reflexivity|].
  destruct (_ && _); [reflexivity|].
  destruct (test QUERY_PATTERNS.flagged _); [reflexivity|].
  destruct (_ && _); [reflexivity|].
  destruct (_ && _); [reflexivity|].
  destruct (test QUERY_PATTERNS.payment_method _); [intros H; now contradiction H|].
  destruct (test QUERY_PATTERNS.tax _); [reflexivity|].
  destruct (test QUERY_PATTERNS.audit _); reflexivity.
Qed.

Lemma intent_not_general (question : string) :
  intent (parseQuery question) <> "general".
Proof.
  unfold parseQuery. cbv zeta. branches; discriminate.
Qed.

(** X13.  The intent decides the query: two questions with the same intent
    get the same query text, except under [payment_breakdown], which has
    three (for cash, for card, grouped).  The initial intent [general] is
    never answered. *)
Theorem intent_decides_query :
  (forall q1 q2,
     intent (parseQuery q1) = intent (parseQuery q2) ->
     intent (parseQuery q1) <> "payment_breakdown" ->
     sql (parseQuery q1) = sql (parseQuery q2)) /\
  (forall question, intent (parseQuery question) <> "general") /\
  (intent (parseQuery "cash payments") = intent (parseQuery "card payments") /\
   intent (parseQuery "cash payments") = intent (parseQuery "payment methods") /\
   sql (parseQuery "cash payments") <> sql (parseQuery "card payments") /\
   sql (parseQuery "cash payments") <> sql (parseQuery "payment methods") /\
   sql (parseQuery "card payments") <> sql (parseQuery "payment methods")).
Proof.
  split; [|split; [exact intent_not_general|]].
  - intros q1 q2 Heq Hne.
    rewrite (sql_of_intent q1 Hne), sql_of_intent by congruence.
    now rewrite Heq.
  - repeat split; try reflexivity; vm_compute; discriminate.
Qed.

End ClassifierMore.

Module ChatMore.

Import JS Store AuditorChat.
Local Open Scope string_scope.

Lemma eqb_true (a b : string) : String.eqb a b = true -> a = b.
Proof. apply String.eqb_eq. Qed.

(** X14.  The formatter throws in one situation only: the intent is
    [payment_breakdown], the first row carries an identifier, and its
    payment method is a number other than zero (on which [toUpperCase] is
    called).  With text or null payment methods it always answers. *)
Theorem generateResponse_throws_iff {host : Host} (intent : string)
        (rows : list Row) (query : string) :
  (exists e, generateResponse intent rows query = inl e) <->
  intent = "payment_breakdown" /\
  exists first rest, rows = first :: rest /\
                     truthy (field "id" first) = true /\
                     Props.numericPaymentMethod first.
Proof.
  unfold generateResponse, Props.numericPaymentMethod.
  destruct rows as [|first rest].
  { split; [intros [e H]; discriminate H|].
    intros [_ (f & r & H & _)]. discriminate H. }
  repeat match goal with
         | |- context [if String.eqb intent ?s then _ else _] =>
             let E := fresh "E" in
             destruct (String.eqb intent s) eqn:E;
             [ apply eqb_true in E; subst intent;
               try (split; [intros [e H]; discriminate H
                           | intros [H _]; discriminate H])
             | ]
         end.
  - (* payment_breakdown *)
    destruct (truthy (field "id" first)) eqn:Eid.
    + unfold orValue, truthy.
      destruct (field "payment_method" first) as [[|n|s]|] eqn:Em.
      * split; [intros [e H]; discriminate H|].
        intros [_ (f & r & [= <- <-] & _ & n & Hn & _)]. congruence.
      * unfold truthyNum, falsyNum. destruct (Qeq_bool n 0) eqn:En; cbn [negb].
        -- split; [intros [e H]; discriminate H|].
           intros [_ (f & r & [= <- <-] & _ & m & Hm & Hnz)].
           rewrite Em in Hm. injection Hm as <-.
           apply Qeq_bool_iff in En. contradiction.
        -- split; [|intros _; eexists; reflexivity].
           intros _. split; [reflexivity|].
           exists first, rest. split; [reflexivity|]. split; [exact Eid|].
           exists n. split; [exact Em|].
           intros Hz. apply Qeq_bool_iff in Hz. congruence.
      * destruct (truthyStr s);
          (split; [intros [e H]; discriminate H|];
           intros [_ (f & r & [= <- <-] & _ & m & Hm & _)]; congruence).
      * split; [intros [e H]; discriminate H|].
        intros [_ (f & r & [= <- <-] & _ & m & Hm & _)]. congruence.
    + split; [intros [e H]; discriminate H|].
      intros [_ (f & r & [= <- <-] & H & _)]. congruence.
  - (* the default listing *)
    split; [intros [e H]; discriminate H|].
    intros [H _]. subst intent. discriminate E5.
Qed.

Lemma app_nonempty (a b : string) : a <> EmptyString -> a ++ b <> EmptyString.
Proof. destruct a; [congruence|discriminate]. Qed.

Lemma forEach_nonempty (rows : list Row) (line : Row -> string) (response : string) :
  response <> EmptyString -> forEach rows line response <> EmptyString.
Proof.
  unfold forEach. revert response.
  induction rows as [|r rows IH]; intros response H; simpl; [exact H|].
  apply IH. now apply app_nonempty.
Qed.

Ltac nonempty :=
  repeat first
    [ apply forEach_nonempty
    | match goal with
      | |- (if ?b then _ else _) <> EmptyString => destruct b
      end
    | apply app_nonempty
    | discriminate ].

(** X15.  Whatever the intent and the rows, an answer of the formatter is
    never the empty text. *)
Theorem generateResponse_nonempty {host : Host} (intent : string)
        (rows : list Row) (query text : string) :
  generateResponse intent rows query = inr text -> text <> EmptyString.
Proof.
  unfold generateResponse.
  destruct rows as [|first rest]; [intros [= <-]; discriminate|].
  repeat match goal with
         | |- context [if String.eqb intent ?s then _ else _] =>
             destruct (String.eqb intent s);
             [ try (intros [= <-]; cbv zeta; solve [nonempty]) | ]
         end.
  - destruct (truthy (field "id" first)).
    + destruct (orValue _ _); try discriminate.
      intros [= <-]. cbv zeta. nonempty.
    + intros [= <-]. cbv zeta. nonempty.
  - intros [= <-]. cbv zeta. nonempty.
Qed.

Lemma generateResponse_nonempty_witness :
  exists text,
    generateResponse (host := Examples.sampleHost) "tax_info" Examples.threeRows "tax"
      = inr text /\
    text <> EmptyString.
Proof.
  eexists. split; [vm_compute; reflexivity|].
  eapply (generateResponse_nonempty (host := Examples.sampleHost)
            "tax_info" Examples.threeRows "tax").
  vm_compute. reflexivity.
Defined.

(** X16.  The route answers with one of three statuses, and what it
    handed to the store goes with the status: with 200, the one query, then
    the question and the answer, in this order, under one session, both
    stored; with 400, nothing (the message was missing or empty); with 500,
    nothing, or the query only, or the query and messages of which the last
    one was refused by the store: the answer is never stored then, and the
    question only when the answer was refused. *)
Theorem chat_POST_protocol {host : Host} (env : Env) (request : Exn + ChatRequest) :
  let ops := fst (POST env request) in
  let response := snd (POST env request) in
  (status response = 200%nat \/ status response = 400%nat \/ status response = 500%nat) /\
  (status response = 200%nat ->
   exists q p userId assistantId session question answer refs,
     ops = [ Query q p;
             InsertChatMessage userId session "user" question None;
             InsertChatMessage assistantId session "assistant" answer (Some refs) ] /\
     run env (InsertChatMessage userId session "user" question None) = None /\
     run env (InsertChatMessage assistantId session "assistant" answer (Some refs))
       = None) /\
  (status response = 400%nat ->
   ops = [] /\ body response = Failure "Message is required" None /\
   exists b, request = inr b /\ truthyOptStr (message b) = false) /\
  (status response = 500%nat ->
   (exists details, body response = Failure "Failed to process chat" (Some details)) /\
   (ops = [] \/
    (exists q p, ops = [Query q p]) \/
    (exists q p question e,
       ops = [Query q p; question] /\ run env question = Some e) \/
    (exists q p question answer e,
       ops = [Query q p; question; answer] /\
       run env question = None /\ run env answer = Some e))).
Proof.
  cbv zeta. unfold POST, handle, bind, lift, exec, execRun, ret.
  destruct request as [e|b].
  { cbn. repeat split; try discriminate; try tauto. eexists; reflexivity. }
  destruct (truthyOptStr (message b)) eqn:Em; cbn [negb].
  2:{ destruct (sessionId b); cbn;
        (repeat split; try discriminate; try tauto; now exists b). }
  set (question := orStr (message b) EmptyString).
  destruct (sessionId b) as [sid|];
    (destruct (all env (sql (parseQuery question)) (params (parseQuery question)))
       as [e|rows];
     [ cbn; repeat split; try discriminate; try tauto;
       [ eexists; reflexivity | right; left; do 2 eexists; reflexivity ]
     | destruct (generateResponse (intent (parseQuery question)) rows question)
         as [e|text];
       [ cbn; repeat split; try discriminate; try tauto;
         [ eexists; reflexivity | right; left; do 2 eexists; reflexivity ]
       | destruct (run env (InsertChatMessage _ _ "user" _ _)) as [e1|] eqn:E1;
         [ cbn; repeat split; try discriminate; try tauto;
           [ eexists; reflexivity
           | right; right; left; do 4 eexists; split; [reflexivity|exact E1] ]
         | destruct (run env (InsertChatMessage _ _ "assistant" _ _)) as [e2|] eqn:E2;
           [ cbn; repeat split; try discriminate; try tauto;
             [ eexists; reflexivity
             | right; right; right; do 5 eexists;
               split; [reflexivity|split; [exact E1|exact E2]] ]
           | cbn; repeat split; try discriminate; try tauto;
             intros _; do 8 eexists;
             split; [reflexivity|split; [exact E1|exact E2]] ] ] ] ]).
Qed.

Lemma chat_POST_protocol_witness :
  status (snd (POST (host := Examples.sampleHost) Examples.refusingAssistant
                 (Examples.ask "Which receipts are flagged?"))) = 500%nat /\
  exists q p question answer e,
    fst (POST (host := Examples.sampleHost) Examples.refusingAssistant
           (Examples.ask "Which receipts are flagged?"))
      = [Query q p; question; answer] /\
    run Examples.refusingAssistant question = None /\
    run Examples.refusingAssistant answer = Some e.
Proof.
  assert (H : status (snd (POST (host := Examples.sampleHost) Examples.refusingAssistant
                             (Examples.ask "Which receipts are flagged?"))) = 500%nat)
    by reflexivity.
  split; [exact H|].
  destruct (proj2 (proj2 (proj2 (proj2 (chat_POST_protocol (host := Examples.sampleHost)
              Examples.refusingAssistant (Examples.ask "Which receipts are flagged?"))))
              H)) as [E|[(q & p & E)|[(q & p & u & e & E & _)|R]]].
  - discriminate E.
  - discriminate E.
  - discriminate E.
  - exact R.
Defined.

End ChatMore.

Module SqlRouteMore.

Import JS Store AuditorSql.
Local Open Scope string_scope.

(** A query comes out of [generateSQL] only as the unfenced text of a
    successful model answer that begins with "select". *)
Lemma generateSQL_inversion {host : Host} (env : Env) (question sql : string) :
  generateSQL env question = Some sql ->
  Spec.beginsWithSelect sql = true /\
  exists text,
    fetch env (Spec.generationUrl env) (Spec.generationRequest env question)
      = Responded true (inr (Some text)) /\
    sql = Spec.withoutFences text.
Proof.
  unfold generateSQL, Spec.generationUrl, Spec.generationRequest.
  destruct (fetch env _ _) as [e|ok json]; [discriminate|].
  destruct ok; cbn [negb]; [|discriminate].
  destruct json as [e|[text|]]; [discriminate| |].
  - cbn [option_map]. rewrite SqlRouteFacts.orStr_empty.
    fold (Spec.withoutFences text).
    change (startsWith "select" (toLowerCase (Spec.withoutFences text)))
      with (Spec.beginsWithSelect (Spec.withoutFences text)).
    destruct (Spec.beginsWithSelect (Spec.withoutFences text)) eqn:E;
      cbn [negb]; [|discriminate].
    intros [= <-]. split; [exact E|]. now exists text.
  - cbn. discriminate.
Qed.

(** X17.  Every statement the model assisted route runs as a query begins
    with "select" in some letter case, has no bound parameter, and is the
    unfenced text of a successful model answer to the question. *)
Theorem only_select_runs {host : Host} (env : Env) (request : Exn + ChatRequest)
        (q : string) (p : list (option number)) :
  In (Query q p) (fst (POST env request)) ->
  p = [] /\
  Spec.beginsWithSelect q = true /\
  exists question text,
    fetch env (Spec.generationUrl env) (Spec.generationRequest env question)
      = Responded true (inr (Some text)) /\
    q = Spec.withoutFences text.
Proof.
  unfold POST, handle, bind, lift, exec, execRun, ret.
  destruct request as [e|b]; [intros []|].
  destruct (truthyOptStr (message b)); cbn [negb].
  2:{ destruct (sessionId b); intros []. }
  set (question := orStr (message b) EmptyString).
  assert (Hkey : forall sql, generateSQL env question = Some sql ->
                 Query q p = Query sql [] ->
                 p = [] /\ Spec.beginsWithSelect q = true /\
                 exists question text,
                   fetch env (Spec.generationUrl env)
                     (Spec.generationRequest env question)
                     = Responded true (inr (Some text)) /\
                   q = Spec.withoutFences text).
  { intros sql Hgen [= -> ->].
    destruct (generateSQL_inversion _ _ Hgen) as [Hsel [text Ht]].
    split; [reflexivity|]. split; [exact Hsel|]. now exists question, text. }
  destruct (sessionId b) as [sid|];
    (destruct (generateSQL env question) as [sql|] eqn:Hgen; [|intros []];
     destruct (all env sql) as [e|rows];
     [ cbn; intros [H|[]]; symmetry in H; now apply (Hkey sql)
     | destruct (extractReferenced rows) as [e|refs];
       [ cbn; intros [H|[]]; symmetry in H; now apply (Hkey sql)
       | destruct (run env (InsertChatMessage _ _ "user" _ _));
         [ cbn; intros [H|[H|[]]]; try discriminate H;
           symmetry in H; now apply (Hkey sql)
         | destruct (run env (InsertChatMessage _ _ "assistant" _ _));
           cbn; intros [H|[H|[H|[]]]]; try discriminate H;
           symmetry in H; now apply (Hkey sql) ] ] ]).
Qed.

Lemma only_select_runs_witness :
  In (Query "SELECT r.id FROM receipts r" [])
     (fst (POST (host := Examples.sampleHost)
             (Examples.modelSaying
                (Props.fenced "```sql" "SELECT r.id FROM receipts r")
                Examples.threeRows)
             (Examples.askModel "List the receipts"))) /\
  Spec.beginsWithSelect "SELECT r.id FROM receipts r" = true.
Proof.
  assert (H : In (Query "SELECT r.id FROM receipts r" [])
     (fst (POST (host := Examples.sampleHost)
             (Examples.modelSaying
                (Props.fenced "```sql" "SELECT r.id FROM receipts r")
                Examples.threeRows)
             (Examples.askModel "List the receipts")))) by (left; reflexivity).
  split; [exact H|].
  exact (proj1 (proj2 (only_select_runs _ _ _ _ H))).
Defined.

(** X18.  What the model assisted route handed to the store goes with its
    answer: a refusal (status 200, no query) touched nothing; a missing
    message (400) touched nothing; a failed execution (400) ran the query
    only and reports it back; only a full answer (200) stored the question
    and the answer, in this order; and a 500 ran nothing, or the query only,
    or the query and messages of which the last one was refused by the
    store. *)
Theorem sql_POST_protocol {host : Host} (env : Env) (request : Exn + ChatRequest) :
  let ops := fst (POST env request) in
  let response := snd (POST env request) in
  (status response = 200%nat \/ status response = 400%nat \/
   status response = 500%nat) /\
  (status response = 200%nat ->
   (ops = [] /\
    exists session,
      body response = Refusal session Spec.apology None Spec.generationError) \/
   (exists session question answer sql refs userId assistantId,
      ops = [ Query sql [];
              InsertChatMessage userId session "user" question None;
              InsertChatMessage assistantId session "assistant" answer (Some refs) ] /\
      run env (InsertChatMessage userId session "user" question None) = None /\
      run env (InsertChatMessage assistantId session "assistant" answer (Some refs))
        = None /\
      exists count, body response = Answer session answer sql refs count)) /\
  (status response = 400%nat ->
   (ops = [] /\ body response = Failure "Message is required" None) \/
   (exists session sql e,
      ops = [Query sql []] /\ all env sql = inl e /\
      body response = Refusal session ("SQL error: " ++ exnToString e) (Some sql)
                        "SQL execution failed")) /\
  (status response = 500%nat ->
   (exists details, body response = Failure "Failed to process" (Some details)) /\
   (ops = [] \/
    (exists sql, ops = [Query sql []]) \/
    (exists sql question e,
       ops = [Query sql []; question] /\ run env question = Some e) \/
    (exists sql question answer e,
       ops = [Query sql []; question; answer] /\
       run env question = None /\ run env answer = Some e))).
Proof.
  cbv zeta. unfold POST, handle, bind, lift, exec, execRun, ret.
  destruct request as [e|b].
  { cbn. repeat split; try discriminate; try tauto. eexists; reflexivity. }
  destruct (truthyOptStr (message b)); cbn [negb].
  2:{ destruct (sessionId b); cbn; repeat split; try discriminate; tauto. }
  set (question := orStr (message b) EmptyString).
  destruct (sessionId b) as [sid|];
    (destruct (generateSQL env question) as [sql|];
     [ destruct (all env sql) as [e|rows] eqn:Hall;
       [ cbn; repeat split; try discriminate; try tauto;
         intros _; right; do 3 eexists; repeat split; exact Hall
       | destruct (extractReferenced rows) as [e|refs];
         [ cbn; repeat split; try discriminate; try tauto;
           [ eexists; reflexivity | right; left; eexists; reflexivity ]
         | destruct (run env (InsertChatMessage _ _ "user" _ _)) as [e1|] eqn:E1;
           [ cbn; repeat split; try discriminate; try tauto;
             [ eexists; reflexivity
             | right; right; left; do 3 eexists; split; [reflexivity|exact E1] ]
           | destruct (run env (InsertChatMessage _ _ "assistant" _ _))
               as [e2|] eqn:E2;
             [ cbn; repeat split; try discriminate; try tauto;
               [ eexists; reflexivity
               | right; right; right; do 4 eexists;
                 split; [reflexivity|split; [exact E1|exact E2]] ]
             | cbn; repeat split; try discriminate; try tauto;
               intros _; right; do 7 eexists; split; [reflexivity|];
               split; [exact E1|]; split; [exact E2|];
               eexists; reflexivity ] ] ] ]
     | cbn; repeat split; try discriminate; try tauto;
       intros _; left; split; [reflexivity|]; eexists; reflexivity ]).
Qed.

Lemma filterCord_throws (rows : list Row) :
  (exists e, filterCord rows = inl e) <-> Exists Props.numericId rows.
Proof.
  unfold Props.numericId.
  induction rows as [|r rows IH]; cbn [filterCord].
  - split; [intros [e H]; discriminate H|]. intros H. inversion H.
  - destruct (field "id" r) as [[|n|s]|] eqn:Eid.
    + destruct (filterCord rows) as [e|kept].
      * split; [intros _; right; apply IH; now exists e|intros _; now exists e].
      * split; [intros [e H]; discriminate H|].
        intros H. inversion H as [? ? [m [Hm _]]|? ? H']; subst; [congruence|].
        apply IH in H'. destruct H' as [e H']. discriminate H'.
    + unfold truthyNum, falsyNum. destruct (Qeq_bool n 0) eqn:En; cbn [negb].
      * destruct (filterCord rows) as [e|kept].
        -- split; [intros _; right; apply IH; now exists e|intros _; now exists e].
        -- split; [intros [e H]; discriminate H|].
           intros H. inversion H as [? ? [m [Hm Hnz]]|? ? H']; subst.
           ++ rewrite Eid in Hm. injection Hm as <-.
              apply Qeq_bool_iff in En. contradiction.
           ++ apply IH in H'. destruct H' as [e H']. discriminate H'.
      * split; [|intros _; eexists; reflexivity].
        intros _. left. exists n. split; [exact Eid|].
        intros Hz. apply Qeq_bool_iff in Hz. congruence.
    + destruct (filterCord rows) as [e|kept].
      * split; [intros _; right; apply IH; now exists e|intros _; now exists e].
      * split; [intros [e H]; destruct (truthyStr s && startsWith "cord_" s);
                discriminate H|].
        intros H. inversion H as [? ? [m [Hm _]]|? ? H']; subst; [congruence|].
        apply IH in H'. destruct H' as [e H']. discriminate H'.
    + destruct (filterCord rows) as [e|kept].
      * split; [intros _; right; apply IH; now exists e|intros _; now exists e].
      * split; [intros [e H]; discriminate H|].
        intros H. inversion H as [? ? [m [Hm _]]|? ? H']; subst; [congruence|].
        apply IH in H'. destruct H' as [e H']. discriminate H'.
Qed.

(** X19.  Collecting the referenced receipts throws exactly when some row
    of the result has a number other than zero as its identifier (as after
    [SELECT COUNT( * ) AS id]); the route then answers 500 although the
    query itself succeeded, and stores no message. *)
Theorem numeric_identifier_fails {host : Host} :
  (forall rows,
     (exists e, extractReferenced rows = inl e) <-> Exists Props.numericId rows) /\
  (forall env request question sql rows,
     message request = Some question ->
     truthyStr question = true ->
     generateSQL env question = Some sql ->
     all env sql = inr rows ->
     Exists Props.numericId rows ->
     fst (POST env (inr request)) = [Query sql []] /\
     status (snd (POST env (inr request))) = 500%nat).
Proof.
  split.
  - intros rows. rewrite <- filterCord_throws. unfold extractReferenced.
    destruct (filterCord rows) as [e|kept].
    + split; intros _; now exists e.
    + split; intros [e H]; discriminate H.
  - intros env request question sql rows Hmsg Htruthy Hgen Hall Hnum.
    apply filterCord_throws in Hnum as [e He].
    unfold POST, handle, bind, lift, exec, execRun, ret.
    rewrite Hmsg. cbn [truthyOptStr orStr]. rewrite Htruthy. cbn [negb].
    unfold extractReferenced.
    destruct (sessionId request); rewrite Hgen, Hall, He; cbn; now split.
Qed.

Lemma numeric_identifier_fails_witness :
  Exists Props.numericId [ [("id", VNum 3)] ] /\
  fst (POST (host := Examples.sampleHost)
         (Examples.modelSaying "SELECT COUNT(*) AS id FROM receipts"
            [ [("id", VNum 3)] ])
         (Examples.askModel "How many receipts?"))
    = [Query "SELECT COUNT(*) AS id FROM receipts" []] /\
  status (snd (POST (host := Examples.sampleHost)
                 (Examples.modelSaying "SELECT COUNT(*) AS id FROM receipts"
                    [ [("id", VNum 3)] ])
                 (Examples.askModel "How many receipts?"))) = 500%nat.
Proof.
  assert (H : Exists Props.numericId [ [("id", VNum 3)] ]).
  { left. exists 3. split; [reflexivity|]. vm_compute. discriminate. }
  split; [exact H|].
  apply (proj2 (numeric_identifier_fails (host := Examples.sampleHost))
           (Examples.modelSaying "SELECT COUNT(*) AS id FROM receipts"
              [ [("id", VNum 3)] ])
           {| message := Some "How many receipts?"; sessionId := Some "session-1" |}
           "How many receipts?" "SELECT COUNT(*) AS id FROM receipts"
           [ [("id", VNum 3)] ]); try reflexivity.
  exact H.
Defined.

Lemma fold_nonempty {A} (f : string -> A -> string) (l : list A) (start : string) :
  (forall s a, s <> EmptyString -> f s a <> EmptyString) ->
  start <> EmptyString -> fold_left f l start <> EmptyString.
Proof.
  intros Hf. revert start.
  induction l as [|a l IH]; intros start H; simpl; [exact H|].
  apply IH. now apply Hf.
Qed.

Lemma formatFallback_nonempty {host : Host} (rows : list Row) :
  formatFallback rows <> EmptyString.
Proof.
  unfold formatFallback. destruct rows as [|first rest]; [discriminate|].
  destruct (_ && _).
  - apply fold_nonempty; [|discriminate].
    intros s a Hs. now apply ChatMore.app_nonempty.
  - cbv zeta.
    match goal with
    | |- (if ?b then _ else _) <> _ => destruct b
    end; [apply ChatMore.app_nonempty|];
      (apply fold_nonempty; [|discriminate]);
      intros s a Hs; destruct (truthy (field "id" a));
      now apply ChatMore.app_nonempty.
Qed.

(** X20.  The answer of [formatAnswer] is the model's trimmed text when
    there is one, a fixed sentence when that text is empty or missing, and
    the result of [formatFallback] whenever the model server fails; it is
    never empty, and the fallback for no rows is "No results found.". *)
Theorem formatAnswer_falls_back {host : Host} (env : Env) (question sql : string)
        (rows : list Row) :
  let outcome :=
    fetch env (Spec.generationUrl env) (Props.formattingRequest env question sql rows) in
  (Props.noModelText outcome -> formatAnswer env question sql rows = formatFallback rows) /\
  (forall text, outcome = Responded true (inr (Some text)) ->
     formatAnswer env question sql rows
     = if truthyStr (trim text) then trim text else "Unable to format response.") /\
  (outcome = Responded true (inr None) ->
     formatAnswer env question sql rows = "Unable to format response.") /\
  formatAnswer env question sql rows <> EmptyString /\
  formatFallback [] = "No results found.".
Proof.
  cbv zeta. unfold formatAnswer, Spec.generationUrl, Props.formattingRequest, Props.noModelText.
  destruct (fetch env _ _) as [e|[|] [e|[text|]]]; cbn [negb option_map orStr];
    repeat split; try tauto; try discriminate; try apply formatFallback_nonempty;
    try (intros t [= <-]; reflexivity).
  destruct (truthyStr (trim text)) eqn:E; [|discriminate].
  destruct (trim text); [discriminate E|discriminate].
Qed.

Lemma append_empty_r (a : string) : a ++ EmptyString = a.
Proof. induction a as [|c a IH]; simpl; [reflexivity|now rewrite IH]. Qed.

Lemma append_assoc (a b c : string) : (a ++ b) ++ c = a ++ b ++ c.
Proof. induction a as [|d a IH]; simpl; [reflexivity|now rewrite IH]. Qed.

Lemma countChar_app (c : ascii) (a b : string) :
  Props.countChar c (a ++ b) = (Props.countChar c a + Props.countChar c b)%nat.
Proof. induction a as [|d a IH]; simpl; [reflexivity|]. rewrite IH. lia. Qed.

Lemma noBacktick_cons (c : ascii) (s : string) :
  Props.noBacktick (String c s) -> Ascii.eqb c "`" = false /\ Props.noBacktick s.
Proof.
  unfold Props.noBacktick. cbn [Props.countChar].
  destruct (Ascii.eqb c "`"); [discriminate|]. now split.
Qed.

Lemma lower_not_backtick (c : ascii) :
  Ascii.eqb c "`" = false -> Ascii.eqb "`" (lowerChar c) = false.
Proof. JSFacts.each_ascii c; intros H; try discriminate H; reflexivity. Qed.

Lemma not_backtick_sym (c : ascii) :
  Ascii.eqb c "`" = false -> Ascii.eqb "`" c = false.
Proof. now rewrite Ascii.eqb_sym. Qed.

Lemma removeAllFrom_skip (a r w : string) (ci : bool) :
  removeAllFrom (String.length a) ci w (a ++ r) = removeAllFrom 0 ci w r.
Proof. induction a as [|c a IH]; [reflexivity|exact IH]. Qed.

(** Where there is no back tick, neither fence marker is found. *)
Lemma keep_prefix_sql (a b : string) :
  Props.noBacktick a ->
  removeAllFrom 0 true "```sql" (a ++ b) = a ++ removeAllFrom 0 true "```sql" b.
Proof.
  induction a as [|c a IH]; intros H; [reflexivity|].
  apply noBacktick_cons in H as [Hc Ha].
  cbn [append removeAllFrom toLowerCase startsWith truthyStr andb].
  change (lowerChar "`") with "`"%char.
  rewrite (lower_not_backtick _ Hc). cbn [andb]. now rewrite IH.
Qed.

Lemma keep_prefix_fence (a b : string) :
  Props.noBacktick a ->
  removeAllFrom 0 false "```" (a ++ b) = a ++ removeAllFrom 0 false "```" b.
Proof.
  induction a as [|c a IH]; intros H; [reflexivity|].
  apply noBacktick_cons in H as [Hc Ha].
  cbn [append removeAllFrom startsWith truthyStr andb].
  rewrite (not_backtick_sym _ Hc). cbn [andb]. now rewrite IH.
Qed.

Lemma keep_all_sql (a : string) :
  Props.noBacktick a -> removeAll true "```sql" a = a.
Proof.
  intros H. unfold removeAll.
  rewrite <- (append_empty_r a) at 1. rewrite (keep_prefix_sql _ H).
  cbn. apply append_empty_r.
Qed.

Lemma keep_all_fence (a : string) :
  Props.noBacktick a -> removeAll false "```" a = a.
Proof.
  intros H. unfold removeAll.
  rewrite <- (append_empty_r a) at 1. rewrite (keep_prefix_fence _ H).
  cbn. apply append_empty_r.
Qed.

Lemma noBacktick_app (a b : string) :
  Props.noBacktick (a ++ b) -> Props.noBacktick a /\ Props.noBacktick b.
Proof. unfold Props.noBacktick. rewrite countChar_app. lia. Qed.

(** White space at the start of a text: one character of one, two or three
    bytes, and what follows it. *)
Ltac space_cases H :=
  repeat match type of H with
         | context [if ?b then _ else _] => destruct b eqn:?; cbv iota in H
         end.

Lemma afterSpace_shorter (s r : string) :
  afterSpace s = Some r -> (String.length r < String.length s)%nat.
Proof.
  intros H. destruct s as [|a [|b [|c t]]]; cbn [afterSpace] in H;
    space_cases H; try discriminate H; injection H as <-; cbn; lia.
Qed.

Lemma afterSpace_app (a r b : string) :
  afterSpace a = Some r -> afterSpace (a ++ b) = Some (r ++ b).
Proof.
  intros H. destruct a as [|x [|y [|z t]]]; cbn [afterSpace append] in *;
    space_cases H; try discriminate H; injection H as <-; reflexivity.
Qed.

Lemma allSpace_some (s r : string) : afterSpace s = Some r -> allSpace s = allSpace r.
Proof.
  intros H. destruct s as [|a [|b [|c t]]]; cbn [afterSpace allSpace] in *;
    space_cases H; try discriminate H; injection H as <-; reflexivity.
Qed.

Lemma allSpace_none (s : string) :
  s <> EmptyString -> afterSpace s = None -> allSpace s = false.
Proof.
  intros Hs H. destruct s as [|a [|b [|c t]]]; [contradiction| | |];
    cbn [afterSpace allSpace] in *; space_cases H; try discriminate H; reflexivity.
Qed.

Lemma trimStart_some (s r : string) :
  afterSpace s = Some r -> trimStart s = trimStart r.
Proof. intros H. now rewrite JSFacts.trimStart_unfold, H. Qed.

Lemma trimStart_none (s : string) : afterSpace s = None -> trimStart s = s.
Proof. intros H. now rewrite JSFacts.trimStart_unfold, H. Qed.

Lemma afterSpace_split (s r : string) :
  afterSpace s = Some r -> exists w, s = w ++ r /\ allSpace w = true.
Proof.
  intros H. destruct s as [|a t]; [discriminate H|].
  cbn [afterSpace] in H. destruct (isSpace a) eqn:Ea.
  - injection H as <-. exists (String a EmptyString). split; [reflexivity|].
    cbn [allSpace]. now rewrite Ea.
  - destruct t as [|b t]; [discriminate H|]. destruct (isSpace2 a b) eqn:Eb.
    + injection H as <-. exists (String a (String b EmptyString)).
      split; [reflexivity|]. cbn [allSpace]. now rewrite Ea, Eb.
    + destruct t as [|c t]; [discriminate H|].
      destruct (isSpace3 a b c) eqn:Ec; [|discriminate H].
      injection H as <-. exists (String a (String b (String c EmptyString))).
      split; [reflexivity|]. cbn [allSpace]. now rewrite Ea, Eb, Ec.
Qed.

(** Induction along the white space characters at the start of a text. *)
Lemma space_ind (P : string -> Prop) :
  P EmptyString ->
  (forall s, s <> EmptyString -> afterSpace s = None -> P s) ->
  (forall s r, afterSpace s = Some r -> P r -> P s) ->
  forall s, P s.
Proof.
  intros H0 Hn Hs s.
  assert (H : forall n t, (String.length t < n)%nat -> P t).
  { induction n as [|n IH]; intros t Ht; [lia|].
    destruct t as [|a t']; [exact H0|].
    destruct (afterSpace (String a t')) as [r|] eqn:E.
    - apply (Hs _ r E). apply IH. apply afterSpace_shorter in E. lia.
    - apply Hn; [discriminate|exact E]. }
  apply (H (S (String.length s))). lia.
Qed.

Lemma space_ascii (c : ascii) : isSpace c = true -> (nat_of_ascii c < 128)%nat.
Proof.
  unfold isSpace. cbv zeta. intros H.
  apply orb_true_iff in H as [H|H].
  - apply andb_true_iff in H as [_ H]. apply Nat.leb_le in H. lia.
  - apply Nat.eqb_eq in H. lia.
Qed.

(** An ASCII character is no part of a white space character of several
    bytes. *)
Lemma afterSpace_app_none (a : string) (c : ascii) (r : string) :
  a <> EmptyString -> afterSpace a = None -> (nat_of_ascii c < 128)%nat ->
  afterSpace (a ++ String c r) = None.
Proof.
  intros Ha H Hc. destruct a as [|x [|y [|z t]]]; [contradiction| | |];
    cbn [afterSpace append] in *; space_cases H; try discriminate H.
  - rewrite (@JSFacts.isSpace2_ascii_r x c Hc).
    destruct r as [|d r]; [reflexivity|].
    now rewrite (@JSFacts.isSpace3_ascii_m x c d Hc).
  - now rewrite (@JSFacts.isSpace3_ascii_r x y c Hc).
  - reflexivity.
Qed.

Lemma allSpace_app (a b : string) :
  allSpace a = true -> allSpace b = true -> allSpace (a ++ b) = true.
Proof.
  intros Ha Hb. revert Ha. pattern a. apply space_ind; clear a.
  - intros _. exact Hb.
  - intros s Hs Hn Ha. rewrite (@allSpace_none _ Hs Hn) in Ha. discriminate Ha.
  - intros s r E IH Ha. rewrite (@allSpace_some _ _ E) in Ha.
    rewrite (@allSpace_some _ _ (@afterSpace_app _ _ b E)). now apply IH.
Qed.

Lemma trimStart_split (s : string) :
  exists w, s = w ++ trimStart s /\ allSpace w = true.
Proof.
  pattern s. apply space_ind; clear s.
  - now exists EmptyString.
  - intros s _ Hn. exists EmptyString. now rewrite (@trimStart_none _ Hn).
  - intros s r E [w1 [Hr Hw1]]. destruct (@afterSpace_split _ _ E) as [w0 [Hs Hw0]].
    exists (w0 ++ w1). split; [|now apply allSpace_app].
    rewrite (@trimStart_some _ _ E), append_assoc, <- Hr. exact Hs.
Qed.

Lemma trimEnd_split (s : string) :
  exists w, s = trimEnd s ++ w /\ allSpace w = true.
Proof.
  induction s as [|c r [w [Hr Hw]]]; [now exists EmptyString|].
  cbn [trimEnd]. destruct (allSpace (String c r)) eqn:E.
  - now exists (String c r).
  - exists w. split; [|exact Hw]. cbn [append]. now rewrite <- Hr.
Qed.

Lemma trimStart_fixed (s : string) : afterSpace (trimStart s) = None.
Proof.
  pattern s. apply space_ind; clear s.
  - reflexivity.
  - intros s _ Hn. now rewrite (@trimStart_none _ Hn).
  - intros s r E IH. now rewrite (@trimStart_some _ _ E).
Qed.

Lemma trimStart_empty (s : string) : allSpace s = true -> trimStart s = EmptyString.
Proof.
  pattern s. apply space_ind; clear s.
  - reflexivity.
  - intros s Hs Hn H. rewrite (@allSpace_none _ Hs Hn) in H. discriminate H.
  - intros s r E IH H. rewrite (@allSpace_some _ _ E) in H.
    rewrite (@trimStart_some _ _ E). now apply IH.
Qed.

Lemma trimEnd_idempotent (s : string) : trimEnd (trimEnd s) = trimEnd s.
Proof.
  induction s as [|c r IH]; [reflexivity|].
  cbn [trimEnd]. destruct (allSpace (String c r)) eqn:E; [reflexivity|].
  cbn [trimEnd]. destruct (allSpace (String c (trimEnd r))) eqn:E2.
  - destruct (trimEnd_split r) as [w [Hr Hw]].
    pose proof (@allSpace_app _ _ E2 Hw) as H.
    cbn [append] in H. rewrite <- Hr in H. congruence.
  - now rewrite IH.
Qed.

Lemma trim_idempotent (s : string) : trim (trim s) = trim s.
Proof.
  unfold trim. pose proof (trimStart_fixed s) as Ht.
  set (t := trimStart s) in *.
  assert (Hn : afterSpace (trimEnd t) = None).
  { destruct (afterSpace (trimEnd t)) as [r|] eqn:E; [|reflexivity].
    destruct (trimEnd_split t) as [w [Hw _]].
    apply (@afterSpace_app _ _ w) in E. rewrite <- Hw in E. congruence. }
  rewrite (@trimStart_none _ Hn). apply trimEnd_idempotent.
Qed.

(** One more ASCII white space character at the end changes nothing. *)
Lemma allSpace_snoc (s : string) (c : ascii) :
  isSpace c = true -> allSpace (s ++ String c EmptyString) = allSpace s.
Proof.
  intros Hc. pattern s. apply space_ind; clear s.
  - cbn [append allSpace]. now rewrite Hc.
  - intros s Hs Hn. rewrite (@allSpace_none _ Hs Hn). apply allSpace_none.
    + now destruct s.
    + apply afterSpace_app_none; [exact Hs|exact Hn|now apply space_ascii].
  - intros s r E IH.
    now rewrite (@allSpace_some _ _ E), (@allSpace_some _ _ (@afterSpace_app _ _ _ E)).
Qed.

Lemma trimEnd_snoc (s : string) (c : ascii) :
  isSpace c = true -> trimEnd (s ++ String c EmptyString) = trimEnd s.
Proof.
  intros Hc. induction s as [|a r IH].
  - cbn [append trimEnd allSpace]. now rewrite Hc.
  - pose proof (@allSpace_snoc (String a r) _ Hc) as H.
    cbn [append] in *. cbn [trimEnd]. now rewrite H, IH.
Qed.

Lemma trimStart_snoc (s : string) (c : ascii) :
  isSpace c = true ->
  trimStart (s ++ String c EmptyString)
  = if allSpace s then EmptyString else trimStart s ++ String c EmptyString.
Proof.
  intros Hc. pattern s. apply space_ind; clear s.
  - cbn [append trimStart allSpace]. now rewrite Hc.
  - intros s Hs Hn. rewrite (@allSpace_none _ Hs Hn), (@trimStart_none _ Hn).
    apply trimStart_none.
    apply afterSpace_app_none; [exact Hs|exact Hn|now apply space_ascii].
  - intros s r E IH.
    now rewrite (@allSpace_some _ _ E), (@trimStart_some _ _ E),
      (@trimStart_some _ _ (@afterSpace_app _ _ _ E)).
Qed.

Lemma trim_newlines (s : string) : trim (nl ++ s ++ nl) = trim s.
Proof.
  unfold trim. change (trimStart (nl ++ s ++ nl)) with (trimStart (s ++ nl)).
  unfold nl. rewrite trimStart_snoc by reflexivity.
  destruct (allSpace s) eqn:E.
  - now rewrite (@trimStart_empty _ E).
  - now apply trimEnd_snoc.
Qed.

(** A back tick never belongs to white space. *)
Lemma allSpace_backtick (a r : string) : allSpace (a ++ String "`" r) = false.
Proof.
  assert (Hb : (nat_of_ascii "`" < 128)%nat) by (cbn; lia).
  pattern a. apply space_ind; clear a.
  - apply allSpace_none; [discriminate|].
    now apply JSFacts.afterSpace_ascii_head.
  - intros s Hs Hn. apply allSpace_none; [now destruct s|].
    now apply afterSpace_app_none.
  - intros s t E IH. now rewrite (@allSpace_some _ _ (@afterSpace_app _ _ _ E)).
Qed.

Lemma trimEnd_backtick (a : string) : trimEnd (a ++ "`") = a ++ "`".
Proof.
  induction a as [|c a IH]; [reflexivity|].
  pose proof (allSpace_backtick (String c a) EmptyString) as H.
  cbn [append] in *. cbn [trimEnd]. now rewrite H, IH.
Qed.

Lemma noBacktick_trimStart (s : string) :
  Props.noBacktick s -> Props.noBacktick (trimStart s).
Proof.
  intros H. destruct (trimStart_split s) as [w [Hs _]].
  rewrite Hs in H. now apply noBacktick_app in H.
Qed.

Lemma noBacktick_trimEnd (s : string) :
  Props.noBacktick s -> Props.noBacktick (trimEnd s).
Proof.
  intros H. destruct (trimEnd_split s) as [w [Hs _]].
  rewrite Hs in H. now apply noBacktick_app in H.
Qed.

Lemma withoutFences_plain (text : string) :
  Props.noBacktick text -> Spec.withoutFences text = trim text.
Proof.
  intros H. unfold Spec.withoutFences.
  assert (Ht : Props.noBacktick (trim text))
    by now apply noBacktick_trimEnd, noBacktick_trimStart.
  rewrite (keep_all_sql Ht), (keep_all_fence Ht). apply trim_idempotent.
Qed.

Lemma noBacktick_between (text : string) :
  Props.noBacktick text -> Props.noBacktick (nl ++ text ++ nl).
Proof.
  unfold Props.noBacktick. intros H.
  rewrite !countChar_app, H. reflexivity.
Qed.

Lemma toLowerCase_app (a b : string) :
  toLowerCase (a ++ b) = toLowerCase a ++ toLowerCase b.
Proof. induction a as [|c a IH]; simpl; [reflexivity|now rewrite IH]. Qed.

Lemma startsWith_app (a b : string) : startsWith a (a ++ b) = true.
Proof.
  induction a as [|c a IH]; [now destruct b|].
  cbn [append startsWith]. now rewrite Ascii.eqb_refl, IH.
Qed.

Lemma toLowerCase_length (a : string) :
  String.length (toLowerCase a) = String.length a.
Proof. induction a as [|c a IH]; simpl; [reflexivity|now rewrite IH]. Qed.

(** Both replacements on a fenced text leave what is between the markers. *)
Lemma unfence (opening text : string) :
  toLowerCase opening = "```sql" \/ opening = "```" ->
  Props.noBacktick text ->
  removeAll false "```" (removeAll true "```sql" (Props.fenced opening text))
  = nl ++ text ++ nl.
Proof.
  intros Hopen Htext. unfold Props.fenced, removeAll.
  pose proof (noBacktick_between Htext) as Hmid.
  assert (Hrest : removeAllFrom 0 true "```sql" (nl ++ text ++ nl ++ "```")
                  = nl ++ text ++ nl ++ "```").
  { replace (nl ++ text ++ nl ++ "```") with ((nl ++ text ++ nl) ++ "```")
      by now rewrite !append_assoc.
    now rewrite (keep_prefix_sql _ Hmid). }
  assert (Hlast : removeAllFrom 0 false "```" (nl ++ text ++ nl ++ "```")
                  = nl ++ text ++ nl).
  { replace (nl ++ text ++ nl ++ "```") with ((nl ++ text ++ nl) ++ "```")
      by now rewrite !append_assoc.
    rewrite (keep_prefix_fence _ Hmid). cbn [removeAllFrom startsWith truthyStr andb
      Ascii.eqb Bool.eqb String.length Nat.sub].
    cbn. now rewrite append_empty_r. }
  destruct Hopen as [Hlow | ->].
  - assert (Hlen : String.length opening = 6%nat).
    { rewrite <- toLowerCase_length, Hlow. reflexivity. }
    destruct opening as [|c o]; [discriminate Hlen|].
    injection Hlen as Hlen.
    assert (Hhit : startsWith (toLowerCase "```sql")
                     (toLowerCase (String c o ++ nl ++ text ++ nl ++ "```")) = true).
    { rewrite toLowerCase_app, Hlow. apply startsWith_app. }
    cbn [append]. cbn [append] in Hhit.
    cbn [removeAllFrom truthyStr andb]. rewrite Hhit.
    change (String.length "```sql" - 1)%nat with 5%nat.
    rewrite <- Hlen, removeAllFrom_skip, Hrest. exact Hlast.
  - cbn [append].
    change (removeAllFrom 0 true "```sql"
              (String "`" (String "`" (String "`" (nl ++ text ++ nl ++ "```")))))
      with (String "`" (String "`" (String "`"
              (removeAllFrom 0 true "```sql" (nl ++ text ++ nl ++ "```"))))).
    rewrite Hrest.
    change (removeAllFrom 0 false "```"
              (String "`" (String "`" (String "`" (nl ++ text ++ nl ++ "```")))))
      with (removeAllFrom 0 false "```" (nl ++ text ++ nl ++ "```")).
    exact Hlast.
Qed.

Lemma trim_fenced (opening text : string) :
  toLowerCase opening = "```sql" \/ opening = "```" ->
  trim (Props.fenced opening text) = Props.fenced opening text.
Proof.
  intros Hopen. unfold trim, Props.fenced.
  assert (Hstart : exists o, opening = String "`" o).
  { destruct Hopen as [H | ->]; [|now eexists].
    destruct opening as [|c o]; [discriminate H|].
    injection H as Hc _. exists o. f_equal.
    revert Hc. clear. JSFacts.each_ascii c; intros H; try discriminate H; reflexivity. }
  destruct Hstart as [o ->].
  rewrite trimStart_none.
  2:{ cbn [append]. apply JSFacts.afterSpace_ascii_head; [cbn; lia|reflexivity]. }
  replace (String "`" o ++ nl ++ text ++ nl ++ "```")
    with ((String "`" o ++ nl ++ text ++ nl ++ "``") ++ "`")
    by now rewrite !append_assoc.
  apply trimEnd_backtick.
Qed.

(** X21.  A model answer wrapped in a code fence (opened by three back
    ticks, alone or followed by "sql" in any letter case) is read as the
    text between the markers, trimmed: the same query as for the bare text,
    provided the text itself holds no back tick. *)
Theorem fenced_answer_unwrapped (opening text : string) :
  toLowerCase opening = "```sql" \/ opening = "```" ->
  Props.noBacktick text ->
  Spec.withoutFences (Props.fenced opening text) = trim text /\
  Spec.withoutFences text = trim text.
Proof.
  intros Hopen Htext. split; [|now apply withoutFences_plain].
  unfold Spec.withoutFences.
  rewrite (trim_fenced text Hopen), (unfence Hopen Htext).
  apply trim_newlines.
Qed.

Lemma fenced_answer_unwrapped_witness :
  (toLowerCase "```SQL" = "```sql" \/ "```SQL" = "```") /\
  Props.noBacktick "  SELECT COUNT(*) FROM receipts " /\
  Spec.withoutFences (Props.fenced "```SQL" "  SELECT COUNT(*) FROM receipts ")
    = trim "  SELECT COUNT(*) FROM receipts " /\
  Spec.withoutFences "  SELECT COUNT(*) FROM receipts "
    = trim "  SELECT COUNT(*) FROM receipts ".
Proof.
  assert (H1 : toLowerCase "```SQL" = "```sql" \/ "```SQL" = "```")
    by (left; reflexivity).
  assert (H2 : Props.noBacktick "  SELECT COUNT(*) FROM receipts ") by reflexivity.
  split; [exact H1|]. split; [exact H2|].
  exact (fenced_answer_unwrapped H1 H2).
Defined.

End SqlRouteMore.

Module ExtractionMore.

Import JS ExtractionTypes ReceiptExtraction.
Local Open Scope string_scope.

Lemma uptoLastBrace_none (s : string) :
  Props.countChar "}" s = 0%nat -> uptoLastBrace s = None.
Proof.
  induction s as [|c r IH]; cbn [Props.countChar uptoLastBrace]; [reflexivity|].
  destruct (Ascii.eqb c "}"); [discriminate|].
  intros H. now rewrite (IH H).
Qed.

Lemma uptoLastBrace_last (b c : string) :
  Props.countChar "}" c = 0%nat ->
  uptoLastBrace (b ++ "}" ++ c) = Some (b ++ "}").
Proof.
  intros Hc. induction b as [|d b IH].
  - cbn. now rewrite (@uptoLastBrace_none c Hc).
  - cbn [append uptoLastBrace]. cbn [append] in IH. now rewrite IH.
Qed.

Lemma matchJson_found (a b c : string) :
  Props.countChar "{" a = 0%nat ->
  Props.countChar "}" c = 0%nat ->
  matchJson (a ++ "{" ++ b ++ "}" ++ c) = Some ("{" ++ b ++ "}").
Proof.
  intros Ha Hc. induction a as [|d a IH].
  - pose proof (@uptoLastBrace_last b c Hc) as Hu.
    cbn [append matchJson] in Hu |- *. rewrite Ascii.eqb_refl.
    now rewrite Hu.
  - cbn [Props.countChar] in Ha. cbn [append matchJson].
    destruct (Ascii.eqb d "{"); [discriminate Ha|]. now apply IH.
Qed.

Lemma uptoLastBrace_some (s m : string) :
  uptoLastBrace s = Some m -> exists b c, s = b ++ "}" ++ c /\ m = b ++ "}".
Proof.
  revert m. induction s as [|d r IH]; intros m; cbn [uptoLastBrace]; [discriminate|].
  destruct (uptoLastBrace r) as [m'|].
  - intros [= <-]. destruct (IH m' eq_refl) as (b & c & -> & ->).
    now exists (String d b), c.
  - destruct (Ascii.eqb d "}") eqn:E; [|discriminate].
    intros [= <-]. apply Ascii.eqb_eq in E. subst d.
    now exists EmptyString, r.
Qed.

Lemma matchJson_some (s m : string) :
  matchJson s = Some m -> exists a b c, s = a ++ "{" ++ b ++ "}" ++ c.
Proof.
  revert m. induction s as [|d r IH]; intros m; cbn [matchJson]; [discriminate|].
  destruct (Ascii.eqb d "{") eqn:E.
  - destruct (uptoLastBrace r) as [m'|] eqn:Eu.
    + intros _. apply Ascii.eqb_eq in E. subst d.
      destruct (uptoLastBrace_some _ Eu) as (b & c & -> & _).
      now exists EmptyString, b, c.
    + intros H. destruct (IH _ H) as (a & b & c & ->).
      now exists (String d a), b, c.
  - intros H. destruct (IH _ H) as (a & b & c & ->).
    now exists (String d a), b, c.
Qed.

(** X22.  Of the model's answer only the text from the first opening brace
    to the last closing brace is interpreted; what surrounds it (prose, a
    code fence) is ignored.  An answer in which no closing brace follows an
    opening brace throws "No JSON found in response". *)
Theorem json_between_braces (env : Env) :
  (forall a b c,
     Props.countChar "{" a = 0%nat ->
     Props.countChar "}" c = 0%nat ->
     parseExtractionResponse env (a ++ "{" ++ b ++ "}" ++ c)
     = interpret env ("{" ++ b ++ "}")) /\
  (forall response,
     (forall a b c, response <> a ++ "{" ++ b ++ "}" ++ c) ->
     parseExtractionResponse env response = inl "No JSON found in response").
Proof.
  split.
  - intros a b c Ha Hc. unfold parseExtractionResponse.
    now rewrite (@matchJson_found a b c Ha Hc).
  - intros response H. unfold parseExtractionResponse.
    destruct (matchJson response) as [m|] eqn:E; [|reflexivity].
    destruct (matchJson_some _ E) as (a & b & c & Habc).
    now contradiction (H a b c).
Qed.

Lemma json_between_braces_witness :
  parseExtractionResponse Samples.visionEnv
    "Here is the receipt: {...} Let me know if it helps."
  = inr Samples.coffee.
Proof.
  exact (proj1 (json_between_braces Samples.visionEnv)
           "Here is the receipt: " "..." " Let me know if it helps."
           eq_refl eq_refl).
Defined.

Local Open Scope Q_scope.

Lemma items_required_iff (result : ExtractionResult) :
  In LineItemRequired (validateExtractionResult result) <->
  items (data result) = [].
Proof.
  rewrite ReconciliationFacts.validate_shape. cbv zeta.
  destruct (items (data result)) as [|i l]; cbn [List.length Nat.eqb];
    destruct (falsyNum _), (gtb _ _); simpl;
    intuition (discriminate || congruence).
Qed.

Lemma failure_coherent (message : string) (t : number) (m : string) :
  Props.coherent (failure message t m).
Proof.
  split; [|discriminate].
  intros _. split; [reflexivity|]. split; [now exists message|reflexivity].
Qed.

Lemma extracted_coherent (d : ExtractionData) (raw : string) (options : Options)
      (t : number) (m : string) :
  Props.coherent (extracted d raw options t m).
Proof.
  split; [discriminate|]. intros _.
  assert (Hitems : (0 <? List.length (items d))%nat = true <-> items d <> []).
  { destruct (items d); cbn; split; intros H; try reflexivity;
      try discriminate H; try discriminate; now contradiction H. }
  assert (Htotal : gtb (totalAmount (receipt d)) 0 = true <-> 0 < totalAmount (receipt d))
    by apply ReconciliationFacts.gtb_lt.
  assert (Hvalid : items d <> [] -> 0 < totalAmount (receipt d) ->
                   ~ In TotalAmountRequired
                       (validateExtractionResult (extracted d raw options t m)) /\
                   ~ In LineItemRequired
                       (validateExtractionResult (extracted d raw options t m))).
  { intros Hi Ht. split.
    - rewrite ReconciliationFacts.required_iff. cbn [data extracted].
      intros Hz. rewrite Hz in Ht. now apply Qlt_irrefl in Ht.
    - rewrite items_required_iff. exact Hi. }
  set (V := validateExtractionResult (extracted d raw options t m)) in *.
  unfold extracted. cbn [confidence errors data]. cbv zeta.
  destruct (vendorNamed d);
    destruct ((0 <? List.length (items d))%nat) eqn:Ei;
    destruct (gtb (totalAmount (receipt d)) 0) eqn:Et;
    (first [ assert (Pi : items d <> []) by (apply Hitems; reflexivity)
           | assert (Pi : ~ items d <> [])
               by (intros H; apply Hitems in H; discriminate H) ]);
    (first [ assert (Pt : 0 < totalAmount (receipt d)) by (apply Htotal; reflexivity)
           | assert (Pt : ~ 0 < totalAmount (receipt d))
               by (intros H; apply Htotal in H; discriminate H) ]);
    clear Hitems Htotal;
    (split; [vm_compute; discriminate|]);
    (split; [vm_compute; discriminate|]);
    (split; [reflexivity|]);
    (split; [|split]);
    match goal with
    | |- ?L <-> _ =>
        first [ assert (HL : L) by (vm_compute; first [reflexivity|discriminate])
              | assert (HL : ~ L)
                  by (let X := fresh in
                      intros X; vm_compute in X;
                      first [discriminate X | apply X; reflexivity]) ];
        intuition (discriminate || congruence)
    | |- ?L -> _ =>
        first [ intros _; apply Hvalid; assumption
              | let X := fresh in
                intros X; exfalso; vm_compute in X;
                first [discriminate X | apply X; reflexivity] ]
    end.
Qed.

(** X23.  Both extraction functions return a coherent result: on failure,
    confidence 0, one error message, and data the validator rejects for the
    missing total and the missing items; on success, a confidence between
    0.5 and 1 and no error message, confidence 1 exactly when the vendor is
    named, there are line items and the total is positive, and a confidence
    above 0.85 exactly when there are line items and a positive total, in
    which case the validator records neither required-field entry. *)
Theorem extraction_coherent (env : Env) (image : string) (options : Options) :
  Props.coherent (extractReceiptFromBase64 env image options) /\
  Props.coherent (extractReceipt env image options).
Proof.
  unfold extractReceiptFromBase64, extractReceipt. cbv zeta. split.
  - destruct (healthCheckOk env); cbn [negb]; [|apply failure_coherent].
    destruct (callOllamaVision env _ _) as [e|raw]; [apply failure_coherent|].
    destruct (parseExtractionResponse env raw) as [e|d];
      [apply failure_coherent|apply extracted_coherent].
  - destruct (healthCheckOk env); cbn [negb]; [|apply failure_coherent].
    destruct (readImage env image) as [e|b64]; [apply failure_coherent|].
    destruct (callOllamaVision env _ _) as [e|raw]; [apply failure_coherent|].
    destruct (parseExtractionResponse env raw) as [e|d];
      [apply failure_coherent|apply extracted_coherent].
Qed.

(** X24.  Extracting from a file is extracting from its base64 content: when
    the model server is up and the file can be read, [extractReceipt]
    returns what [extractReceiptFromBase64] returns for the content read; a
    file that cannot be read gives the failure result with the message of
    the read error. *)
Theorem extractReceipt_reads_then_extracts (env : Env) (path : string)
        (options : Options) :
  healthCheckOk env = true ->
  (forall imageBase64,
     readImage env path = inr imageBase64 ->
     extractReceipt env path options
     = extractReceiptFromBase64 env imageBase64 options) /\
  (forall message,
     readImage env path = inl message ->
     extractReceipt env path options
     = failure message (now env 1 - now env 0)
         (orStr (model options) "llava")).
Proof.
  intros Hup. unfold extractReceipt, extractReceiptFromBase64. cbv zeta.
  rewrite Hup. cbn [negb]. split.
  - intros b64 ->. reflexivity.
  - intros message ->. reflexivity.
Qed.

Lemma extractReceipt_reads_then_extracts_witness :
  healthCheckOk Samples.visionEnv = true /\
  extractReceipt Samples.visionEnv "uploads/receipt.jpg" Samples.defaults
  = extractReceiptFromBase64 Samples.visionEnv "base64:uploads/receipt.jpg"
      Samples.defaults.
Proof.
  split; [reflexivity|].
  exact (proj1 (extractReceipt_reads_then_extracts Samples.visionEnv
                  "uploads/receipt.jpg" Samples.defaults eq_refl)
           "base64:uploads/receipt.jpg" eq_refl).
Defined.

End ExtractionMore.
